(** * PCF message decoder of ibmmq-go-stat-otel (package [pcf])

    A shallow embedding of the Go parser ([Parser.ParseMessage] and the
    functions it calls) together with the properties of its header decoder,
    its parameter-stream decoder and its aggregate builders.

    Conventions of the embedding:
    - a Go [[]byte] is a [list byte]; a Go [string] is a [string], whose
      characters are 8-bit, and the conversion [string(b)] of a byte slice
      is [string_of_list_byte];
    - Go's [int] is modelled by [Z] (buffer lengths are far below the range
      of a 64-bit [int]); [int32] values are integers of [Z] and every
      conversion that can wrap has its wrap-around written out;
    - a run-time panic (slice bounds out of range) and the exhaustion of the
      loop budget of the model are explicit results ([Panic], [OutOfFuel]),
      so that "the function returns" is a statement to be proved;
    - the logger is write-only for the parser and is left out. *)

From Stdlib Require Import ZArith Lia.
From Stdlib Require Import Strings.Ascii Strings.Byte.
From stdpp Require Import base option list strings gmap pretty.

Local Open Scope Z_scope.

(** ** Bytes, machine integers and slices *)

Definition byte_val (b : byte) : Z := Z.of_N (Byte.to_N b).

(** Go's conversion [byte(v)] of an unsigned integer: the low eight bits. *)
Definition byte_of (z : Z) : byte :=
  match Byte.of_N (Z.to_N (z mod 256)) with
  | Some b => b
  | None => x00
  end.

(** [len(data)] *)
Definition len {A} (l : list A) : Z := Z.of_nat (length l).

(** Go's conversion [uint32(x)] of an [int32]. *)
Definition uint32_of_int32 (x : Z) : Z := x mod 2 ^ 32.

(** Go's conversion [int32(u)] of a [uint32]. *)
Definition int32_of_uint32 (u : Z) : Z :=
  if u <? 2 ^ 31 then u else u - 2 ^ 32.

(** [int32] arithmetic wraps around. *)
Definition wrap_int32 (z : Z) : Z := (z + 2 ^ 31) mod 2 ^ 32 - 2 ^ 31.

Definition int32_sub (a b : Z) : Z := wrap_int32 (a - b).

Definition is_int32 (z : Z) : Prop := - 2 ^ 31 <= z < 2 ^ 31.

(** Results of running a piece of Go code. *)
Inductive outcome (A : Type) : Type :=
| Done (a : A)
| Panic
| OutOfFuel.
Arguments Done {A} a.
Arguments Panic {A}.
Arguments OutOfFuel {A}.

#[global] Instance outcome_ret : MRet outcome := fun _ a => Done a.
#[global] Instance outcome_bind : MBind outcome := fun _ _ f m =>
  match m with
  | Done a => f a
  | Panic => Panic
  | OutOfFuel => OutOfFuel
  end.

(** The slice expression [data[lo:hi]]; out-of-range bounds panic. *)
Definition slice (data : list byte) (lo hi : Z) : outcome (list byte) :=
  if (0 <=? lo) && (lo <=? hi) && (hi <=? len data)
  then Done (take (Z.to_nat (hi - lo)) (drop (Z.to_nat lo) data))
  else Panic.

(** [binary.LittleEndian.Uint32(b)]; it indexes [b[3]] first, so a slice
    shorter than four bytes panics. *)
Definition Uint32 (b : list byte) : outcome Z :=
  match b with
  | b0 :: b1 :: b2 :: b3 :: _ =>
      Done (Z.lor (Z.lor (Z.lor (byte_val b0) (Z.shiftl (byte_val b1) 8))
                         (Z.shiftl (byte_val b2) 16))
                  (Z.shiftl (byte_val b3) 24))
  | _ => Panic
  end.

(** The four bytes [binary.LittleEndian.PutUint32] stores for [v]. *)
Definition PutUint32 (v : Z) : list byte :=
  [byte_of v; byte_of (Z.shiftr v 8); byte_of (Z.shiftr v 16);
   byte_of (Z.shiftr v 24)].

(** [int32(binary.LittleEndian.Uint32(data[lo:lo+4]))] *)
Definition readInt32 (data : list byte) (lo : Z) : outcome Z :=
  b ← slice data lo (lo + 4);
  u ← Uint32 b;
  mret (int32_of_uint32 u).

(** ** Errors *)

Inductive error : Type :=
| Errorf (msg : string)
| Wrapf (msg : string) (inner : error).

(** ** The PCF header *)

Record PCFHeader : Type := mkPCFHeader {
  h_Type : Z;
  h_StrucLength : Z;
  h_Version : Z;
  h_Command : Z;
  h_MsgSeqNumber : Z;
  h_Control : Z;
  h_CompCode : Z;
  h_Reason : Z;
  h_ParameterCount : Z
}.

(** [parseHeader] *)
Definition parseHeader (data : list byte)
  : outcome (option PCFHeader * option error) :=
  if len data <? 36 then
    mret (None, Some (Errorf "insufficient data for PCF header"))
  else
    f0 ← readInt32 data 0;
    f1 ← readInt32 data 4;
    f2 ← readInt32 data 8;
    f3 ← readInt32 data 12;
    f4 ← readInt32 data 16;
    f5 ← readInt32 data 20;
    f6 ← readInt32 data 24;
    f7 ← readInt32 data 28;
    f8 ← readInt32 data 32;
    mret (Some (mkPCFHeader f0 f1 f2 f3 f4 f5 f6 f7 f8), None).

(** The encoder of the round-trip property: the nine fields as 4-byte
    little-endian words at offsets 0, 4, ..., 32. *)
Definition encodeHeader (h : PCFHeader) : list byte :=
  PutUint32 (uint32_of_int32 (h_Type h)) ++
  PutUint32 (uint32_of_int32 (h_StrucLength h)) ++
  PutUint32 (uint32_of_int32 (h_Version h)) ++
  PutUint32 (uint32_of_int32 (h_Command h)) ++
  PutUint32 (uint32_of_int32 (h_MsgSeqNumber h)) ++
  PutUint32 (uint32_of_int32 (h_Control h)) ++
  PutUint32 (uint32_of_int32 (h_CompCode h)) ++
  PutUint32 (uint32_of_int32 (h_Reason h)) ++
  PutUint32 (uint32_of_int32 (h_ParameterCount h)).

Definition wf_header (h : PCFHeader) : Prop :=
  is_int32 (h_Type h) /\ is_int32 (h_StrucLength h) /\
  is_int32 (h_Version h) /\ is_int32 (h_Command h) /\
  is_int32 (h_MsgSeqNumber h) /\ is_int32 (h_Control h) /\
  is_int32 (h_CompCode h) /\ is_int32 (h_Reason h) /\
  is_int32 (h_ParameterCount h).

(** ** Strings: [cleanString]

    [for i, r := range s] walks the UTF-8 code points of [s]: [i] is the
    index of the first byte of a code point and [r] its value; an invalid
    sequence yields [RuneError] and advances by one byte.  The decoding is
    that of [utf8.DecodeRuneInString]. *)

Definition char_val (c : ascii) : Z := Z.of_N (N_of_ascii c).

Definition RuneError : Z := 0xFFFD.

(** The classification of a first byte by the table [first] of package
    [utf8]: ASCII, invalid, or the lead of a sequence of [size] bytes whose
    second byte must lie in [lo..hi]. *)
Inductive lead : Type :=
| Ascii
| Invalid
| Lead (size : Z) (lo hi : Z).

Definition first (s0 : Z) : lead :=
  if s0 <? 0x80 then Ascii
  else if s0 <? 0xC2 then Invalid
  else if s0 <? 0xE0 then Lead 2 0x80 0xBF
  else if s0 =? 0xE0 then Lead 3 0xA0 0xBF
  else if s0 <? 0xED then Lead 3 0x80 0xBF
  else if s0 =? 0xED then Lead 3 0x80 0x9F
  else if s0 <? 0xF0 then Lead 3 0x80 0xBF
  else if s0 =? 0xF0 then Lead 4 0x90 0xBF
  else if s0 <? 0xF4 then Lead 4 0x80 0xBF
  else if s0 =? 0xF4 then Lead 4 0x80 0x8F
  else Invalid.

Definition continuation (c : Z) : bool := (0x80 <=? c) && (c <=? 0xBF).

(** [utf8.DecodeRuneInString s]: the code point at the start of [s] and its
    width in bytes. *)
Definition DecodeRuneInString (s : string) : Z * nat :=
  match s with
  | EmptyString => (RuneError, 0%nat)
  | String c0 t0 =>
      let s0 := char_val c0 in
      match first s0 with
      | Ascii => (s0, 1%nat)
      | Invalid => (RuneError, 1%nat)
      | Lead sz lo hi =>
          if Z.of_nat (String.length s) <? sz then (RuneError, 1%nat) else
          match t0 with
          | EmptyString => (RuneError, 1%nat)
          | String c1 t1 =>
              let s1 := char_val c1 in
              if (s1 <? lo) || (hi <? s1) then (RuneError, 1%nat) else
              if sz <=? 2 then
                (Z.lor (Z.shiftl (Z.land s0 0x1F) 6) (Z.land s1 0x3F), 2%nat)
              else
              match t1 with
              | EmptyString => (RuneError, 1%nat)
              | String c2 t2 =>
                  let s2 := char_val c2 in
                  if negb (continuation s2) then (RuneError, 1%nat) else
                  if sz <=? 3 then
                    (Z.lor (Z.lor (Z.shiftl (Z.land s0 0x0F) 12)
                                  (Z.shiftl (Z.land s1 0x3F) 6))
                           (Z.land s2 0x3F), 3%nat)
                  else
                  match t2 with
                  | EmptyString => (RuneError, 1%nat)
                  | String c3 _ =>
                      let s3 := char_val c3 in
                      if negb (continuation s3) then (RuneError, 1%nat) else
                      (Z.lor (Z.lor (Z.lor (Z.shiftl (Z.land s0 0x07) 18)
                                           (Z.shiftl (Z.land s1 0x3F) 12))
                                    (Z.shiftl (Z.land s2 0x3F) 6))
                             (Z.land s3 0x3F), 4%nat)
                  end
              end
          end
      end
  end.

(** The loop of [cleanString]: [rest] is [s] from byte index [i] on; [skip]
    counts the bytes of the current code point that are still to be passed
    before the next iteration of [range] starts.  At the start of a code
    point the body runs: [if r == 0 { s = s[:i]; break }]. *)
Fixpoint cleanString_range (s rest : string) (i skip : nat) : string :=
  match rest with
  | EmptyString => s
  | String _ tl =>
      match skip with
      | S k => cleanString_range s tl (S i) k
      | O =>
          let '(r, size) := DecodeRuneInString rest in
          if r =? 0 then String.substring 0 i s
          else cleanString_range s tl (S i) (size - 1)
      end
  end.

(** [cleanString] *)
Definition cleanString (s : string) : string := cleanString_range s s 0 0.

(** The specification of [cleanString]: the bytes before the first NUL. *)
Fixpoint truncateAtNUL (s : string) : string :=
  match s with
  | EmptyString => EmptyString
  | String c t => if char_val c =? 0 then EmptyString
                  else String c (truncateAtNUL t)
  end.

Fixpoint hasNUL (s : string) : bool :=
  match s with
  | EmptyString => false
  | String c t => (char_val c =? 0) || hasNUL t
  end.

(** No NUL among the first [n] bytes of [s]. *)
Fixpoint prefixNoNUL (n : nat) (s : string) : bool :=
  match n, s with
  | O, _ => true
  | S _, EmptyString => true
  | S k, String c t => negb (char_val c =? 0) && prefixNoNUL k t
  end.

(** ** Constants *)

Definition MQCFT_INTEGER : Z := 0x00000003.
Definition MQCFT_STRING : Z := 0x00000004.
Definition MQCFT_BYTE_STRING : Z := 0x00000009.

Definition MQCMD_STATISTICS_MQI : Z := 0x00000070.
Definition MQCMD_STATISTICS_Q : Z := 0x00000071.
Definition MQCMD_STATISTICS_CHANNEL : Z := 0x00000072.
Definition MQCMD_ACCOUNTING_MQI : Z := 0x0000008A.
Definition MQCMD_ACCOUNTING_Q : Z := 0x0000008B.

Definition MQCA_Q_NAME : Z := 2016.
Definition MQCA_Q_MGR_NAME : Z := 2002.
Definition MQCA_CHANNEL_NAME : Z := 3501.
Definition MQCA_CONNECTION_NAME : Z := 3502.
Definition MQCA_APPL_NAME : Z := 2024.
Definition MQIA_CURRENT_Q_DEPTH : Z := 3.
Definition MQIA_OPEN_INPUT_COUNT : Z := 65.
Definition MQIA_OPEN_OUTPUT_COUNT : Z := 66.
Definition MQIA_HIGH_Q_DEPTH : Z := 36.
Definition MQIA_MSG_DEQ_COUNT : Z := 38.
Definition MQIA_MSG_ENQ_COUNT : Z := 37.
Definition MQIACH_MSGS : Z := 1501.
Definition MQIACH_BYTES : Z := 1502.
Definition MQIACH_BATCHES : Z := 1503.
Definition MQIAMO_OPENS : Z := 3.
Definition MQIAMO_CLOSES : Z := 4.
Definition MQIAMO_PUTS : Z := 17.
Definition MQIAMO_GETS : Z := 18.
Definition MQIAMO_COMMITS : Z := 12.
Definition MQIAMO_BACKOUTS : Z := 13.
Definition MQCACF_COMMAND_TIME : Z := 3603.

(** ** The parameter stream *)

(** The dynamic value of [PCFParameter.Value] ([interface{}]): nil, an
    [int32], a [string] or a [[]byte]. *)
Inductive Value : Type :=
| VNil
| VInt32 (val : Z)
| VString (str : string)
| VBytes (b : list byte).

Record PCFParameter : Type := mkPCFParameter {
  p_Parameter : Z;
  p_Type : Z;
  p_Length : Z;
  p_Value : Value
}.

(** The [switch param.Type] of [parseParameters]. *)
Definition parseValue (data : list byte) (offset ty length : Z)
  : outcome Value :=
  if ty =? MQCFT_INTEGER then
    if 16 <=? length then
      v ← readInt32 data (offset + 12); mret (VInt32 v)
    else mret VNil
  else if ty =? MQCFT_STRING then
    if 12 <? length then
      let strLen := int32_sub length 12 in
      b ← slice data (offset + 12) (offset + 12 + strLen);
      mret (VString (cleanString (String.string_of_list_byte b)))
    else mret VNil
  else if ty =? MQCFT_BYTE_STRING then
    if 12 <? length then
      let dataLen := int32_sub length 12 in
      b ← slice data (offset + 12) (offset + 12 + dataLen);
      mret (VBytes b)
    else mret VNil
  else mret VNil.

(** [if offset%4 != 0 { offset += 4 - (offset % 4) }]; Go's [%] truncates
    towards zero. *)
Definition align4 (offset : Z) : Z :=
  if negb (Z.rem offset 4 =? 0) then offset + (4 - Z.rem offset 4)
  else offset.

(** What one iteration of the loop of [parseParameters] does at the cursor
    [offset] (with [offset < len(data)]): leave the loop, or append a
    parameter and move the cursor. *)
Inductive iteration : Type :=
| Break
| Next (param : PCFParameter) (offset : Z).

Definition parseBody (data : list byte) (offset : Z) : outcome iteration :=
  if len data <? offset + 12 then mret Break else
  tag ← readInt32 data offset;
  ty ← readInt32 data (offset + 4);
  length ← readInt32 data (offset + 8);
  if (length <? 12) || (65536 <? length) then mret Break else
  if len data <? offset + length then mret Break else
  v ← parseValue data offset ty length;
  mret (Next (mkPCFParameter tag ty length v) (align4 (offset + length))).

(** The loop [for offset < len(data) { ... }], with a budget of
    iterations. *)
Fixpoint parseLoop (fuel : nat) (data : list byte) (offset : Z)
    (parameters : list PCFParameter) : outcome (list PCFParameter) :=
  match fuel with
  | O => OutOfFuel
  | S fuel' =>
      if offset <? len data then
        it ← parseBody data offset;
        match it with
        | Break => mret parameters
        | Next param offset' =>
            parseLoop fuel' data offset' (parameters ++ [param])
        end
      else mret parameters
  end.

(** [parseParameters]; every iteration that does not leave the loop moves
    the cursor forward, so [len(data)] iterations (and one more test of the
    loop condition) are a sufficient budget. *)
Definition parseParameters (data : list byte) (count : Z)
  : outcome (list PCFParameter * option error) :=
  parameters ← parseLoop (S (length data)) data 0 [];
  mret (parameters, None).

(** The loop states of [parseParameters data]: the cursor and the parameters
    decoded so far, at each test of the loop condition. *)
Inductive reaches (data : list byte) : Z -> list PCFParameter -> Prop :=
| reaches_start : reaches data 0 []
| reaches_next offset parameters param offset' :
    reaches data offset parameters ->
    offset < len data ->
    parseBody data offset = Done (Next param offset') ->
    reaches data offset' (parameters ++ [param]).

(** The loop, entered at the state [(offset, parameters)], runs to its end
    within some budget and leaves [result]. *)
Definition returns_from (data : list byte) (offset : Z)
    (parameters result : list PCFParameter) : Prop :=
  exists fuel, parseLoop fuel data offset parameters = Done result.

(** The declared length read at the cursor. *)
Definition declaredLength (data : list byte) (offset : Z) : outcome Z :=
  readInt32 data (offset + 8).

Definition declaredType (data : list byte) (offset : Z) : outcome Z :=
  readInt32 data (offset + 4).

Definition declaredTag (data : list byte) (offset : Z) : outcome Z :=
  readInt32 data offset.

(** [L] rounded up to the next multiple of 4. *)
Definition roundUp4 (L : Z) : Z := 4 * ((L + 3) / 4).

(** ** Sub-records and their builders

    Each builder is [for _, param := range parameters] over a record that
    starts with Go's zero values; [param.Value.(int32)] succeeds exactly on
    [VInt32] and [param.Value.(string)] exactly on [VString]. *)

Record QueueStatistics : Type := mkQueueStatistics {
  qs_QueueName : string;
  qs_CurrentDepth : Z;
  qs_HighDepth : Z;
  qs_InputCount : Z;
  qs_OutputCount : Z;
  qs_EnqueueCount : Z;
  qs_DequeueCount : Z;
  qs_HasReaders : bool;
  qs_HasWriters : bool
}.

Definition QueueStatistics_zero : QueueStatistics :=
  mkQueueStatistics EmptyString 0 0 0 0 0 0 false false.

Definition parseQueueStats_body (stats : QueueStatistics)
    (param : PCFParameter) : QueueStatistics :=
  let '(mkQueueStatistics name cur high inp out enq deq rd wr) := stats in
  let tag := p_Parameter param in
  match p_Value param with
  | VInt32 val =>
      if tag =? MQIA_CURRENT_Q_DEPTH then
        mkQueueStatistics name val high inp out enq deq rd wr
      else if tag =? MQIA_HIGH_Q_DEPTH then
        mkQueueStatistics name cur val inp out enq deq rd wr
      else if tag =? MQIA_OPEN_INPUT_COUNT then
        mkQueueStatistics name cur high val out enq deq (0 <? val) wr
      else if tag =? MQIA_OPEN_OUTPUT_COUNT then
        mkQueueStatistics name cur high inp val enq deq rd (0 <? val)
      else if tag =? MQIA_MSG_ENQ_COUNT then
        mkQueueStatistics name cur high inp out val deq rd wr
      else if tag =? MQIA_MSG_DEQ_COUNT then
        mkQueueStatistics name cur high inp out enq val rd wr
      else stats
  | VString str =>
      if tag =? MQCA_Q_NAME then
        mkQueueStatistics str cur high inp out enq deq rd wr
      else stats
  | _ => stats
  end.

(** [parseQueueStats] *)
Definition parseQueueStats (parameters : list PCFParameter)
  : QueueStatistics :=
  fold_left parseQueueStats_body parameters QueueStatistics_zero.

(** The value a parameter gives to the field fed by the integer tag [tag]:
    its own [int32] when it carries one under that tag, else the value the
    field had. *)
Definition int32At (tag : Z) (param : PCFParameter) (dflt : Z) : Z :=
  match p_Value param with
  | VInt32 val => if p_Parameter param =? tag then val else dflt
  | _ => dflt
  end.

(** The value of the last parameter with tag [tag] that carries an [int32],
    and [dflt] (0, the zero value of the field) when there is none. *)
Fixpoint lastInt32 (tag : Z) (parameters : list PCFParameter) (dflt : Z)
  : Z :=
  match parameters with
  | [] => dflt
  | param :: rest => lastInt32 tag rest (int32At tag param dflt)
  end.

Record ChannelStatistics : Type := mkChannelStatistics {
  cs_ChannelName : string;
  cs_ConnectionName : string;
  cs_Messages : Z;
  cs_Bytes : Z;
  cs_Batches : Z
}.

Definition parseChannelStats_body (stats : ChannelStatistics)
    (param : PCFParameter) : ChannelStatistics :=
  let '(mkChannelStatistics chl conn msgs bytes batches) := stats in
  let tag := p_Parameter param in
  match p_Value param with
  | VInt32 val =>
      if tag =? MQIACH_MSGS then
        mkChannelStatistics chl conn val bytes batches
      else if tag =? MQIACH_BYTES then
        mkChannelStatistics chl conn msgs val batches
      else if tag =? MQIACH_BATCHES then
        mkChannelStatistics chl conn msgs bytes val
      else stats
  | VString str =>
      if tag =? MQCA_CHANNEL_NAME then
        mkChannelStatistics str conn msgs bytes batches
      else if tag =? MQCA_CONNECTION_NAME then
        mkChannelStatistics chl str msgs bytes batches
      else stats
  | _ => stats
  end.

(** [parseChannelStats] *)
Definition parseChannelStats (parameters : list PCFParameter)
  : ChannelStatistics :=
  fold_left parseChannelStats_body parameters
    (mkChannelStatistics EmptyString EmptyString 0 0 0).

Record MQIStatistics : Type := mkMQIStatistics {
  ms_ApplicationName : string;
  ms_Opens : Z;
  ms_Closes : Z;
  ms_Puts : Z;
  ms_Gets : Z;
  ms_Commits : Z;
  ms_Backouts : Z
}.

Definition parseMQIStats_body (stats : MQIStatistics)
    (param : PCFParameter) : MQIStatistics :=
  let '(mkMQIStatistics app opens closes puts gets commits backouts) :=
    stats in
  let tag := p_Parameter param in
  match p_Value param with
  | VInt32 val =>
      if tag =? MQIAMO_OPENS then
        mkMQIStatistics app val closes puts gets commits backouts
      else if tag =? MQIAMO_CLOSES then
        mkMQIStatistics app opens val puts gets commits backouts
      else if tag =? MQIAMO_PUTS then
        mkMQIStatistics app opens closes val gets commits backouts
      else if tag =? MQIAMO_GETS then
        mkMQIStatistics app opens closes puts val commits backouts
      else if tag =? MQIAMO_COMMITS then
        mkMQIStatistics app opens closes puts gets val backouts
      else if tag =? MQIAMO_BACKOUTS then
        mkMQIStatistics app opens closes puts gets commits val
      else stats
  | VString str =>
      if tag =? MQCA_APPL_NAME then
        mkMQIStatistics str opens closes puts gets commits backouts
      else stats
  | _ => stats
  end.

(** [parseMQIStats] *)
Definition parseMQIStats (parameters : list PCFParameter) : MQIStatistics :=
  fold_left parseMQIStats_body parameters
    (mkMQIStatistics EmptyString 0 0 0 0 0 0).

Record OperationCounts : Type := mkOperationCounts {
  oc_Gets : Z;
  oc_Puts : Z;
  oc_Browses : Z;
  oc_Opens : Z;
  oc_Closes : Z;
  oc_Commits : Z;
  oc_Backouts : Z
}.

Definition parseOperationCounts_body (ops : OperationCounts)
    (param : PCFParameter) : OperationCounts :=
  let '(mkOperationCounts gets puts browses opens closes commits backouts) :=
    ops in
  let tag := p_Parameter param in
  match p_Value param with
  | VInt32 val =>
      if tag =? MQIAMO_GETS then
        mkOperationCounts val puts browses opens closes commits backouts
      else if tag =? MQIAMO_PUTS then
        mkOperationCounts gets val browses opens closes commits backouts
      else if tag =? MQIAMO_OPENS then
        mkOperationCounts gets puts browses val closes commits backouts
      else if tag =? MQIAMO_CLOSES then
        mkOperationCounts gets puts browses opens val commits backouts
      else if tag =? MQIAMO_COMMITS then
        mkOperationCounts gets puts browses opens closes val backouts
      else if tag =? MQIAMO_BACKOUTS then
        mkOperationCounts gets puts browses opens closes commits val
      else ops
  | _ => ops
  end.

(** [parseOperationCounts] *)
Definition parseOperationCounts (parameters : list PCFParameter)
  : OperationCounts :=
  fold_left parseOperationCounts_body parameters
    (mkOperationCounts 0 0 0 0 0 0 0).

(** [convertParameters]: the map from ["param_%d"] keys to values; a later
    parameter with the same tag overwrites an earlier one. *)
Definition paramKey (tag : Z) : string := "param_" +:+ pretty tag.

Definition convertParameters (parameters : list PCFParameter)
  : gmap string Value :=
  fold_left (fun result param =>
               <[paramKey (p_Parameter param) := p_Value param]> result)
            parameters ∅.

(** ** Top-level records and [ParseMessage]

    The clock and the library function [time.Parse] are outside the
    repository: [time_Now] is the reading of [time.Now()] taken by the call,
    [time_zero] is [time.Time{}], and [time_Parse layout value] is [Some t]
    when [time.Parse] succeeds with [t]. *)

Section Parser.

Variable Time : Type.
Variable time_zero : Time.
Variable time_Now : Time.
Variable time_Parse : string -> string -> option Time.

Record ConnectionInfo : Type := mkConnectionInfo {
  ci_ChannelName : string;
  ci_ConnectionName : string;
  ci_ApplicationName : string;
  ci_ConnectTime : Time;
  ci_DisconnectTime : Time
}.

Definition parseConnectionInfo_body (info : ConnectionInfo)
    (param : PCFParameter) : ConnectionInfo :=
  let '(mkConnectionInfo chl conn app t1 t2) := info in
  let tag := p_Parameter param in
  match p_Value param with
  | VString str =>
      if tag =? MQCA_CHANNEL_NAME then mkConnectionInfo str conn app t1 t2
      else if tag =? MQCA_CONNECTION_NAME then
        mkConnectionInfo chl str app t1 t2
      else if tag =? MQCA_APPL_NAME then mkConnectionInfo chl conn str t1 t2
      else info
  | _ => info
  end.

(** [parseConnectionInfo] *)
Definition parseConnectionInfo (parameters : list PCFParameter)
  : ConnectionInfo :=
  fold_left parseConnectionInfo_body parameters
    (mkConnectionInfo EmptyString EmptyString EmptyString time_zero time_zero).

Definition formats : list string :=
  ["2006-01-02 15:04:05.000"; "2006-01-02 15:04:05"; "20060102150405";
   "2006-01-02T15:04:05Z"; "2006-01-02T15:04:05.000Z"].

Fixpoint parseMQTimestamp_range (fs : list string) (timestamp : string)
  : Time * option error :=
  match fs with
  | [] =>
      (time_zero, Some (Errorf ("unable to parse timestamp: " +:+ timestamp)))
  | format :: fs' =>
      match time_Parse format timestamp with
      | Some t => (t, None)
      | None => parseMQTimestamp_range fs' timestamp
      end
  end.

(** [parseMQTimestamp] *)
Definition parseMQTimestamp (timestamp : string) : Time * option error :=
  parseMQTimestamp_range formats timestamp.

Record StatisticsData : Type := mkStatisticsData {
  sd_Type : string;
  sd_QueueManager : string;
  sd_Timestamp : Time;
  sd_Parameters : gmap string Value;
  sd_QueueStats : option QueueStatistics;
  sd_ChannelStats : option ChannelStatistics;
  sd_MQIStats : option MQIStatistics
}.

Record AccountingData : Type := mkAccountingData {
  ad_Type : string;
  ad_QueueManager : string;
  ad_Timestamp : Time;
  ad_Parameters : gmap string Value;
  ad_ConnectionInfo : option ConnectionInfo;
  ad_Operations : option OperationCounts
}.

(** The loop "extract common fields" of [parseStatistics] and
    [parseAccounting], on the two fields it assigns. *)
Definition commonFields_body (acc : string * Time) (param : PCFParameter)
  : string * Time :=
  let '(qmgr, ts) := acc in
  let tag := p_Parameter param in
  if tag =? MQCA_Q_MGR_NAME then
    match p_Value param with
    | VString str => (str, ts)
    | _ => acc
    end
  else if tag =? MQCACF_COMMAND_TIME then
    match p_Value param with
    | VString str =>
        match parseMQTimestamp str with
        | (t, None) => (qmgr, t)
        | (_, Some _) => acc
        end
    | _ => acc
    end
  else acc.

(** [parseStatistics] *)
Definition parseStatistics (header : PCFHeader)
    (parameters : list PCFParameter) : StatisticsData * option error :=
  let '(qmgr, ts) :=
    fold_left commonFields_body parameters (EmptyString, time_Now) in
  let stats :=
    mkStatisticsData "statistics" qmgr ts (convertParameters parameters)
      None None None in
  let stats :=
    if h_Command header =? MQCMD_STATISTICS_Q then
      mkStatisticsData (sd_Type stats) (sd_QueueManager stats)
        (sd_Timestamp stats) (sd_Parameters stats)
        (Some (parseQueueStats parameters)) None None
    else if h_Command header =? MQCMD_STATISTICS_CHANNEL then
      mkStatisticsData (sd_Type stats) (sd_QueueManager stats)
        (sd_Timestamp stats) (sd_Parameters stats)
        None (Some (parseChannelStats parameters)) None
    else if h_Command header =? MQCMD_STATISTICS_MQI then
      mkStatisticsData (sd_Type stats) (sd_QueueManager stats)
        (sd_Timestamp stats) (sd_Parameters stats)
        None None (Some (parseMQIStats parameters))
    else stats in
  (stats, None).

(** [parseAccounting] *)
Definition parseAccounting (header : PCFHeader)
    (parameters : list PCFParameter) : AccountingData * option error :=
  let '(qmgr, ts) :=
    fold_left commonFields_body parameters (EmptyString, time_Now) in
  (mkAccountingData "accounting" qmgr ts (convertParameters parameters)
     (Some (parseConnectionInfo parameters))
     (Some (parseOperationCounts parameters)),
   None).

(** The dynamic value of the [interface{}] that [ParseMessage] returns:
    nil, a [*StatisticsData] or an [*AccountingData] (both builders return
    the address of a fresh record, which is never a nil pointer). *)
Inductive Message : Type :=
| MNil
| MStatistics (stats : StatisticsData)
| MAccounting (acct : AccountingData).

(** [ParseMessage] *)
Definition ParseMessage (data : list byte) (msgType : string)
  : outcome (Message * option error) :=
  if len data <? 36 then
    mret (MNil, Some (Errorf "message too short to be a valid PCF message"))
  else
    '(hdr, err) ← parseHeader data;
    match err with
    | Some e => mret (MNil, Some (Wrapf "failed to parse PCF header" e))
    | None =>
        match hdr with
        | None => Panic
        | Some header =>
            rest ← slice data 36 (len data);
            '(parameters, err) ←
              parseParameters rest (h_ParameterCount header);
            match err with
            | Some e =>
                mret (MNil, Some (Wrapf "failed to parse PCF parameters" e))
            | None =>
                let command := h_Command header in
                if (command =? MQCMD_STATISTICS_Q)
                   || (command =? MQCMD_STATISTICS_CHANNEL)
                   || (command =? MQCMD_STATISTICS_MQI) then
                  let '(stats, e) := parseStatistics header parameters in
                  mret (MStatistics stats, e)
                else if (command =? MQCMD_ACCOUNTING_Q)
                        || (command =? MQCMD_ACCOUNTING_MQI) then
                  let '(acct, e) := parseAccounting header parameters in
                  mret (MAccounting acct, e)
                else
                  mret (MStatistics
                          (mkStatisticsData msgType EmptyString time_Now
                             (convertParameters parameters) None None None),
                        None)
            end
        end
    end.

End Parser.

Arguments MNil {Time}.
Arguments MStatistics {Time} stats.
Arguments MAccounting {Time} acct.

(** The command codes that [ParseMessage] dispatches on. *)
Definition knownCommand (command : Z) : bool :=
  (command =? MQCMD_STATISTICS_Q) || (command =? MQCMD_STATISTICS_CHANNEL)
  || (command =? MQCMD_STATISTICS_MQI) || (command =? MQCMD_ACCOUNTING_Q)
  || (command =? MQCMD_ACCOUNTING_MQI).

(** ** Buffers of the test suite

    [createTestPCFParameter] of the parser tests, and the integer parameter
    the tests assemble by hand (tag, [MQCFT_INTEGER], length 16, value). *)

Definition createTestPCFParameter (param paramType : Z) (value : string)
  : list byte :=
  let strLen := Z.of_nat (String.length value) in
  let paramLen := align4 (12 + strLen) in
  PutUint32 (uint32_of_int32 param) ++
  PutUint32 (uint32_of_int32 paramType) ++
  PutUint32 (paramLen mod 2 ^ 32) ++
  String.list_byte_of_string value ++
  replicate (Z.to_nat (paramLen - 12 - strLen)) x00.

Definition testIntegerParameter (param value : Z) : list byte :=
  PutUint32 (uint32_of_int32 param) ++
  PutUint32 (uint32_of_int32 MQCFT_INTEGER) ++
  PutUint32 16 ++
  PutUint32 (uint32_of_int32 value).

(** A parameter sub-header alone: tag, type and declared length. *)
Definition testSubHeader (param paramType length : Z) : list byte :=
  PutUint32 (uint32_of_int32 param) ++
  PutUint32 (uint32_of_int32 paramType) ++
  PutUint32 (uint32_of_int32 length).

(** [createTestPCFHeader], [createCompleteStatsMessage] and
    [createCompleteAccountingMessage] of the parser tests. *)

Definition MQCFT_STATISTICS : Z := 0x00000014.
Definition MQCFT_ACCOUNTING : Z := 0x00000015.

Definition createTestPCFHeader (msgType command paramCount : Z)
  : list byte :=
  encodeHeader (mkPCFHeader msgType 36 1 command 1 0 0 0 paramCount).

Definition createCompleteStatsMessage : list byte :=
  createTestPCFHeader MQCFT_STATISTICS MQCMD_STATISTICS_Q 3
  ++ createTestPCFParameter MQCA_Q_NAME MQCFT_STRING "TEST.QUEUE"
  ++ testIntegerParameter MQIA_CURRENT_Q_DEPTH 100
  ++ createTestPCFParameter MQCA_Q_MGR_NAME MQCFT_STRING "TESTQM".

Definition createCompleteAccountingMessage : list byte :=
  createTestPCFHeader MQCFT_ACCOUNTING MQCMD_ACCOUNTING_Q 2
  ++ createTestPCFParameter MQCA_APPL_NAME MQCFT_STRING "TestApp"
  ++ createTestPCFParameter MQCA_Q_MGR_NAME MQCFT_STRING "TESTQM".

(** The header fixture of the second copy of the parser tests, which
    writes the fields with [binary.BigEndian.PutUint32]. *)

Definition PutUint32BE (v : Z) : list byte :=
  [byte_of (Z.shiftr v 24); byte_of (Z.shiftr v 16); byte_of (Z.shiftr v 8);
   byte_of v].

Definition createTestPCFHeaderBE (msgType command paramCount : Z)
  : list byte :=
  PutUint32BE (uint32_of_int32 msgType) ++
  PutUint32BE 36 ++
  PutUint32BE 1 ++
  PutUint32BE (uint32_of_int32 command) ++
  PutUint32BE 1 ++
  PutUint32BE 0 ++
  PutUint32BE 0 ++
  PutUint32BE 0 ++
  PutUint32BE (uint32_of_int32 paramCount).

(** [bits.ReverseBytes32]: the four bytes of a [uint32] in the opposite
    order. *)
Definition ReverseBytes32 (u : Z) : Z :=
  Z.lor (Z.lor (Z.lor (Z.shiftr u 24 mod 256)
                      (Z.shiftl (Z.shiftr u 16 mod 256) 8))
               (Z.shiftl (Z.shiftr u 8 mod 256) 16))
        (Z.shiftl (u mod 256) 24).

(** ** Reading a parameter list the way the builders do *)

(** The value a parameter gives to the field fed by the text tag [tag]. *)
Definition stringAt (tag : Z) (param : PCFParameter) (dflt : string)
  : string :=
  match p_Value param with
  | VString str => if p_Parameter param =? tag then str else dflt
  | _ => dflt
  end.

(** The text of the last parameter with tag [tag] that carries a string. *)
Fixpoint lastString (tag : Z) (parameters : list PCFParameter)
    (dflt : string) : string :=
  match parameters with
  | [] => dflt
  | param :: rest => lastString tag rest (stringAt tag param dflt)
  end.

(** The value, nil included, of the last parameter with tag [tag]. *)
Fixpoint lastValue (tag : Z) (parameters : list PCFParameter)
    (dflt : option Value) : option Value :=
  match parameters with
  | [] => dflt
  | param :: rest =>
      lastValue tag rest
        (if p_Parameter param =? tag then Some (p_Value param) else dflt)
  end.

(** A decoded value agrees with the type tag and the declared length of its
    parameter. *)
Definition valueFits (param : PCFParameter) : Prop :=
  match p_Value param with
  | VNil => True
  | VInt32 val =>
      p_Type param = MQCFT_INTEGER /\ 16 <= p_Length param /\ is_int32 val
  | VString str =>
      p_Type param = MQCFT_STRING /\ 12 < p_Length param /\
      hasNUL str = false /\
      Z.of_nat (String.length str) <= p_Length param - 12
  | VBytes b =>
      p_Type param = MQCFT_BYTE_STRING /\ 12 < p_Length param /\
      len b = p_Length param - 12
  end.

(** The bytes a parameter list occupies, each parameter padded to a multiple
    of 4. *)
Fixpoint extents (parameters : list PCFParameter) : Z :=
  match parameters with
  | [] => 0
  | param :: rest => roundUp4 (p_Length param) + extents rest
  end.

(** ** The command time of a parameter *)

Section CommandTime.

Variable Time : Type.
Variable time_zero : Time.
Variable time_Parse : string -> string -> option Time.

(** The instant a parameter sets the record's timestamp to: the parameter
    has the command-time tag, carries a string, and the string parses. *)
Definition commandTime (param : PCFParameter) : option Time :=
  if p_Parameter param =? MQCACF_COMMAND_TIME then
    match p_Value param with
    | VString str =>
        match parseMQTimestamp Time time_zero time_Parse str with
        | (t, None) => Some t
        | (_, Some _) => None
        end
    | _ => None
    end
  else None.

End CommandTime.

(** ** The OpenTelemetry path of the collector

    The calls made on [c.otelProvider] (which [collectForOTel] guarantees to
    be non-nil) are collected in call order; [int64(x)] of an [int32] keeps
    the value. *)

Inductive OTelCall : Type :=
| RecordQueueMetrics (qmgr queueName : string) (depth enqueue dequeue : Z)
| RecordChannelMetrics (qmgr channelName connectionName : string)
    (messages bytes : Z)
| RecordMQIMetrics (qmgr applicationName operation : string) (value : Z).

Definition callQueueManager (call : OTelCall) : string :=
  match call with
  | RecordQueueMetrics qmgr _ _ _ _ => qmgr
  | RecordChannelMetrics qmgr _ _ _ _ => qmgr
  | RecordMQIMetrics qmgr _ _ _ => qmgr
  end.

Section Collector.

Variable Time : Type.
Variable time_zero : Time.
Variable time_Now : Time.
Variable time_Parse : string -> string -> option Time.

(** [c.config.MQ.QueueManager] *)
Variable configQueueManager : string.

(** [qmgr := x.QueueManager; if qmgr == "" { qmgr = c.config.MQ.QueueManager }] *)
Definition defaultQueueManager (qmgr : string) : string :=
  if decide (qmgr = EmptyString) then configQueueManager else qmgr.

(** [processStatsMessageForOTel], on the bytes of the message. *)
Definition processStatsMessageForOTel (msgData : list byte)
  : outcome (list OTelCall * option error) :=
  '(data, err) ←
    ParseMessage Time time_zero time_Now time_Parse msgData "statistics";
  match err with
  | Some e => mret ([], Some (Wrapf "failed to parse statistics message" e))
  | None =>
      match data with
      | MStatistics stats =>
          let qmgr := defaultQueueManager (sd_QueueManager Time stats) in
          let queueCalls :=
            match sd_QueueStats Time stats with
            | Some queueStats =>
                [RecordQueueMetrics qmgr (qs_QueueName queueStats)
                   (qs_CurrentDepth queueStats) (qs_EnqueueCount queueStats)
                   (qs_DequeueCount queueStats)]
            | None => []
            end in
          let channelCalls :=
            match sd_ChannelStats Time stats with
            | Some channelStats =>
                [RecordChannelMetrics qmgr (cs_ChannelName channelStats)
                   (cs_ConnectionName channelStats)
                   (cs_Messages channelStats) (cs_Bytes channelStats)]
            | None => []
            end in
          let mqiCalls :=
            match sd_MQIStats Time stats with
            | Some mqiStats =>
                let app := ms_ApplicationName mqiStats in
                [RecordMQIMetrics qmgr app "opens" (ms_Opens mqiStats);
                 RecordMQIMetrics qmgr app "closes" (ms_Closes mqiStats);
                 RecordMQIMetrics qmgr app "puts" (ms_Puts mqiStats);
                 RecordMQIMetrics qmgr app "gets" (ms_Gets mqiStats);
                 RecordMQIMetrics qmgr app "commits" (ms_Commits mqiStats);
                 RecordMQIMetrics qmgr app "backouts" (ms_Backouts mqiStats)]
            | None => []
            end in
          mret (queueCalls ++ channelCalls ++ mqiCalls, None)
      | _ => mret ([], Some (Errorf "invalid statistics data type"))
      end
  end.

(** [processAccountingMessageForOTel], on the bytes of the message. *)
Definition processAccountingMessageForOTel (msgData : list byte)
  : outcome (list OTelCall * option error) :=
  '(data, err) ←
    ParseMessage Time time_zero time_Now time_Parse msgData "accounting";
  match err with
  | Some e => mret ([], Some (Wrapf "failed to parse accounting message" e))
  | None =>
      match data with
      | MAccounting acct =>
          let qmgr := defaultQueueManager (ad_QueueManager Time acct) in
          let calls :=
            match ad_Operations Time acct with
            | Some ops =>
                let appName :=
                  match ad_ConnectionInfo Time acct with
                  | Some info => ci_ApplicationName Time info
                  | None => EmptyString
                  end in
                [RecordMQIMetrics qmgr appName "opens" (oc_Opens ops);
                 RecordMQIMetrics qmgr appName "closes" (oc_Closes ops);
                 RecordMQIMetrics qmgr appName "puts" (oc_Puts ops);
                 RecordMQIMetrics qmgr appName "gets" (oc_Gets ops);
                 RecordMQIMetrics qmgr appName "commits" (oc_Commits ops);
                 RecordMQIMetrics qmgr appName "backouts" (oc_Backouts ops)]
            | None => []
            end in
          mret (calls, None)
      | _ => mret ([], Some (Errorf "invalid accounting data type"))
      end
  end.

End Collector.

(** ** The Prometheus path of the collector

    The updates made on the gauge vectors of [MetricsCollector], in call
    order.  The values are [float64(x)] of an [int32] (or of the [int64] that
    widens one), which is exact, so they are kept as integers. *)

Inductive Gauge : Type :=
| queueDepthGauge
| queueHighDepthGauge
| queueEnqueueGauge
| queueDequeueGauge
| queueInputCountGauge
| queueOutputCountGauge
| queueReadersGauge
| queueWritersGauge
| channelMessagesGauge
| channelBytesGauge
| channelBatchesGauge
| mqiOpensGauge
| mqiClosesGauge
| mqiPutsGauge
| mqiGetsGauge
| mqiCommitsGauge
| mqiBackoutsGauge.

(** The label names each vector is created with in [initMetrics]. *)
Definition variableLabels (g : Gauge) : list string :=
  match g with
  | queueDepthGauge | queueHighDepthGauge | queueEnqueueGauge
  | queueDequeueGauge | queueInputCountGauge | queueOutputCountGauge
  | queueReadersGauge | queueWritersGauge =>
      ["queue_manager"; "queue_name"]
  | channelMessagesGauge | channelBytesGauge | channelBatchesGauge =>
      ["queue_manager"; "channel_name"; "connection_name"]
  | mqiOpensGauge | mqiClosesGauge | mqiPutsGauge | mqiGetsGauge
  | mqiCommitsGauge | mqiBackoutsGauge =>
      ["queue_manager"; "application_name"]
  end.

(** [utf8.ValidString]: [rest] is the string from the current byte on and
    [skip] counts the bytes of the current code point still to be passed.
    A string is valid when no position decodes to [RuneError] of width 1
    (the three bytes that encode U+FFFD itself are valid). *)
Fixpoint ValidString_range (rest : string) (skip : nat) : bool :=
  match rest with
  | EmptyString => true
  | String _ tl =>
      match skip with
      | S k => ValidString_range tl k
      | O =>
          let '(r, size) := DecodeRuneInString rest in
          if (r =? RuneError) && (size =? 1)%nat then false
          else ValidString_range tl (size - 1)
      end
  end.

Definition ValidString (s : string) : bool := ValidString_range s 0.

(** The check of [GetMetricWithLabelValues] ([validateLabelValues] of the
    client library): as many values as the vector has label names, each of
    them valid UTF-8. *)
Definition validateLabelValues (g : Gauge) (labels : list string) : bool :=
  (length labels =? length (variableLabels g))%nat
  && forallb ValidString labels.

(** An update that was made: [.Set(v)] or [.Add(v)] on the gauge that
    [g.WithLabelValues(labels...)] returned. *)
Inductive GaugeOp : Type :=
| GaugeSet (g : Gauge) (labels : list string) (value : Z)
| GaugeAdd (g : Gauge) (labels : list string) (value : Z).

(** A run of a function that updates gauges: the updates made, in call
    order, and how the run ended: [Done tt] when it returned, [Panic] when a
    [WithLabelValues] panicked; the updates made before a panic stay. *)
Definition run : Type := list GaugeOp * outcome unit.

Definition returned : run := ([], Done tt).

(** [g.WithLabelValues(labels...).Set(value)]: [WithLabelValues] panics when
    [GetMetricWithLabelValues] returns an error. *)
Definition gaugeSet (g : Gauge) (labels : list string) (value : Z) : run :=
  if validateLabelValues g labels then ([GaugeSet g labels value], Done tt)
  else ([], Panic).

(** [g.WithLabelValues(labels...).Add(value)] *)
Definition gaugeAdd (g : Gauge) (labels : list string) (value : Z) : run :=
  if validateLabelValues g labels then ([GaugeAdd g labels value], Done tt)
  else ([], Panic).

(** One statement after another: the second runs when the first returned. *)
Definition andThen (r1 r2 : run) : run :=
  match r1 with
  | (ops, Done _) => (ops ++ r2.1, r2.2)
  | _ => r1
  end.

Definition statements (steps : list run) : run :=
  fold_right andThen returned steps.

Section Prometheus.

Variable Time : Type.
Variable time_zero : Time.
Variable time_Now : Time.
Variable time_Parse : string -> string -> option Time.

(** [c.config.MQ.QueueManager] *)
Variable configQueueManager : string.

(** [processStatisticsMessage], on the bytes of the message; the two error
    paths log and return. *)
Definition processStatisticsMessage (msgData : list byte) : run :=
  match ParseMessage Time time_zero time_Now time_Parse msgData
          "statistics" with
  | Done (data, err) =>
      match err with
      | Some _ => returned
      | None =>
          match data with
          | MStatistics stats =>
              let qmgr :=
                defaultQueueManager configQueueManager
                  (sd_QueueManager Time stats) in
              statements
                [match sd_QueueStats Time stats with
                 | Some queueStats =>
                     let labels := [qmgr; qs_QueueName queueStats] in
                     statements
                       [gaugeSet queueDepthGauge labels
                          (qs_CurrentDepth queueStats);
                        gaugeSet queueHighDepthGauge labels
                          (qs_HighDepth queueStats);
                        gaugeSet queueEnqueueGauge labels
                          (qs_EnqueueCount queueStats);
                        gaugeSet queueDequeueGauge labels
                          (qs_DequeueCount queueStats);
                        gaugeSet queueInputCountGauge labels
                          (qs_InputCount queueStats);
                        gaugeSet queueOutputCountGauge labels
                          (qs_OutputCount queueStats);
                        (if qs_HasReaders queueStats
                         then gaugeSet queueReadersGauge labels 1
                         else gaugeSet queueReadersGauge labels 0);
                        (if qs_HasWriters queueStats
                         then gaugeSet queueWritersGauge labels 1
                         else gaugeSet queueWritersGauge labels 0)]
                 | None => returned
                 end;
                 match sd_ChannelStats Time stats with
                 | Some channelStats =>
                     let labels := [qmgr; cs_ChannelName channelStats;
                                    cs_ConnectionName channelStats] in
                     statements
                       [gaugeSet channelMessagesGauge labels
                          (cs_Messages channelStats);
                        gaugeSet channelBytesGauge labels
                          (cs_Bytes channelStats);
                        gaugeSet channelBatchesGauge labels
                          (cs_Batches channelStats)]
                 | None => returned
                 end;
                 match sd_MQIStats Time stats with
                 | Some mqiStats =>
                     let labels := [qmgr; ms_ApplicationName mqiStats] in
                     statements
                       [gaugeSet mqiOpensGauge labels (ms_Opens mqiStats);
                        gaugeSet mqiClosesGauge labels (ms_Closes mqiStats);
                        gaugeSet mqiPutsGauge labels (ms_Puts mqiStats);
                        gaugeSet mqiGetsGauge labels (ms_Gets mqiStats);
                        gaugeSet mqiCommitsGauge labels
                          (ms_Commits mqiStats);
                        gaugeSet mqiBackoutsGauge labels
                          (ms_Backouts mqiStats)]
                 | None => returned
                 end]
          | _ => returned
          end
      end
  | Panic => ([], Panic)
  | OutOfFuel => ([], OutOfFuel)
  end.

(** [processAccountingMessage], on the bytes of the message. *)
Definition processAccountingMessage (msgData : list byte) : run :=
  match ParseMessage Time time_zero time_Now time_Parse msgData
          "accounting" with
  | Done (data, err) =>
      match err with
      | Some _ => returned
      | None =>
          match data with
          | MAccounting acct =>
              let qmgr :=
                defaultQueueManager configQueueManager
                  (ad_QueueManager Time acct) in
              match ad_Operations Time acct with
              | Some ops =>
                  let appName :=
                    match ad_ConnectionInfo Time acct with
                    | Some info => ci_ApplicationName Time info
                    | None => EmptyString
                    end in
                  let labels := [qmgr; appName] in
                  statements
                    [gaugeAdd mqiOpensGauge labels (oc_Opens ops);
                     gaugeAdd mqiClosesGauge labels (oc_Closes ops);
                     gaugeAdd mqiPutsGauge labels (oc_Puts ops);
                     gaugeAdd mqiGetsGauge labels (oc_Gets ops);
                     gaugeAdd mqiCommitsGauge labels (oc_Commits ops);
                     gaugeAdd mqiBackoutsGauge labels (oc_Backouts ops)]
              | None => returned
              end
          | _ => returned
          end
      end
  | Panic => ([], Panic)
  | OutOfFuel => ([], OutOfFuel)
  end.

End Prometheus.

(** * Properties *)

(** ** Bytes and 32-bit words *)

Lemma byte_val_range (b : byte) : 0 <= byte_val b < 256.
Proof.
  unfold byte_val. pose proof (Byte.to_N_bounded b) as Hb.
  split; [apply N2Z.is_nonneg | lia].
Qed.

Lemma byte_val_of (z : Z) : byte_val (byte_of z) = z mod 256.
Proof.
  unfold byte_val, byte_of.
  pose proof (Z.mod_pos_bound z 256 eq_refl) as Hz.
  destruct (Byte.of_N (Z.to_N (z mod 256))) as [b|] eqn:E.
  - apply Byte.to_of_N in E. rewrite E. lia.
  - apply Byte.of_N_None_iff in E. lia.
Qed.

Lemma testbit_byte (x n : Z) :
  Z.testbit (x mod 256) n = (n <? 8) && Z.testbit x n.
Proof.
  change 256 with (2 ^ 8).
  destruct (Z.ltb_spec n 8) as [Hlt|Hge]; simpl.
  - destruct (Z.ltb_spec n 0) as [Hneg|Hpos].
    + rewrite !Z.testbit_neg_r by lia. reflexivity.
    + apply Z.mod_pow2_bits_low. lia.
  - apply Z.mod_pow2_bits_high. lia.
Qed.

Lemma testbit_shifted_byte (v k n : Z) :
  0 <= k ->
  Z.testbit (Z.shiftl (Z.shiftr v k mod 256) k) n
  = (k <=? n) && (n <? k + 8) && Z.testbit v n.
Proof.
  intros Hk.
  destruct (Z.leb_spec k n) as [Hle|Hlt]; simpl.
  - rewrite Z.shiftl_spec, testbit_byte, Z.shiftr_spec by lia.
    replace (n - k + k) with n by lia.
    destruct (Z.ltb_spec (n - k) 8), (Z.ltb_spec n (k + 8)); try lia;
      reflexivity.
  - destruct (Z.ltb_spec n 0).
    + apply Z.testbit_neg_r. lia.
    + rewrite Z.shiftl_spec by lia. apply Z.testbit_neg_r. lia.
Qed.

Lemma lor_of_bytes (v : Z) :
  0 <= v < 2 ^ 32 ->
  Z.lor (Z.lor (Z.lor (v mod 256) (Z.shiftl (Z.shiftr v 8 mod 256) 8))
               (Z.shiftl (Z.shiftr v 16 mod 256) 16))
        (Z.shiftl (Z.shiftr v 24 mod 256) 24) = v.
Proof.
  intros Hv. apply Z.bits_inj'. intros n Hn.
  rewrite !Z.lor_spec, !testbit_shifted_byte, testbit_byte by lia.
  destruct (Z.ltb_spec n 32) as [H32|H32].
  - destruct (Z.ltb_spec n 8), (Z.leb_spec 8 n), (Z.ltb_spec n (8 + 8)),
      (Z.leb_spec 16 n), (Z.ltb_spec n (16 + 8)), (Z.leb_spec 24 n),
      (Z.ltb_spec n (24 + 8)); try lia; simpl;
      rewrite ?orb_false_r; reflexivity.
  - assert (Z.testbit v n = false) as ->.
    { rewrite <- (Z.mod_small v (2 ^ 32)) by lia.
      apply Z.mod_pow2_bits_high. lia. }
    rewrite !andb_false_r. reflexivity.
Qed.

Lemma Uint32_PutUint32 (v : Z) (rest : list byte) :
  0 <= v < 2 ^ 32 -> Uint32 (PutUint32 v ++ rest) = Done v.
Proof.
  intros Hv. unfold PutUint32. simpl. rewrite !byte_val_of.
  f_equal. apply lor_of_bytes. exact Hv.
Qed.

Lemma int32_of_uint32_of_int32 (x : Z) :
  is_int32 x -> int32_of_uint32 (uint32_of_int32 x) = x.
Proof.
  unfold is_int32, int32_of_uint32, uint32_of_int32. intros Hx.
  destruct (Z.ltb_spec x 0) as [Hneg|Hpos].
  - assert (x mod 2 ^ 32 = x + 2 ^ 32) as ->.
    { symmetry. apply (Z.mod_unique _ _ (-1)); lia. }
    destruct (Z.ltb_spec (x + 2 ^ 32) (2 ^ 31)); lia.
  - rewrite Z.mod_small by lia.
    destruct (Z.ltb_spec x (2 ^ 31)); lia.
Qed.

Lemma uint32_of_int32_range (x : Z) : 0 <= uint32_of_int32 x < 2 ^ 32.
Proof. apply Z.mod_pos_bound. reflexivity. Qed.

Lemma len_nonneg {A} (l : list A) : 0 <= len l.
Proof. unfold len. lia. Qed.

Lemma len_app {A} (l1 l2 : list A) : len (l1 ++ l2) = len l1 + len l2.
Proof. unfold len. rewrite length_app. lia. Qed.

Lemma slice_Done (data : list byte) (lo hi : Z) :
  0 <= lo -> lo <= hi -> hi <= len data ->
  slice data lo hi
  = Done (take (Z.to_nat (hi - lo)) (drop (Z.to_nat lo) data)).
Proof.
  intros H1 H2 H3. unfold slice.
  destruct (Z.leb_spec 0 lo), (Z.leb_spec lo hi), (Z.leb_spec hi (len data));
    try lia; reflexivity.
Qed.

Lemma slice_length (data b : list byte) (lo hi : Z) :
  slice data lo hi = Done b -> len b = hi - lo.
Proof.
  unfold slice.
  destruct (Z.leb_spec 0 lo), (Z.leb_spec lo hi), (Z.leb_spec hi (len data));
    simpl; try discriminate.
  intros [= <-]. unfold len in *.
  rewrite length_take, length_drop. lia.
Qed.

Lemma Uint32_range (b : list byte) (u : Z) :
  Uint32 b = Done u -> 0 <= u < 2 ^ 32.
Proof.
  destruct b as [|b0 [|b1 [|b2 [|b3 rest]]]]; try discriminate.
  intros [= <-].
  pose proof (byte_val_range b0). pose proof (byte_val_range b1).
  pose proof (byte_val_range b2). pose proof (byte_val_range b3).
  assert (forall x k, 0 <= x < 256 -> 0 <= k -> 0 <= Z.shiftl x k < 2 ^ (8 + k))
    as Hs.
  { intros x k Hx Hk. rewrite Z.shiftl_mul_pow2 by lia.
    rewrite Z.pow_add_r by lia. change (2 ^ 8) with 256.
    assert (0 < 2 ^ k) by (apply Z.pow_pos_nonneg; lia). nia. }
  pose proof (Hs _ 8 H0 ltac:(lia)). pose proof (Hs _ 16 H1 ltac:(lia)).
  pose proof (Hs _ 24 H2 ltac:(lia)). simpl Z.add in *.
  assert (forall a c n, 0 < n -> 0 <= a < 2 ^ n -> 0 <= c < 2 ^ n ->
                        0 <= Z.lor a c < 2 ^ n) as Hl.
  { intros a c n Hn Ha Hc.
    assert (forall y, 0 <= y < 2 ^ n -> Z.log2 y < n) as Hlog.
    { intros y Hy. destruct (Z.eq_dec y 0) as [->|Hy0]; [simpl; lia|].
      apply Z.log2_lt_pow2; lia. }
    assert (0 <= Z.lor a c) as Hnn by (apply Z.lor_nonneg; lia).
    split; [exact Hnn|].
    destruct (Z.eq_dec (Z.lor a c) 0) as [->|Hne].
    - apply Z.pow_pos_nonneg; lia.
    - apply Z.log2_lt_pow2; [lia|].
      rewrite Z.log2_lor by lia.
      apply Z.max_lub_lt; apply Hlog; assumption. }
  apply (Hl _ _ 32); try lia.
  apply (Hl _ _ 32); try lia.
  apply (Hl _ _ 32); lia.
Qed.

Lemma int32_of_uint32_range (u : Z) :
  0 <= u < 2 ^ 32 -> is_int32 (int32_of_uint32 u).
Proof.
  unfold is_int32, int32_of_uint32. intros Hu.
  destruct (Z.ltb_spec u (2 ^ 31)); lia.
Qed.

Lemma readInt32_Done (data : list byte) (lo : Z) :
  0 <= lo -> lo + 4 <= len data ->
  exists v, readInt32 data lo = Done v /\ is_int32 v.
Proof.
  intros H1 H2. unfold readInt32.
  rewrite slice_Done by lia. simpl.
  replace (lo + 4 - lo) with 4 by lia.
  assert (4 <= length (drop (Z.to_nat lo) data))%nat as Hlen.
  { rewrite length_drop. unfold len in H2. lia. }
  destruct (drop (Z.to_nat lo) data) as [|b0 [|b1 [|b2 [|b3 rest]]]];
    simpl in Hlen; try lia.
  simpl. eexists. split; [reflexivity|].
  apply int32_of_uint32_range.
  apply (Uint32_range [b0; b1; b2; b3]). reflexivity.
Qed.

Lemma readInt32_PutUint32 (pre post : list byte) (x : Z) :
  is_int32 x ->
  readInt32 (pre ++ PutUint32 (uint32_of_int32 x) ++ post) (len pre)
  = Done x.
Proof.
  intros Hx. unfold readInt32.
  rewrite slice_Done; [| apply len_nonneg | lia |].
  2:{ rewrite !len_app. unfold PutUint32, len. simpl. lia. }
  replace (Z.to_nat (len pre)) with (length pre) by (unfold len; lia).
  rewrite drop_app_length.
  replace (len pre + 4 - len pre) with 4 by lia.
  change (Z.to_nat 4) with 4%nat.
  change (take 4 (PutUint32 (uint32_of_int32 x) ++ post))
    with (PutUint32 (uint32_of_int32 x) ++ []).
  unfold mbind, outcome_bind.
  rewrite Uint32_PutUint32 by apply uint32_of_int32_range.
  unfold mret, outcome_ret. f_equal.
  apply int32_of_uint32_of_int32. exact Hx.
Qed.

Lemma readInt32_at (pre post : list byte) (x k : Z) :
  is_int32 x -> len pre = k ->
  readInt32 (pre ++ PutUint32 (uint32_of_int32 x) ++ post) k = Done x.
Proof. intros Hx <-. apply readInt32_PutUint32. exact Hx. Qed.

(** ** The header decoder *)

Lemma encodeHeader_length (h : PCFHeader) : len (encodeHeader h) = 36.
Proof. reflexivity. Qed.

(** C7. Round trip of the header: the nine fields of a header, written as
    4-byte little-endian words at offsets 0, 4, ..., 32 (whatever follows
    them in the buffer), are read back by [parseHeader] field for field. *)
Theorem parseHeader_encodeHeader (h : PCFHeader) (rest : list byte) :
  wf_header h ->
  parseHeader (encodeHeader h ++ rest) = Done (Some h, None).
Proof.
  intros (H0 & H1 & H2 & H3 & H4 & H5 & H6 & H7 & H8).
  unfold parseHeader.
  assert ((len (encodeHeader h ++ rest) <? 36) = false) as ->.
  { apply Z.ltb_ge. rewrite len_app, encodeHeader_length.
    pose proof (len_nonneg rest). lia. }
  destruct h as [f0 f1 f2 f3 f4 f5 f6 f7 f8]. simpl in H0, H1, H2, H3, H4,
    H5, H6, H7, H8.
  set (P := fun x => PutUint32 (uint32_of_int32 x)).
  set (data := encodeHeader _ ++ rest).
  assert (readInt32 data 0 = Done f0) as ->
    by exact (readInt32_at [] (P f1 ++ P f2 ++ P f3 ++ P f4 ++ P f5 ++ P f6
                ++ P f7 ++ P f8 ++ rest) f0 0 H0 eq_refl).
  assert (readInt32 data 4 = Done f1) as ->
    by exact (readInt32_at (P f0) (P f2 ++ P f3 ++ P f4 ++ P f5 ++ P f6
                ++ P f7 ++ P f8 ++ rest) f1 4 H1 eq_refl).
  assert (readInt32 data 8 = Done f2) as ->
    by exact (readInt32_at (P f0 ++ P f1) (P f3 ++ P f4 ++ P f5 ++ P f6
                ++ P f7 ++ P f8 ++ rest) f2 8 H2 eq_refl).
  assert (readInt32 data 12 = Done f3) as ->
    by exact (readInt32_at (P f0 ++ P f1 ++ P f2) (P f4 ++ P f5 ++ P f6
                ++ P f7 ++ P f8 ++ rest) f3 12 H3 eq_refl).
  assert (readInt32 data 16 = Done f4) as ->
    by exact (readInt32_at (P f0 ++ P f1 ++ P f2 ++ P f3) (P f5 ++ P f6
                ++ P f7 ++ P f8 ++ rest) f4 16 H4 eq_refl).
  assert (readInt32 data 20 = Done f5) as ->
    by exact (readInt32_at (P f0 ++ P f1 ++ P f2 ++ P f3 ++ P f4) (P f6
                ++ P f7 ++ P f8 ++ rest) f5 20 H5 eq_refl).
  assert (readInt32 data 24 = Done f6) as ->
    by exact (readInt32_at (P f0 ++ P f1 ++ P f2 ++ P f3 ++ P f4 ++ P f5)
                (P f7 ++ P f8 ++ rest) f6 24 H6 eq_refl).
  assert (readInt32 data 28 = Done f7) as ->
    by exact (readInt32_at (P f0 ++ P f1 ++ P f2 ++ P f3 ++ P f4 ++ P f5
                ++ P f6) (P f8 ++ rest) f7 28 H7 eq_refl).
  assert (readInt32 data 32 = Done f8) as ->
    by exact (readInt32_at (P f0 ++ P f1 ++ P f2 ++ P f3 ++ P f4 ++ P f5
                ++ P f6 ++ P f7) rest f8 32 H8 eq_refl).
  reflexivity.
Qed.

Lemma parseHeader_encodeHeader_witness :
  let h := mkPCFHeader 20 36 1 MQCMD_STATISTICS_Q (-1) 0 0 (-2147483648)
             2147483647 in
  wf_header h /\ parseHeader (encodeHeader h ++ []) = Done (Some h, None).
Proof.
  intros h.
  assert (wf_header h) as Hwf
    by (unfold h, wf_header, is_int32, MQCMD_STATISTICS_Q; simpl; lia).
  split; [exact Hwf | exact (parseHeader_encodeHeader h [] Hwf)].
Defined.

(** ** [cleanString] *)

Lemma char_val_range (c : ascii) : 0 <= char_val c < 256.
Proof.
  unfold char_val. pose proof (N_ascii_bounded c) as Hc. lia.
Qed.

Lemma land_low_bits (x n : Z) :
  0 <= n -> Z.land x (Z.ones n) = x mod 2 ^ n.
Proof. intros Hn. apply Z.land_ones. exact Hn. Qed.

Lemma lor_nonzero_l (a b : Z) : a <> 0 -> Z.lor a b <> 0.
Proof. intros Ha H. apply Z.lor_eq_0_iff in H. tauto. Qed.

Lemma lor_nonzero_r (a b : Z) : b <> 0 -> Z.lor a b <> 0.
Proof. intros Ha H. apply Z.lor_eq_0_iff in H. tauto. Qed.

Lemma shiftl_nonzero (a n : Z) : 0 <= n -> a <> 0 -> Z.shiftl a n <> 0.
Proof. intros Hn Ha H. apply Z.shiftl_eq_0_iff in H; tauto. Qed.

Lemma land_mask_nonzero (x n lo : Z) :
  0 <= n -> 2 ^ n * lo < x < 2 ^ n * (lo + 1) -> Z.land x (Z.ones n) <> 0.
Proof.
  intros Hn Hx. rewrite Z.land_ones by exact Hn.
  assert (0 < 2 ^ n) by (apply Z.pow_pos_nonneg; lia).
  intros H0. apply Z.mod_divide in H0; [|lia].
  destruct H0 as [q Hq]. remember (2 ^ n) as P.
  assert (lo < q) by nia. assert (q < lo + 1) by nia. lia.
Qed.

Ltac rune_facts :=
  repeat match goal with
  | H : (_ || _) = false |- _ => apply orb_false_elim in H as [? ?]
  | H : negb _ = false |- _ => apply negb_false_iff in H
  | H : continuation _ = true |- _ =>
      unfold continuation in H; apply andb_true_iff in H as [? ?]
  | H : (_ <? _) = false |- _ => apply Z.ltb_ge in H
  | H : (_ <=? _) = true |- _ => apply Z.leb_le in H
  end.

Ltac rune_nonzero :=
  first
    [ apply lor_nonzero_l; rune_nonzero
    | apply lor_nonzero_r; rune_nonzero
    | apply shiftl_nonzero; [lia | rune_nonzero]
    | match goal with
      | |- Z.land ?x 31 <> 0 => apply (land_mask_nonzero x 5 6)
      | |- Z.land ?x 15 <> 0 => apply (land_mask_nonzero x 4 14)
      | |- Z.land ?x 7 <> 0 => apply (land_mask_nonzero x 3 30)
      | |- Z.land ?x 63 <> 0 => apply (land_mask_nonzero x 6 2)
      end; simpl; lia ].

Ltac rune_case :=
  rune_facts;
  split;
  [ first
      [ reflexivity
      | match goal with
        | |- (?r =? 0) = (?x =? 0) =>
            destruct (Z.eqb_spec x 0); [lia|]; apply Z.eqb_neq;
            first [ discriminate | rune_nonzero ]
        end ]
  | split;
    [ lia
    | intros ?; simpl prefixNoNUL;
      repeat match goal with
      | |- context [?x =? 0] => destruct (Z.eqb_spec x 0); [lia|]
      end; reflexivity ] ].

Lemma DecodeRuneInString_NUL (c : ascii) (tl : string) :
  let '(r, size) := DecodeRuneInString (String c tl) in
  (r =? 0) = (char_val c =? 0) /\
  (1 <= size)%nat /\
  (char_val c <> 0 -> prefixNoNUL size (String c tl) = true).
Proof.
  unfold DecodeRuneInString.
  pose proof (char_val_range c) as Hc.
  unfold first.
  repeat match goal with
  | |- context [if char_val c <? ?y then _ else _] =>
      destruct (Z.ltb_spec (char_val c) y)
  | |- context [if char_val c =? ?y then _ else _] =>
      destruct (Z.eqb_spec (char_val c) y)
  end.
  all: cbv iota beta.
  all: repeat match goal with
       | |- context [?a <=? ?b] =>
           let v := eval vm_compute in (a <=? b) in
           change (a <=? b) with v
       end; cbv iota.
  all: try match goal with
       | |- context [if ?b then _ else _] => destruct b eqn:?
       end.
  all: try (destruct tl as [|c1 t1]).
  all: try match goal with
       | |- context [if ?b then _ else _] => destruct b eqn:?
       end.
  all: try (destruct t1 as [|c2 t2]).
  all: try match goal with
       | |- context [if ?b then _ else _] => destruct b eqn:?
       end.
  all: try (destruct t2 as [|c3 t3]).
  all: try match goal with
       | |- context [if ?b then _ else _] => destruct b eqn:?
       end.
  all: rune_case.
Qed.

Lemma append_cons (c : ascii) (s1 s2 : string) :
  String c s1 +:+ s2 = String c (s1 +:+ s2).
Proof. reflexivity. Qed.

Lemma substring_prefix (pre rest : string) :
  String.substring 0 (String.length pre) (pre +:+ rest) = pre.
Proof.
  induction pre as [|c pre IH].
  - destruct rest; reflexivity.
  - rewrite append_cons. cbn [String.length String.substring].
    f_equal. exact IH.
Qed.

Lemma append_snoc (pre : string) (c : ascii) (tl : string) :
  pre +:+ String c tl = (pre +:+ String c EmptyString) +:+ tl.
Proof.
  induction pre as [|d pre IH]; [reflexivity|].
  rewrite !append_cons. f_equal. exact IH.
Qed.

Lemma length_snoc (pre : string) (c : ascii) :
  String.length (pre +:+ String c EmptyString) = S (String.length pre).
Proof.
  induction pre as [|d pre IH]; [reflexivity|].
  rewrite append_cons. cbn [String.length]. f_equal. exact IH.
Qed.

Lemma append_empty_r (s : string) : s +:+ EmptyString = s.
Proof.
  induction s as [|c s IH]; [reflexivity|].
  rewrite !append_cons. f_equal. exact IH.
Qed.

Lemma cleanString_range_spec (rest pre : string) (skip : nat) :
  prefixNoNUL skip rest = true ->
  cleanString_range (pre +:+ rest) rest (String.length pre) skip
  = pre +:+ truncateAtNUL rest.
Proof.
  revert pre skip. induction rest as [|c tl IH]; intros pre skip Hskip.
  - destruct skip; reflexivity.
  - destruct skip as [|k].
    + cbn [cleanString_range].
      pose proof (DecodeRuneInString_NUL c tl) as Hdec.
      destruct (DecodeRuneInString (String c tl)) as [r size].
      destruct Hdec as (Hr & Hsize & Hpre).
      rewrite Hr. cbn [truncateAtNUL].
      destruct (Z.eqb_spec (char_val c) 0) as [Hc|Hc].
      * rewrite append_empty_r. apply substring_prefix.
      * specialize (Hpre Hc). destruct size as [|m]; [lia|].
        cbn [prefixNoNUL] in Hpre. apply andb_true_iff in Hpre as [_ Hm].
        replace (S m - 1)%nat with m by lia.
        rewrite (append_snoc pre c tl), <- (length_snoc pre c), IH by exact Hm.
        rewrite <- append_snoc. reflexivity.
    + cbn [cleanString_range]. cbn [prefixNoNUL] in Hskip.
      apply andb_true_iff in Hskip as [Hc Hk].
      apply negb_true_iff in Hc. cbn [truncateAtNUL]. rewrite Hc.
      rewrite (append_snoc pre c tl), <- (length_snoc pre c), IH by exact Hk.
      rewrite <- append_snoc. reflexivity.
Qed.

Lemma cleanString_truncateAtNUL (s : string) :
  cleanString s = truncateAtNUL s.
Proof.
  exact (cleanString_range_spec s EmptyString 0 eq_refl).
Qed.

Lemma truncateAtNUL_noNUL (s : string) :
  hasNUL s = false -> truncateAtNUL s = s.
Proof.
  induction s as [|c s IH]; simpl; [reflexivity|].
  intros H. apply orb_false_elim in H as [Hc Hs].
  rewrite Hc, IH by exact Hs. reflexivity.
Qed.

Lemma truncateAtNUL_first_NUL (pre post : string) (c : ascii) :
  hasNUL pre = false -> char_val c = 0 ->
  truncateAtNUL (pre +:+ String c post) = pre.
Proof.
  intros Hpre Hc. induction pre as [|d pre IH].
  - simpl. rewrite Hc. reflexivity.
  - rewrite append_cons. simpl in Hpre |- *.
    apply orb_false_elim in Hpre as [Hd Hp].
    rewrite Hd, IH by exact Hp. reflexivity.
Qed.

(** ** The parameter-stream decoder: one iteration *)

Lemma int32_sub_small (L : Z) :
  12 <= L <= 65536 -> int32_sub L 12 = L - 12.
Proof.
  intros HL. unfold int32_sub, wrap_int32.
  rewrite Z.mod_small by lia. lia.
Qed.

Lemma align4_spec (x : Z) :
  0 <= x -> align4 x = roundUp4 x /\ x <= align4 x < x + 4.
Proof.
  intros Hx. unfold align4, roundUp4.
  rewrite Z.rem_mod_nonneg by lia.
  destruct (Z.eqb_spec (x mod 4) 0) as [H0|H0]; simpl;
    Z.div_mod_to_equations; lia.
Qed.

Lemma roundUp4_spec (L : Z) :
  roundUp4 L mod 4 = 0 /\ L <= roundUp4 L < L + 4.
Proof.
  unfold roundUp4. split.
  - rewrite Z.mul_comm. apply Z.mod_mul. lia.
  - Z.div_mod_to_equations. lia.
Qed.

Lemma align4_aligned (offset L : Z) :
  0 <= offset -> 0 <= L -> offset mod 4 = 0 ->
  align4 (offset + L) = offset + roundUp4 L.
Proof.
  intros Ho HL Hal.
  destruct (align4_spec (offset + L)) as [-> _]; [lia|].
  unfold roundUp4. Z.div_mod_to_equations. lia.
Qed.

Lemma parseValue_Done (data : list byte) (offset ty L : Z) :
  0 <= offset -> 12 <= L <= 65536 -> offset + L <= len data ->
  exists v, parseValue data offset ty L = Done v.
Proof.
  intros Ho HL Hfit. unfold parseValue.
  destruct (ty =? MQCFT_INTEGER).
  { destruct (Z.leb_spec 16 L); [|eexists; reflexivity].
    destruct (readInt32_Done data (offset + 12)) as (v & -> & _); [lia..|].
    eexists; reflexivity. }
  rewrite (int32_sub_small L HL).
  destruct (ty =? MQCFT_STRING).
  { destruct (Z.ltb_spec 12 L); [|eexists; reflexivity].
    rewrite slice_Done by lia. eexists; reflexivity. }
  destruct (ty =? MQCFT_BYTE_STRING); [|eexists; reflexivity].
  destruct (Z.ltb_spec 12 L); [|eexists; reflexivity].
  rewrite slice_Done by lia. eexists; reflexivity.
Qed.

Lemma parseValue_other (data : list byte) (offset ty L : Z) :
  ty <> MQCFT_INTEGER -> ty <> MQCFT_STRING -> ty <> MQCFT_BYTE_STRING ->
  parseValue data offset ty L = Done VNil.
Proof.
  intros H1 H2 H3. unfold parseValue.
  destruct (Z.eqb_spec ty MQCFT_INTEGER); [contradiction|].
  destruct (Z.eqb_spec ty MQCFT_STRING); [contradiction|].
  destruct (Z.eqb_spec ty MQCFT_BYTE_STRING); [contradiction|].
  reflexivity.
Qed.

Lemma parseValue_string (data : list byte) (offset L : Z) :
  0 <= offset -> 12 <= L <= 65536 -> offset + L <= len data ->
  parseValue data offset MQCFT_STRING L
  = if 12 <? L then
      Done (VString (truncateAtNUL (String.string_of_list_byte
              (take (Z.to_nat (L - 12)) (drop (Z.to_nat (offset + 12)) data)))))
    else Done VNil.
Proof.
  intros Ho HL Hfit. unfold parseValue.
  change (MQCFT_STRING =? MQCFT_INTEGER) with false.
  change (MQCFT_STRING =? MQCFT_STRING) with true. cbv iota.
  destruct (Z.ltb_spec 12 L); [|reflexivity].
  rewrite (int32_sub_small L HL), slice_Done by lia.
  replace (offset + 12 + (L - 12) - (offset + 12)) with (L - 12) by lia.
  unfold mbind, outcome_bind, mret, outcome_ret.
  rewrite cleanString_truncateAtNUL. reflexivity.
Qed.

(** What one iteration does, by the three fields read at the cursor. *)
Lemma parseBody_short (data : list byte) (offset : Z) :
  len data < offset + 12 -> parseBody data offset = Done Break.
Proof.
  intros H. unfold parseBody.
  destruct (Z.ltb_spec (len data) (offset + 12)); [reflexivity | lia].
Qed.

Lemma declared_Done (data : list byte) (offset : Z) :
  0 <= offset -> offset + 12 <= len data ->
  exists tag ty L,
    declaredTag data offset = Done tag /\
    declaredType data offset = Done ty /\
    declaredLength data offset = Done L.
Proof.
  intros Ho Hlen.
  destruct (readInt32_Done data offset) as (tag & Htag & _); [lia..|].
  destruct (readInt32_Done data (offset + 4)) as (ty & Hty & _); [lia..|].
  destruct (readInt32_Done data (offset + 8)) as (L & HL & _); [lia..|].
  exists tag, ty, L. auto.
Qed.

Lemma parseBody_Break (data : list byte) (offset tag ty L : Z) :
  offset + 12 <= len data ->
  declaredTag data offset = Done tag ->
  declaredType data offset = Done ty ->
  declaredLength data offset = Done L ->
  L < 12 \/ 65536 < L \/ len data < offset + L ->
  parseBody data offset = Done Break.
Proof.
  unfold declaredTag, declaredType, declaredLength.
  intros Hlen Htag Hty HL Hbad. unfold parseBody.
  destruct (Z.ltb_spec (len data) (offset + 12)); [lia|].
  rewrite Htag, Hty, HL. unfold mbind, outcome_bind.
  destruct (Z.ltb_spec L 12); [reflexivity|].
  destruct (Z.ltb_spec 65536 L); [reflexivity|]. simpl.
  destruct (Z.ltb_spec (len data) (offset + L)); [reflexivity | lia].
Qed.

Lemma parseBody_Next (data : list byte) (offset tag ty L : Z) :
  0 <= offset ->
  offset + 12 <= len data ->
  declaredTag data offset = Done tag ->
  declaredType data offset = Done ty ->
  declaredLength data offset = Done L ->
  12 <= L <= 65536 -> offset + L <= len data ->
  exists v,
    parseValue data offset ty L = Done v /\
    parseBody data offset
    = Done (Next (mkPCFParameter tag ty L v) (align4 (offset + L))).
Proof.
  unfold declaredTag, declaredType, declaredLength.
  intros Ho Hlen Htag Hty HL Hrange Hfit.
  destruct (parseValue_Done data offset ty L) as [v Hv]; [lia..|].
  exists v. split; [exact Hv|]. unfold parseBody.
  destruct (Z.ltb_spec (len data) (offset + 12)); [lia|].
  rewrite Htag, Hty, HL. unfold mbind, outcome_bind.
  destruct (Z.ltb_spec L 12); [lia|].
  destruct (Z.ltb_spec 65536 L); [lia|]. simpl.
  destruct (Z.ltb_spec (len data) (offset + L)); [lia|].
  rewrite Hv. reflexivity.
Qed.

(** Inversion of an iteration that appends a parameter. *)
Lemma parseBody_Next_inv (data : list byte) (offset : Z)
    (param : PCFParameter) (offset' : Z) :
  0 <= offset ->
  parseBody data offset = Done (Next param offset') ->
  offset + 12 <= len data /\
  declaredTag data offset = Done (p_Parameter param) /\
  declaredType data offset = Done (p_Type param) /\
  declaredLength data offset = Done (p_Length param) /\
  12 <= p_Length param <= 65536 /\
  offset + p_Length param <= len data /\
  parseValue data offset (p_Type param) (p_Length param)
  = Done (p_Value param) /\
  offset' = align4 (offset + p_Length param).
Proof.
  intros Ho Hbody.
  destruct (Z.ltb_spec (len data) (offset + 12)) as [Hs|Hs].
  { rewrite parseBody_short in Hbody by exact Hs. discriminate. }
  destruct (declared_Done data offset Ho Hs) as (tag & ty & L & Ht & Hy & HL).
  destruct (Z.ltb_spec L 12) as [H12|H12].
  { rewrite (parseBody_Break data offset tag ty L) in Hbody by auto.
    discriminate. }
  destruct (Z.ltb_spec 65536 L) as [Hmax|Hmax].
  { rewrite (parseBody_Break data offset tag ty L) in Hbody by auto.
    discriminate. }
  destruct (Z.ltb_spec (len data) (offset + L)) as [Hfit|Hfit].
  { rewrite (parseBody_Break data offset tag ty L) in Hbody by auto.
    discriminate. }
  destruct (parseBody_Next data offset tag ty L) as (v & Hv & Hnext);
    [auto; lia..|].
  rewrite Hnext in Hbody. injection Hbody as <- <-. simpl.
  repeat split; auto; lia.
Qed.

Lemma parseBody_Done (data : list byte) (offset : Z) :
  0 <= offset -> exists it, parseBody data offset = Done it.
Proof.
  intros Ho.
  destruct (Z.ltb_spec (len data) (offset + 12)) as [Hs|Hs].
  { exists Break. apply parseBody_short. exact Hs. }
  destruct (declared_Done data offset Ho Hs) as (tag & ty & L & Ht & Hy & HL).
  destruct (Z.ltb_spec L 12) as [H12|H12];
    [exists Break; apply (parseBody_Break data offset tag ty L); auto|].
  destruct (Z.ltb_spec 65536 L) as [Hmax|Hmax];
    [exists Break; apply (parseBody_Break data offset tag ty L); auto|].
  destruct (Z.ltb_spec (len data) (offset + L)) as [Hfit|Hfit];
    [exists Break; apply (parseBody_Break data offset tag ty L); auto|].
  destruct (parseBody_Next data offset tag ty L) as (v & Hv & Hnext);
    [auto; lia..|].
  eexists. exact Hnext.
Qed.

(** ** The parameter-stream decoder: the loop *)

Lemma parseLoop_Done (fuel : nat) (data : list byte) (offset : Z)
    (parameters : list PCFParameter) :
  0 <= offset -> (1 <= fuel)%nat -> len data - offset < Z.of_nat fuel ->
  exists result, parseLoop fuel data offset parameters = Done result.
Proof.
  revert offset parameters.
  induction fuel as [|fuel IH]; intros offset parameters Ho H1 Hfuel; [lia|].
  cbn [parseLoop].
  destruct (Z.ltb_spec offset (len data)) as [Hlt|Hge];
    [|eexists; reflexivity].
  destruct (parseBody_Done data offset Ho) as [[|param offset'] Hbody];
    rewrite Hbody; unfold mbind, outcome_bind; [eexists; reflexivity|].
  apply parseBody_Next_inv in Hbody as (_ & _ & _ & _ & HL & _ & _ & ->);
    [|exact Ho].
  destruct (align4_spec (offset + p_Length param)) as [_ Hal]; [lia|].
  apply IH; lia.
Qed.

Lemma parseLoop_fuel_S (fuel : nat) (data : list byte) (offset : Z)
    (parameters result : list PCFParameter) :
  parseLoop fuel data offset parameters = Done result ->
  parseLoop (S fuel) data offset parameters = Done result.
Proof.
  revert offset parameters.
  induction fuel as [|fuel IH]; intros offset parameters; [discriminate|].
  intros H. cbn [parseLoop] in H |- *.
  destruct (offset <? len data); [|exact H].
  destruct (parseBody data offset) as [[|param offset']| |];
    unfold mbind, outcome_bind in H |- *; try exact H.
  apply IH. exact H.
Qed.

Lemma parseLoop_fuel_le (fuel fuel' : nat) (data : list byte) (offset : Z)
    (parameters result : list PCFParameter) :
  (fuel <= fuel')%nat ->
  parseLoop fuel data offset parameters = Done result ->
  parseLoop fuel' data offset parameters = Done result.
Proof.
  induction 1 as [|fuel' _ IH]; [auto|].
  intros H. apply parseLoop_fuel_S, IH, H.
Qed.

Lemma returns_from_unique (data : list byte) (offset : Z)
    (parameters r1 r2 : list PCFParameter) :
  returns_from data offset parameters r1 ->
  returns_from data offset parameters r2 -> r1 = r2.
Proof.
  intros [f1 H1] [f2 H2].
  apply (parseLoop_fuel_le f1 (f1 `max` f2)) in H1; [|lia].
  apply (parseLoop_fuel_le f2 (f1 `max` f2)) in H2; [|lia].
  congruence.
Qed.

Lemma returns_from_prefix (data : list byte) (offset : Z)
    (parameters result : list PCFParameter) :
  returns_from data offset parameters result -> parameters `prefix_of` result.
Proof.
  intros [fuel H]. revert offset parameters H.
  induction fuel as [|fuel IH]; intros offset parameters H; [discriminate|].
  cbn [parseLoop] in H.
  destruct (offset <? len data); [|injection H as <-; reflexivity].
  destruct (parseBody data offset) as [[|param offset']| |];
    unfold mbind, outcome_bind in H; try discriminate.
  - injection H as <-. reflexivity.
  - apply IH in H. etrans; [|exact H]. apply prefix_app_r. reflexivity.
Qed.

Lemma returns_from_step (data : list byte) (offset offset' : Z)
    (parameters result : list PCFParameter) (param : PCFParameter) :
  offset < len data ->
  parseBody data offset = Done (Next param offset') ->
  returns_from data offset parameters result <->
  returns_from data offset' (parameters ++ [param]) result.
Proof.
  intros Hlt Hbody. split; intros [fuel H].
  - destruct fuel as [|fuel]; [discriminate|]. exists fuel.
    cbn [parseLoop] in H.
    destruct (Z.ltb_spec offset (len data)); [|lia].
    rewrite Hbody in H. exact H.
  - exists (S fuel). cbn [parseLoop].
    destruct (Z.ltb_spec offset (len data)); [|lia].
    rewrite Hbody. exact H.
Qed.

Lemma returns_from_Break (data : list byte) (offset : Z)
    (parameters : list PCFParameter) :
  parseBody data offset = Done Break ->
  returns_from data offset parameters parameters.
Proof.
  intros Hbody. exists 1%nat. cbn [parseLoop].
  destruct (offset <? len data); [|reflexivity].
  rewrite Hbody. reflexivity.
Qed.

Lemma reaches_cursor (data : list byte) (offset : Z)
    (parameters : list PCFParameter) :
  reaches data offset parameters -> 0 <= offset /\ offset mod 4 = 0.
Proof.
  induction 1 as [|offset parameters param offset' _ [IH _] Hlt Hbody];
    [split; [lia | reflexivity]|].
  apply parseBody_Next_inv in Hbody as (_ & _ & _ & _ & HL & _ & _ & ->);
    [|exact IH].
  destruct (align4_spec (offset + p_Length param)) as [Heq Hal]; [lia|].
  split; [lia|]. rewrite Heq. apply roundUp4_spec.
Qed.

Lemma reaches_returns (data : list byte) (offset : Z)
    (parameters result : list PCFParameter) :
  reaches data offset parameters ->
  returns_from data offset parameters result <->
  returns_from data 0 [] result.
Proof.
  induction 1 as [|offset parameters param offset' _ IH Hlt Hbody];
    [reflexivity|].
  rewrite <- IH. symmetry. apply returns_from_step; assumption.
Qed.

Lemma parseParameters_returns (data : list byte) (count : Z)
    (result : list PCFParameter) :
  parseParameters data count = Done (result, None) <->
  returns_from data 0 [] result.
Proof.
  unfold parseParameters.
  destruct (parseLoop_Done (S (length data)) data 0 []) as [r Hr];
    [lia | lia | unfold len; lia |].
  rewrite Hr. unfold mbind, outcome_bind, mret, outcome_ret. split.
  - intros [= <-]. exists (S (length data)). exact Hr.
  - intros H. do 2 f_equal.
    apply (returns_from_unique data 0 []); [|exact H].
    exists (S (length data)). exact Hr.
Qed.

Lemma parseParameters_Done (data : list byte) (count : Z) :
  exists result, parseParameters data count = Done (result, None).
Proof.
  unfold parseParameters.
  destruct (parseLoop_Done (S (length data)) data 0 []) as [r Hr];
    [lia | lia | unfold len; lia |].
  rewrite Hr. exists r. reflexivity.
Qed.

Lemma reaches_result (data : list byte) (count offset : Z)
    (parameters result : list PCFParameter) :
  reaches data offset parameters ->
  parseParameters data count = Done (result, None) ->
  parameters `prefix_of` result.
Proof.
  intros Hr Hp. apply parseParameters_returns in Hp.
  apply (reaches_returns _ _ _ result Hr) in Hp.
  apply returns_from_prefix in Hp. exact Hp.
Qed.

(** ** The parameter-stream decoder: the claims *)

(** C3. Soft truncation: when the loop of [parseParameters] stands at a
    cursor where a parameter sub-header can be read and the declared length
    is below 12, above 65536, or runs past the end of the buffer, the call
    returns exactly the parameters decoded before that cursor, with a nil
    error. *)
Theorem parseParameters_soft_truncation (data : list byte) (count offset : Z)
    (parameters : list PCFParameter) (L : Z) :
  reaches data offset parameters ->
  offset + 12 <= len data ->
  declaredLength data offset = Done L ->
  L < 12 \/ 65536 < L \/ len data < offset + L ->
  parseParameters data count = Done (parameters, None).
Proof.
  intros Hreach Hlen HL Hbad.
  destruct (reaches_cursor _ _ _ Hreach) as [Ho _].
  destruct (declared_Done data offset Ho Hlen) as (tag & ty & L' & Ht & Hy & HL').
  assert (L' = L) as -> by congruence.
  apply parseParameters_returns, (reaches_returns _ _ _ _ Hreach).
  apply returns_from_Break.
  apply (parseBody_Break data offset tag ty L); assumption.
Qed.

Lemma parseParameters_soft_truncation_witness :
  let data := testIntegerParameter MQIA_CURRENT_Q_DEPTH 100
              ++ testSubHeader MQCA_Q_NAME MQCFT_STRING 5 in
  let param := mkPCFParameter MQIA_CURRENT_Q_DEPTH MQCFT_INTEGER 16
                 (VInt32 100) in
  reaches data 16 [param] /\
  16 + 12 <= len data /\
  declaredLength data 16 = Done 5 /\
  (5 < 12 \/ 65536 < 5 \/ len data < 16 + 5) /\
  parseParameters data 3 = Done ([param], None).
Proof.
  intros data param.
  assert (reaches data 16 [param]) as Hreach.
  { apply (reaches_next data 0 [] param 16);
      [apply reaches_start | reflexivity | reflexivity]. }
  assert (16 + 12 <= len data) as Hlen by (vm_compute; discriminate).
  assert (declaredLength data 16 = Done 5) as HL by reflexivity.
  assert (5 < 12 \/ 65536 < 5 \/ len data < 16 + 5) as Hbad by (left; lia).
  refine (conj Hreach (conj Hlen (conj HL (conj Hbad _)))).
  exact (parseParameters_soft_truncation data 3 16 [param] 5
           Hreach Hlen HL Hbad).
Defined.

(** C4. Cursor advance: at every loop state of [parseParameters] the cursor
    is a multiple of 4; a parameter whose declared length [L] lies in
    12..65536 and fits the buffer is decoded: the loop of [parseParameters]
    goes on from the cursor moved by exactly [L] rounded up to the next
    multiple of 4 with the parameter appended, and the parameter is in the
    list that [parseParameters] returns, right after those decoded before
    it.  The next cursor is not below the end [offset + L] of the parameter
    just decoded, so the extents of consecutive parameters do not overlap. *)
Theorem parseParameters_cursor_advance (data : list byte) (count offset : Z)
    (parameters : list PCFParameter) (tag ty L : Z) :
  reaches data offset parameters ->
  offset + 12 <= len data ->
  declaredTag data offset = Done tag ->
  declaredType data offset = Done ty ->
  declaredLength data offset = Done L ->
  12 <= L <= 65536 ->
  offset + L <= len data ->
  offset mod 4 = 0 /\
  (exists v result,
     parseBody data offset
     = Done (Next (mkPCFParameter tag ty L v) (offset + roundUp4 L)) /\
     (forall fuel,
        parseLoop (S fuel) data offset parameters
        = parseLoop fuel data (offset + roundUp4 L)
            (parameters ++ [mkPCFParameter tag ty L v])) /\
     reaches data (offset + roundUp4 L)
       (parameters ++ [mkPCFParameter tag ty L v]) /\
     parseParameters data count = Done (result, None) /\
     (parameters ++ [mkPCFParameter tag ty L v]) `prefix_of` result /\
     result !! length parameters = Some (mkPCFParameter tag ty L v)) /\
  (offset + roundUp4 L) mod 4 = 0 /\
  offset + L <= offset + roundUp4 L < offset + L + 4.
Proof.
  intros Hreach Hlen Ht Hy HL Hrange Hfit.
  destruct (reaches_cursor _ _ _ Hreach) as [Ho Hal].
  destruct (parseBody_Next data offset tag ty L) as (v & _ & Hbody);
    try assumption.
  rewrite align4_aligned in Hbody by lia.
  destruct (roundUp4_spec L) as [Hr4 Hr].
  assert (reaches data (offset + roundUp4 L)
            (parameters ++ [mkPCFParameter tag ty L v])) as Hnext
    by (apply (reaches_next data offset parameters _ _ Hreach);
        [lia | exact Hbody]).
  destruct (parseParameters_Done data count) as [result Hresult].
  pose proof (reaches_result data count _ _ result Hnext Hresult) as Hpre.
  split; [exact Hal|]. split; [|split; [|lia]].
  - exists v, result. split; [exact Hbody|]. split; [|split; [exact Hnext|]].
    + intros fuel. cbn [parseLoop].
      destruct (Z.ltb_spec offset (len data)); [|lia].
      rewrite Hbody. reflexivity.
    + split; [exact Hresult|]. split; [exact Hpre|].
      destruct Hpre as [rest ->].
      rewrite <- app_assoc. apply list_lookup_middle. reflexivity.
  - rewrite Z.add_mod, Hal, Hr4 by lia. reflexivity.
Qed.

Lemma parseParameters_cursor_advance_witness :
  let data := createTestPCFParameter MQCA_Q_NAME MQCFT_STRING "TESTQ"
              ++ testSubHeader MQCA_APPL_NAME MQCFT_STRING 13
              ++ [x41; x00; x00; x00] in
  let first := mkPCFParameter MQCA_Q_NAME MQCFT_STRING 20 (VString "TESTQ") in
  reaches data 20 [first] /\
  20 mod 4 = 0 /\
  (exists v result,
     parseBody data 20
     = Done (Next (mkPCFParameter MQCA_APPL_NAME MQCFT_STRING 13 v)
               (20 + roundUp4 13)) /\
     (forall fuel,
        parseLoop (S fuel) data 20 [first]
        = parseLoop fuel data (20 + roundUp4 13)
            ([first] ++ [mkPCFParameter MQCA_APPL_NAME MQCFT_STRING 13 v])) /\
     reaches data (20 + roundUp4 13)
       ([first] ++ [mkPCFParameter MQCA_APPL_NAME MQCFT_STRING 13 v]) /\
     parseParameters data 2 = Done (result, None) /\
     ([first] ++ [mkPCFParameter MQCA_APPL_NAME MQCFT_STRING 13 v])
       `prefix_of` result /\
     result !! length [first]
     = Some (mkPCFParameter MQCA_APPL_NAME MQCFT_STRING 13 v)) /\
  (20 + roundUp4 13) mod 4 = 0 /\
  20 + 13 <= 20 + roundUp4 13 < 20 + 13 + 4.
Proof.
  intros data first.
  assert (reaches data 20 [first]) as Hreach.
  { apply (reaches_next data 0 [] first 20);
      [apply reaches_start | reflexivity | reflexivity]. }
  split; [exact Hreach|].
  apply (parseParameters_cursor_advance data 2 20 [first]
           MQCA_APPL_NAME MQCFT_STRING 13 Hreach);
    [vm_compute; discriminate | reflexivity | reflexivity | reflexivity
    | lia | vm_compute; discriminate].
Defined.

(** C5 (as amended). Text parameters: a parameter of type [MQCFT_STRING]
    with a non-empty payload (declared length above 12) carries the string of
    its payload bytes cut at the first NUL byte, and the whole payload when it
    has no NUL byte; nothing else is trimmed.  With an empty payload
    (declared length exactly 12) it carries no value. *)
Theorem parseParameters_text_value (data : list byte) (offset : Z)
    (parameters : list PCFParameter) (param : PCFParameter) (offset' : Z) :
  reaches data offset parameters ->
  parseBody data offset = Done (Next param offset') ->
  p_Type param = MQCFT_STRING ->
  let payload :=
    String.string_of_list_byte
      (take (Z.to_nat (p_Length param - 12))
         (drop (Z.to_nat (offset + 12)) data)) in
  (12 < p_Length param ->
   p_Value param = VString (truncateAtNUL payload) /\
   (hasNUL payload = false -> p_Value param = VString payload) /\
   (forall pre post c,
      payload = pre +:+ String c post -> hasNUL pre = false ->
      char_val c = 0 -> p_Value param = VString pre)) /\
  (p_Length param = 12 -> p_Value param = VNil).
Proof.
  intros Hreach Hbody Hty payload.
  destruct (reaches_cursor _ _ _ Hreach) as [Ho _].
  apply parseBody_Next_inv in Hbody
    as (_ & _ & _ & _ & HL & Hfit & Hv & _); [|exact Ho].
  rewrite Hty, parseValue_string in Hv by lia.
  fold payload in Hv. split.
  - intros H12. destruct (Z.ltb_spec 12 (p_Length param)); [|lia].
    injection Hv as <-. split; [reflexivity|]. split.
    + intros Hno. rewrite truncateAtNUL_noNUL by exact Hno. reflexivity.
    + intros pre post c -> Hpre Hc.
      rewrite truncateAtNUL_first_NUL by assumption. reflexivity.
  - intros H12. destruct (Z.ltb_spec 12 (p_Length param)); [lia|].
    injection Hv as <-. reflexivity.
Qed.

Lemma parseParameters_text_value_witness :
  let data := createTestPCFParameter MQCA_Q_NAME MQCFT_STRING " A B " in
  let param := mkPCFParameter MQCA_Q_NAME MQCFT_STRING 20 (VString " A B ") in
  reaches data 0 [] /\
  parseBody data 0 = Done (Next param 20) /\
  p_Value param
  = VString (truncateAtNUL (String.string_of_list_byte
               (take (Z.to_nat (20 - 12)) (drop (Z.to_nat (0 + 12)) data)))).
Proof.
  intros data param.
  assert (parseBody data 0 = Done (Next param 20)) as Hbody by reflexivity.
  refine (conj (reaches_start data) (conj Hbody _)).
  apply (parseParameters_text_value data 0 [] param 20
           (reaches_start data) Hbody eq_refl).
  simpl. lia.
Defined.

(** C5 (as stated) fails on a text parameter whose declared length is 12:
    its payload is empty, and the value is nil, not the empty string. *)
Lemma parseParameters_text_value_counterexample :
  ~ (forall data offset parameters param offset',
       reaches data offset parameters ->
       parseBody data offset = Done (Next param offset') ->
       p_Type param = MQCFT_STRING ->
       p_Value param
       = VString (truncateAtNUL (String.string_of_list_byte
                    (take (Z.to_nat (p_Length param - 12))
                       (drop (Z.to_nat (offset + 12)) data))))).
Proof.
  intros H.
  specialize (H (testSubHeader MQCA_Q_NAME MQCFT_STRING 12) 0 []
                (mkPCFParameter MQCA_Q_NAME MQCFT_STRING 12 VNil) 12
                (reaches_start _) eq_refl eq_refl).
  discriminate H.
Qed.

(** C8. The declared parameter count is not consulted: two calls on the same
    buffer return the same parameters, whatever the counts. *)
Theorem parseParameters_count_irrelevant (data : list byte) (c1 c2 : Z) :
  exists result,
    parseParameters data c1 = Done (result, None) /\
    parseParameters data c2 = Done (result, None).
Proof.
  destruct (parseParameters_Done data c1) as [result H].
  exists result. split; [exact H | exact H].
Qed.

Lemma convertParameters_fold (parameters : list PCFParameter)
    (m : gmap string Value) (k : string) :
  is_Some (m !! k) \/
  (exists param, param ∈ parameters /\ paramKey (p_Parameter param) = k) ->
  is_Some (fold_left (fun result param =>
                        <[paramKey (p_Parameter param) := p_Value param]> result)
             parameters m !! k).
Proof.
  revert m. induction parameters as [|p ps IH]; intros m H; simpl.
  - destruct H as [H | (param & Hin & _)]; [exact H|].
    apply elem_of_nil in Hin. contradiction.
  - apply IH. destruct H as [H | (param & Hin & Hk)].
    + left. rewrite lookup_insert_is_Some. 
      destruct (decide (paramKey (p_Parameter p) = k)); auto.
    + apply elem_of_cons in Hin as [-> | Hin].
      * left. rewrite Hk, lookup_insert_eq. eauto.
      * right. eauto.
Qed.

Lemma convertParameters_key (parameters : list PCFParameter)
    (param : PCFParameter) :
  param ∈ parameters ->
  is_Some (convertParameters parameters !! paramKey (p_Parameter param)).
Proof.
  intros Hin. apply convertParameters_fold. right. eauto.
Qed.

(** C9. Unrecognised type tags: a parameter whose type is none of integer,
    string and byte string, with a valid declared length that fits the
    buffer, is appended to the sequence with a nil value; the call returns
    with a nil error, and the tag has an entry in the raw-parameter map. *)
Theorem parseParameters_unknown_type (data : list byte) (count offset : Z)
    (parameters : list PCFParameter) (tag ty L : Z) :
  reaches data offset parameters ->
  offset + 12 <= len data ->
  declaredTag data offset = Done tag ->
  declaredType data offset = Done ty ->
  declaredLength data offset = Done L ->
  12 <= L <= 65536 ->
  offset + L <= len data ->
  ty <> MQCFT_INTEGER -> ty <> MQCFT_STRING -> ty <> MQCFT_BYTE_STRING ->
  exists offset' result,
    parseBody data offset = Done (Next (mkPCFParameter tag ty L VNil) offset') /\
    reaches data offset' (parameters ++ [mkPCFParameter tag ty L VNil]) /\
    parseParameters data count = Done (result, None) /\
    (parameters ++ [mkPCFParameter tag ty L VNil]) `prefix_of` result /\
    is_Some (convertParameters result !! paramKey tag).
Proof.
  intros Hreach Hlen Ht Hy HL Hrange Hfit H3 H4 H9.
  destruct (reaches_cursor _ _ _ Hreach) as [Ho _].
  destruct (parseBody_Next data offset tag ty L) as (v & Hv & Hbody);
    try assumption.
  rewrite parseValue_other in Hv by assumption. injection Hv as <-.
  pose proof (reaches_next data offset parameters _ _ Hreach
                ltac:(lia) Hbody) as Hreach'.
  destruct (parseParameters_Done data count) as [result Hres].
  pose proof (reaches_result _ _ _ _ _ Hreach' Hres) as Hpre.
  exists (align4 (offset + L)), result.
  split; [exact Hbody|]. split; [exact Hreach'|].
  split; [exact Hres|]. split; [exact Hpre|].
  apply (convertParameters_key result (mkPCFParameter tag ty L VNil)).
  destruct Hpre as [k ->].
  apply elem_of_app. left. apply elem_of_app. right.
  apply list_elem_of_singleton. reflexivity.
Qed.

Lemma parseParameters_unknown_type_witness :
  let data := testSubHeader MQCA_Q_NAME 5 12 in
  let param := mkPCFParameter MQCA_Q_NAME 5 12 VNil in
  reaches data 0 [] /\
  exists offset' result,
    parseBody data 0 = Done (Next param offset') /\
    reaches data offset' ([] ++ [param]) /\
    parseParameters data 1 = Done (result, None) /\
    ([] ++ [param]) `prefix_of` result /\
    is_Some (convertParameters result !! paramKey MQCA_Q_NAME).
Proof.
  intros data param. split; [apply reaches_start|].
  apply (parseParameters_unknown_type data 1 0 [] MQCA_Q_NAME 5 12
           (reaches_start data));
    first [ reflexivity | vm_compute; discriminate | lia | idtac ].
  all: unfold MQCFT_INTEGER, MQCFT_STRING, MQCFT_BYTE_STRING; lia.
Defined.

(** ** Queue statistics *)

Lemma parseQueueStats_body_counts (s : QueueStatistics)
    (p : PCFParameter) :
  let s' := parseQueueStats_body s p in
  qs_InputCount s' = int32At MQIA_OPEN_INPUT_COUNT p (qs_InputCount s) /\
  qs_OutputCount s' = int32At MQIA_OPEN_OUTPUT_COUNT p (qs_OutputCount s) /\
  (qs_HasReaders s = (0 <? qs_InputCount s) ->
   qs_HasReaders s' = (0 <? qs_InputCount s')) /\
  (qs_HasWriters s = (0 <? qs_OutputCount s) ->
   qs_HasWriters s' = (0 <? qs_OutputCount s')).
Proof.
  destruct s as [name cur high inp out enq deq rd wr].
  unfold parseQueueStats_body, int32At.
  destruct (p_Value p) as [|val|str|b]; cbn; auto.
  - unfold MQIA_CURRENT_Q_DEPTH, MQIA_HIGH_Q_DEPTH, MQIA_OPEN_INPUT_COUNT,
      MQIA_OPEN_OUTPUT_COUNT, MQIA_MSG_ENQ_COUNT, MQIA_MSG_DEQ_COUNT.
    repeat match goal with
    | |- context [p_Parameter p =? ?y] =>
        destruct (Z.eqb_spec (p_Parameter p) y); try lia
    end; cbn; auto.
  - destruct (p_Parameter p =? MQCA_Q_NAME); cbn; auto.
Qed.

Lemma parseQueueStats_fold (parameters : list PCFParameter)
    (s0 : QueueStatistics) :
  let s := fold_left parseQueueStats_body parameters s0 in
  qs_InputCount s
  = lastInt32 MQIA_OPEN_INPUT_COUNT parameters (qs_InputCount s0) /\
  qs_OutputCount s
  = lastInt32 MQIA_OPEN_OUTPUT_COUNT parameters (qs_OutputCount s0) /\
  (qs_HasReaders s0 = (0 <? qs_InputCount s0) ->
   qs_HasReaders s = (0 <? qs_InputCount s)) /\
  (qs_HasWriters s0 = (0 <? qs_OutputCount s0) ->
   qs_HasWriters s = (0 <? qs_OutputCount s)).
Proof.
  revert s0. induction parameters as [|p ps IH]; intros s0; [simpl; auto|].
  cbn [fold_left lastInt32].
  specialize (IH (parseQueueStats_body s0 p)). cbv zeta in IH.
  destruct IH as (Hin & Hout & Hrd & Hwr).
  destruct (parseQueueStats_body_counts s0 p) as (Bin & Bout & Brd & Bwr).
  split; [rewrite Hin, Bin; reflexivity|].
  split; [rewrite Hout, Bout; reflexivity|].
  split; intros H; [apply Hrd, Brd, H | apply Hwr, Bwr, H].
Qed.

(** C1. Reader and writer flags: in the record built by [parseQueueStats],
    [HasReaders] is [InputCount > 0] and [HasWriters] is [OutputCount > 0],
    where the two counts are the values of the last parameters that carry an
    integer under the open-input-count and open-output-count tags (0 when
    there is none); with both counts 0 both flags are false. *)
Theorem parseQueueStats_readers_writers (parameters : list PCFParameter) :
  let stats := parseQueueStats parameters in
  qs_HasReaders stats = (0 <? qs_InputCount stats) /\
  qs_HasWriters stats = (0 <? qs_OutputCount stats) /\
  qs_InputCount stats = lastInt32 MQIA_OPEN_INPUT_COUNT parameters 0 /\
  qs_OutputCount stats = lastInt32 MQIA_OPEN_OUTPUT_COUNT parameters 0 /\
  (qs_InputCount stats = 0 -> qs_OutputCount stats = 0 ->
   qs_HasReaders stats = false /\ qs_HasWriters stats = false).
Proof.
  intros stats.
  destruct (parseQueueStats_fold parameters QueueStatistics_zero)
    as (Hin & Hout & Hrd & Hwr).
  specialize (Hrd eq_refl). specialize (Hwr eq_refl).
  change (fold_left parseQueueStats_body parameters QueueStatistics_zero)
    with stats in Hin, Hout, Hrd, Hwr.
  split; [exact Hrd|]. split; [exact Hwr|].
  split; [exact Hin|]. split; [exact Hout|].
  intros Hi0 Ho0. rewrite Hrd, Hwr, Hi0, Ho0. split; reflexivity.
Qed.

Lemma parseQueueStats_readers_writers_witness :
  let parameters :=
    [mkPCFParameter MQCA_Q_NAME MQCFT_STRING 24 (VString "TEST.QUEUE");
     mkPCFParameter MQIA_OPEN_INPUT_COUNT MQCFT_INTEGER 16 (VInt32 3);
     mkPCFParameter MQIA_OPEN_INPUT_COUNT MQCFT_INTEGER 16 (VInt32 0);
     mkPCFParameter MQIA_OPEN_OUTPUT_COUNT MQCFT_INTEGER 16 (VInt32 0)] in
  qs_InputCount (parseQueueStats parameters) = 0 /\
  qs_OutputCount (parseQueueStats parameters) = 0 /\
  qs_HasReaders (parseQueueStats parameters) = false /\
  qs_HasWriters (parseQueueStats parameters) = false.
Proof.
  intros parameters.
  destruct (parseQueueStats_readers_writers parameters)
    as (_ & _ & _ & _ & Hzero).
  assert (qs_InputCount (parseQueueStats parameters) = 0) as Hi
    by reflexivity.
  assert (qs_OutputCount (parseQueueStats parameters) = 0) as Ho
    by reflexivity.
  exact (conj Hi (conj Ho (Hzero Hi Ho))).
Defined.

(** ** [ParseMessage] *)

Lemma parseHeader_Done (data : list byte) :
  36 <= len data ->
  exists header, parseHeader data = Done (Some header, None).
Proof.
  intros Hlen. unfold parseHeader.
  destruct (Z.ltb_spec (len data) 36); [lia|].
  destruct (readInt32_Done data 0) as (f0 & -> & _); [lia..|].
  destruct (readInt32_Done data 4) as (f1 & -> & _); [lia..|].
  destruct (readInt32_Done data 8) as (f2 & -> & _); [lia..|].
  destruct (readInt32_Done data 12) as (f3 & -> & _); [lia..|].
  destruct (readInt32_Done data 16) as (f4 & -> & _); [lia..|].
  destruct (readInt32_Done data 20) as (f5 & -> & _); [lia..|].
  destruct (readInt32_Done data 24) as (f6 & -> & _); [lia..|].
  destruct (readInt32_Done data 28) as (f7 & -> & _); [lia..|].
  destruct (readInt32_Done data 32) as (f8 & -> & _); [lia..|].
  eexists. reflexivity.
Qed.

Lemma slice_tail (data : list byte) (lo : Z) :
  0 <= lo <= len data ->
  slice data lo (len data) = Done (drop (Z.to_nat lo) data).
Proof.
  intros Hlo. rewrite slice_Done by lia. f_equal.
  apply take_ge. rewrite length_drop. unfold len. lia.
Qed.

Section ParserProperties.

Context {Time : Type}.
Variable time_zero : Time.
Variable time_Now : Time.
Variable time_Parse : string -> string -> option Time.

Local Abbreviation ParseMessage :=
  (ParseMessage Time time_zero time_Now time_Parse).
Local Abbreviation parseStatistics :=
  (parseStatistics Time time_zero time_Now time_Parse).
Local Abbreviation parseAccounting :=
  (parseAccounting Time time_zero time_Now time_Parse).

(** [ParseMessage] on a buffer that holds a header: the header and the
    parameters are decoded, and the command code selects the record. *)
Lemma ParseMessage_dispatch (data : list byte) (msgType : string) :
  36 <= len data ->
  exists header parameters,
    parseHeader data = Done (Some header, None) /\
    parseParameters (drop 36 data) (h_ParameterCount header)
    = Done (parameters, None) /\
    ParseMessage data msgType
    = Done
        (let command := h_Command header in
         if (command =? MQCMD_STATISTICS_Q)
            || (command =? MQCMD_STATISTICS_CHANNEL)
            || (command =? MQCMD_STATISTICS_MQI) then
           (MStatistics (parseStatistics header parameters).1,
            (parseStatistics header parameters).2)
         else if (command =? MQCMD_ACCOUNTING_Q)
                 || (command =? MQCMD_ACCOUNTING_MQI) then
           (MAccounting (parseAccounting header parameters).1,
            (parseAccounting header parameters).2)
         else
           (MStatistics
              (mkStatisticsData Time msgType EmptyString time_Now
                 (convertParameters parameters) None None None),
            None)).
Proof.
  intros Hlen.
  destruct (parseHeader_Done data Hlen) as [header Hh].
  destruct (parseParameters_Done (drop 36 data) (h_ParameterCount header))
    as [parameters Hp].
  exists header, parameters. split; [exact Hh|]. split; [exact Hp|].
  unfold ParseMessage.
  destruct (Z.ltb_spec (len data) 36); [lia|].
  rewrite Hh. unfold mbind at 1, outcome_bind at 1. cbv iota beta.
  rewrite slice_tail by lia. change (Z.to_nat 36) with 36%nat.
  unfold mbind at 1, outcome_bind at 1.
  rewrite Hp. unfold mbind, outcome_bind. cbv iota beta zeta.
  destruct ((h_Command header =? MQCMD_STATISTICS_Q)
            || (h_Command header =? MQCMD_STATISTICS_CHANNEL)
            || (h_Command header =? MQCMD_STATISTICS_MQI)).
  { destruct (parseStatistics header parameters). reflexivity. }
  destruct ((h_Command header =? MQCMD_ACCOUNTING_Q)
            || (h_Command header =? MQCMD_ACCOUNTING_MQI)).
  { destruct (parseAccounting header parameters). reflexivity. }
  reflexivity.
Qed.

Lemma parseStatistics_error (header : PCFHeader)
    (parameters : list PCFParameter) :
  (parseStatistics header parameters).2 = None.
Proof.
  unfold parseStatistics.
  destruct (fold_left _ parameters _). reflexivity.
Qed.

Lemma parseAccounting_error (header : PCFHeader)
    (parameters : list PCFParameter) :
  (parseAccounting header parameters).2 = None.
Proof.
  unfold parseAccounting.
  destruct (fold_left _ parameters _). reflexivity.
Qed.

(** The only error of [ParseMessage] is the one for a short buffer. *)
Lemma ParseMessage_error_short (data : list byte) (msgType : string)
    (m : Message Time) (e : error) :
  ParseMessage data msgType = Done (m, Some e) ->
  len data < 36 /\
  e = Errorf "message too short to be a valid PCF message".
Proof.
  intros H.
  destruct (Z.ltb_spec (len data) 36) as [Hshort|Hlong].
  - split; [exact Hshort|]. unfold ParseMessage in H.
    destruct (Z.ltb_spec (len data) 36); [|lia].
    injection H as _ <-. reflexivity.
  - destruct (ParseMessage_dispatch data msgType Hlong)
      as (header & parameters & _ & _ & Heq).
    rewrite Heq in H. cbv zeta in H.
    destruct ((h_Command header =? MQCMD_STATISTICS_Q)
              || (h_Command header =? MQCMD_STATISTICS_CHANNEL)
              || (h_Command header =? MQCMD_STATISTICS_MQI));
      [|destruct ((h_Command header =? MQCMD_ACCOUNTING_Q)
                  || (h_Command header =? MQCMD_ACCOUNTING_MQI))];
      rewrite ?parseStatistics_error, ?parseAccounting_error in H;
      discriminate H.
Qed.

(** C2. [ParseMessage] returns, for every buffer and every [msgType]; its
    error is non-nil exactly when the buffer is shorter than 36 bytes, and
    on a buffer of at least 36 bytes the record is non-nil and the error is
    nil. *)
Theorem ParseMessage_error_iff (data : list byte) (msgType : string) :
  exists m e,
    ParseMessage data msgType = Done (m, e) /\
    (is_Some e <-> len data < 36) /\
    (len data < 36 -> m = MNil) /\
    (36 <= len data -> m <> MNil /\ e = None).
Proof.
  destruct (Z.ltb_spec (len data) 36) as [Hshort|Hlong].
  - exists MNil, (Some (Errorf "message too short to be a valid PCF message")).
    split; [|split; [|split]].
    + unfold ParseMessage.
      destruct (Z.ltb_spec (len data) 36); [reflexivity | lia].
    + split; [intros _; exact Hshort | eauto].
    + reflexivity.
    + lia.
  - destruct (ParseMessage_dispatch data msgType Hlong)
      as (header & parameters & _ & _ & ->).
    cbv zeta.
    destruct ((h_Command header =? MQCMD_STATISTICS_Q)
              || (h_Command header =? MQCMD_STATISTICS_CHANNEL)
              || (h_Command header =? MQCMD_STATISTICS_MQI));
      [|destruct ((h_Command header =? MQCMD_ACCOUNTING_Q)
                  || (h_Command header =? MQCMD_ACCOUNTING_MQI))];
      rewrite ?parseStatistics_error, ?parseAccounting_error;
      (eexists _, _; split; [reflexivity|]);
      (split; [split; [intros [? [=]] | lia] | split; [lia|]]);
      intros _; (split; [discriminate | reflexivity]).
Qed.

(** C10. [parseParameters] returns a nil error on every buffer and count,
    and [ParseMessage] never returns the error that wraps a failure of
    [parseParameters]. *)
Theorem parseParameters_error_nil (data : list byte) (count : Z)
    (msgType : string) :
  (exists result, parseParameters data count = Done (result, None)) /\
  (forall m inner,
     ParseMessage data msgType
     <> Done (m, Some (Wrapf "failed to parse PCF parameters" inner))).
Proof.
  split; [apply parseParameters_Done|].
  intros m inner H.
  apply ParseMessage_error_short in H as [_ H]. discriminate H.
Qed.

(** C6 (as amended). An unrecognised command code: on a buffer of at least
    36 bytes whose command code is none of the statistics and accounting
    codes, [ParseMessage] returns, with a nil error, a [StatisticsData]
    whose [Type] is the [msgType] argument (so "statistics" when the caller
    passes "statistics"), whose timestamp is the clock reading, whose map
    holds an entry for every decoded parameter, and which has no queue
    manager name and no queue, channel or MQI sub-record. *)
Theorem ParseMessage_unknown_command (data : list byte) (msgType : string)
    (header : PCFHeader) :
  36 <= len data ->
  parseHeader data = Done (Some header, None) ->
  knownCommand (h_Command header) = false ->
  exists parameters,
    parseParameters (drop 36 data) (h_ParameterCount header)
    = Done (parameters, None) /\
    ParseMessage data msgType
    = Done (MStatistics
              (mkStatisticsData Time msgType EmptyString time_Now
                 (convertParameters parameters) None None None),
            None) /\
    (forall param, param ∈ parameters ->
       is_Some (convertParameters parameters
                  !! paramKey (p_Parameter param))) /\
    (msgType = "statistics" ->
     ParseMessage data "statistics"
     = Done (MStatistics
               (mkStatisticsData Time "statistics" EmptyString time_Now
                  (convertParameters parameters) None None None),
             None)).
Proof.
  intros Hlen Hh Hunknown.
  destruct (ParseMessage_dispatch data msgType Hlen)
    as (header' & parameters & Hh' & Hp & Heq).
  assert (header' = header) as -> by congruence.
  unfold knownCommand in Hunknown.
  repeat (apply orb_false_elim in Hunknown as [Hunknown ?]).
  cbv zeta in Heq.
  assert (((h_Command header =? MQCMD_STATISTICS_Q)
           || (h_Command header =? MQCMD_STATISTICS_CHANNEL)
           || (h_Command header =? MQCMD_STATISTICS_MQI)) = false) as E1
    by (rewrite !orb_false_iff; auto).
  assert (((h_Command header =? MQCMD_ACCOUNTING_Q)
           || (h_Command header =? MQCMD_ACCOUNTING_MQI)) = false) as E2
    by (rewrite !orb_false_iff; auto).
  rewrite E1, E2 in Heq.
  exists parameters. split; [exact Hp|]. split; [exact Heq|].
  split; [intros param; apply convertParameters_key|].
  intros <-. exact Heq.
Qed.

End ParserProperties.

(** ** [ParseMessage] on concrete buffers *)

Lemma ParseMessage_unknown_command_witness :
  let header := mkPCFHeader 20 36 1 0 1 0 0 0 1 in
  let data := encodeHeader header
              ++ testIntegerParameter MQIA_CURRENT_Q_DEPTH 100 in
  36 <= len data /\
  parseHeader data = Done (Some header, None) /\
  knownCommand (h_Command header) = false /\
  exists parameters,
    parseParameters (drop 36 data) (h_ParameterCount header)
    = Done (parameters, None) /\
    ParseMessage Z 0 1700000000 (fun _ _ => None) data "accounting"
    = Done (MStatistics
              (mkStatisticsData Z "accounting" EmptyString 1700000000
                 (convertParameters parameters) None None None),
            None).
Proof.
  intros header data.
  assert (36 <= len data) as Hlen by (vm_compute; discriminate).
  assert (parseHeader data = Done (Some header, None)) as Hh by reflexivity.
  assert (knownCommand (h_Command header) = false) as Hk by reflexivity.
  refine (conj Hlen (conj Hh (conj Hk _))).
  destruct (ParseMessage_unknown_command 0 1700000000 (fun _ _ => None)
              data "accounting" header Hlen Hh Hk)
    as (parameters & Hp & Heq & _).
  exists parameters. exact (conj Hp Heq).
Defined.

(** C6 (as stated) fails: with an unrecognised command code the [Type] of
    the record is the [msgType] argument, here "accounting", and not
    "statistics". *)
Lemma ParseMessage_unknown_command_counterexample :
  ~ (forall (data : list byte) (msgType : string) (header : PCFHeader),
       36 <= len data ->
       parseHeader data = Done (Some header, None) ->
       knownCommand (h_Command header) = false ->
       exists stats,
         ParseMessage Z 0 1700000000 (fun _ _ => None) data msgType
         = Done (MStatistics stats, None) /\
         sd_Type Z stats = "statistics").
Proof.
  intros H.
  destruct (H (encodeHeader (mkPCFHeader 20 36 1 0 1 0 0 0 0)) "accounting"
              (mkPCFHeader 20 36 1 0 1 0 0 0 0))
    as (stats & Heq & Hty).
  - vm_compute. discriminate.
  - reflexivity.
  - reflexivity.
  - vm_compute in Heq. injection Heq as <-. discriminate Hty.
Qed.

(** ** The cases of the test suite, replayed on the model *)

(** [TestPCFParser_CleanString] *)
Example cleanString_plain : cleanString "TEST.QUEUE" = "TEST.QUEUE".
Proof. reflexivity. Qed.

Example cleanString_padded :
  cleanString ("TEST.QUEUE" +:+ String "000" (String "000" EmptyString))
  = "TEST.QUEUE".
Proof. reflexivity. Qed.

Example cleanString_spaces : cleanString "  TEST.QUEUE  " = "  TEST.QUEUE  ".
Proof. reflexivity. Qed.

Example cleanString_embedded :
  cleanString ("TEST" +:+ String "000" "MORE") = "TEST".
Proof. reflexivity. Qed.

(** [TestPCFParser_ParseParameters] *)
Example parseParameters_queue_name :
  parseParameters
    (createTestPCFParameter MQCA_Q_NAME MQCFT_STRING "TEST.QUEUE") 1
  = Done ([mkPCFParameter MQCA_Q_NAME MQCFT_STRING 24 (VString "TEST.QUEUE")],
          None).
Proof. reflexivity. Qed.

(** [TestPCFParser_ParameterExtraction], integer case *)
Example parseParameters_integer :
  parseParameters (testIntegerParameter MQIA_CURRENT_Q_DEPTH 100) 1
  = Done ([mkPCFParameter MQIA_CURRENT_Q_DEPTH MQCFT_INTEGER 16 (VInt32 100)],
          None).
Proof. reflexivity. Qed.

(** [TestPCFParser_ParseQueueStats] *)
Example parseQueueStats_test :
  parseQueueStats
    [mkPCFParameter MQCA_Q_NAME MQCFT_STRING 0 (VString "TEST.QUEUE");
     mkPCFParameter MQIA_CURRENT_Q_DEPTH MQCFT_INTEGER 0 (VInt32 100);
     mkPCFParameter MQIA_HIGH_Q_DEPTH MQCFT_INTEGER 0 (VInt32 500);
     mkPCFParameter MQIA_OPEN_INPUT_COUNT MQCFT_INTEGER 0 (VInt32 2);
     mkPCFParameter MQIA_OPEN_OUTPUT_COUNT MQCFT_INTEGER 0 (VInt32 1);
     mkPCFParameter MQIA_MSG_ENQ_COUNT MQCFT_INTEGER 0 (VInt32 1000);
     mkPCFParameter MQIA_MSG_DEQ_COUNT MQCFT_INTEGER 0 (VInt32 900)]
  = mkQueueStatistics "TEST.QUEUE" 100 500 2 1 1000 900 true true.
Proof. reflexivity. Qed.

(** [TestPCFParser_ErrorHandling], "too short data" *)
Example ParseMessage_too_short :
  ParseMessage Z 0 1700000000 (fun _ _ => None) (replicate 10 x00)
    "statistics"
  = Done (MNil,
          Some (Errorf "message too short to be a valid PCF message")).
Proof. reflexivity. Qed.

(** A multi-byte code point and an invalid byte are passed over by the
    loop of [cleanString]; the NUL after them ends the string. *)
Example cleanString_non_ascii :
  cleanString (String "195" (String "169" (String "255"
                 (String "000" "x"))))
  = String "195" (String "169" (String "255" EmptyString)).
Proof. reflexivity. Qed.

(** * Further properties of the decoder *)

(** ** The header: from the bytes back to the bytes *)

Lemma byte_of_val (b : byte) : byte_of (byte_val b) = b.
Proof.
  unfold byte_of. pose proof (byte_val_range b) as Hb.
  rewrite Z.mod_small by lia. unfold byte_val.
  rewrite N2Z.id, Byte.of_to_N. reflexivity.
Qed.

Lemma testbit_byte_val (b : byte) (n : Z) :
  Z.testbit (byte_val b) n = (n <? 8) && Z.testbit (byte_val b) n.
Proof.
  rewrite <- testbit_byte. f_equal. symmetry.
  apply Z.mod_small, byte_val_range.
Qed.

Lemma testbit_shifted_val (b : byte) (k n : Z) :
  0 <= k -> 0 <= n ->
  Z.testbit (Z.shiftl (byte_val b) k) n
  = (k <=? n) && (n <? k + 8) && Z.testbit (byte_val b) (n - k).
Proof.
  intros Hk Hn. rewrite Z.shiftl_spec by lia.
  destruct (Z.leb_spec k n) as [Hle|Hlt]; simpl.
  - rewrite testbit_byte_val.
    destruct (Z.ltb_spec (n - k) 8), (Z.ltb_spec n (k + 8)); try lia;
      reflexivity.
  - apply Z.testbit_neg_r. lia.
Qed.

Lemma Uint32_bytes (b0 b1 b2 b3 : byte) (u : Z) :
  Uint32 [b0; b1; b2; b3] = Done u ->
  PutUint32 u = [b0; b1; b2; b3].
Proof.
  intros [= <-]. unfold PutUint32.
  set (u := Z.lor _ _).
  assert (forall n, 0 <= n ->
            Z.testbit u n
            = (n <? 8) && Z.testbit (byte_val b0) n
              || (8 <=? n) && (n <? 8 + 8) && Z.testbit (byte_val b1) (n - 8)
              || (16 <=? n) && (n <? 16 + 8)
                 && Z.testbit (byte_val b2) (n - 16)
              || (24 <=? n) && (n <? 24 + 8)
                 && Z.testbit (byte_val b3) (n - 24)) as Hu.
  { intros n Hn. unfold u.
    rewrite !Z.lor_spec, !testbit_shifted_val, <- testbit_byte_val by lia.
    reflexivity. }
  assert (forall (b : byte) k,
            0 <= k ->
            (forall n, 0 <= n -> n < 8 ->
               Z.testbit u (n + k) = Z.testbit (byte_val b) n) ->
            byte_of (Z.shiftr u k) = b) as Hbyte.
  { intros b k Hk Hbits. rewrite <- (byte_of_val b). unfold byte_of.
    replace (Z.shiftr u k mod 256) with (byte_val b mod 256); [reflexivity|].
    apply Z.bits_inj'. intros n Hn. rewrite !testbit_byte.
    destruct (Z.ltb_spec n 8); [|reflexivity]. simpl.
    rewrite Z.shiftr_spec by lia. symmetry. apply Hbits; lia. }
  rewrite <- (Z.shiftr_0_r u) at 1.
  rewrite (Hbyte b0 0), (Hbyte b1 8), (Hbyte b2 16), (Hbyte b3 24);
    try lia; try reflexivity.
  all: intros n Hn Hn8; rewrite Hu by lia.
  all: repeat match goal with
       | |- context [?a <? ?b] => destruct (Z.ltb_spec a b); try lia
       | |- context [?a <=? ?b] => destruct (Z.leb_spec a b); try lia
       end; simpl; rewrite ?orb_false_r; try reflexivity.
  all: f_equal; lia.
Qed.

Lemma uint32_of_int32_of_uint32 (u : Z) :
  0 <= u < 2 ^ 32 -> uint32_of_int32 (int32_of_uint32 u) = u.
Proof.
  intros Hu. unfold uint32_of_int32, int32_of_uint32.
  destruct (Z.ltb_spec u (2 ^ 31)).
  - apply Z.mod_small. lia.
  - symmetry. apply (Z.mod_unique _ _ (-1)); lia.
Qed.

Lemma readInt32_bytes (data : list byte) (k v : Z) :
  0 <= k -> readInt32 data k = Done v ->
  is_int32 v /\
  PutUint32 (uint32_of_int32 v) = take 4 (drop (Z.to_nat k) data).
Proof.
  intros Hk. unfold readInt32, slice.
  destruct ((0 <=? k) && (k <=? k + 4) && (k + 4 <=? len data)) eqn:Hc;
    [|discriminate].
  apply andb_true_iff in Hc as [_ Hc]. apply Z.leb_le in Hc.
  replace (k + 4 - k) with 4 by lia. change (Z.to_nat 4) with 4%nat.
  unfold mbind, outcome_bind, mret, outcome_ret.
  assert (4 <= length (drop (Z.to_nat k) data))%nat as Hlen
    by (rewrite length_drop; unfold len in Hc; lia).
  destruct (drop (Z.to_nat k) data) as [|b0 [|b1 [|b2 [|b3 rest]]]];
    simpl in Hlen; try lia.
  cbn [take Uint32]. intros [= <-].
  set (u := Z.lor _ _).
  assert (Uint32 [b0; b1; b2; b3] = Done u) as Hu by reflexivity.
  pose proof (Uint32_range _ _ Hu) as Hr.
  split; [apply int32_of_uint32_range; exact Hr|].
  rewrite uint32_of_int32_of_uint32 by exact Hr.
  apply Uint32_bytes. exact Hu.
Qed.

Lemma slice_app_l (pre post : list byte) (lo hi : Z) :
  hi <= len pre -> slice (pre ++ post) lo hi = slice pre lo hi.
Proof.
  intros Hhi. unfold slice. rewrite len_app.
  pose proof (len_nonneg post) as Hpost.
  destruct (Z.leb_spec 0 lo); simpl; [|reflexivity].
  destruct (Z.leb_spec lo hi); simpl; [|reflexivity].
  destruct (Z.leb_spec hi (len pre)); [|lia].
  destruct (Z.leb_spec hi (len pre + len post)); [|lia].
  f_equal. unfold len in *.
  rewrite drop_app_le by lia. apply take_app_le.
  rewrite length_drop. lia.
Qed.

Lemma readInt32_app_l (pre post : list byte) (lo : Z) :
  lo + 4 <= len pre -> readInt32 (pre ++ post) lo = readInt32 pre lo.
Proof.
  intros H. unfold readInt32. rewrite slice_app_l by exact H. reflexivity.
Qed.

Lemma parseHeader_app (pre post : list byte) :
  36 <= len pre -> parseHeader (pre ++ post) = parseHeader pre.
Proof.
  intros H. unfold parseHeader. rewrite len_app.
  pose proof (len_nonneg post).
  destruct (Z.ltb_spec (len pre + len post) 36); [lia|].
  destruct (Z.ltb_spec (len pre) 36); [lia|].
  rewrite !readInt32_app_l by lia. reflexivity.
Qed.

(** X1. The header decoder loses nothing: on a buffer of at least 36 bytes
    [parseHeader] returns a header of nine int32 fields whose little-endian
    encoding is the first 36 bytes of the buffer; bytes after the header do
    not matter. *)
Theorem encodeHeader_parseHeader (data : list byte) :
  36 <= len data ->
  exists h,
    parseHeader data = Done (Some h, None) /\
    wf_header h /\
    encodeHeader h = take 36 data /\
    parseHeader (take 36 data) = Done (Some h, None).
Proof.
  intros Hlen.
  assert (forall d, 36 <= len d ->
            exists h, parseHeader d = Done (Some h, None) /\ wf_header h /\
                      encodeHeader h = take 36 d) as Hone.
  { clear data Hlen. intros data Hlen. unfold parseHeader.
    destruct (Z.ltb_spec (len data) 36); [lia|].
    destruct (readInt32_Done data 0) as (f0 & E0 & _); [lia..|].
    destruct (readInt32_Done data 4) as (f1 & E1 & _); [lia..|].
    destruct (readInt32_Done data 8) as (f2 & E2 & _); [lia..|].
    destruct (readInt32_Done data 12) as (f3 & E3 & _); [lia..|].
    destruct (readInt32_Done data 16) as (f4 & E4 & _); [lia..|].
    destruct (readInt32_Done data 20) as (f5 & E5 & _); [lia..|].
    destruct (readInt32_Done data 24) as (f6 & E6 & _); [lia..|].
    destruct (readInt32_Done data 28) as (f7 & E7 & _); [lia..|].
    destruct (readInt32_Done data 32) as (f8 & E8 & _); [lia..|].
    rewrite E0, E1, E2, E3, E4, E5, E6, E7, E8.
    eexists. split; [reflexivity|].
    apply readInt32_bytes in E0 as [W0 B0]; [|lia].
    apply readInt32_bytes in E1 as [W1 B1]; [|lia].
    apply readInt32_bytes in E2 as [W2 B2]; [|lia].
    apply readInt32_bytes in E3 as [W3 B3]; [|lia].
    apply readInt32_bytes in E4 as [W4 B4]; [|lia].
    apply readInt32_bytes in E5 as [W5 B5]; [|lia].
    apply readInt32_bytes in E6 as [W6 B6]; [|lia].
    apply readInt32_bytes in E7 as [W7 B7]; [|lia].
    apply readInt32_bytes in E8 as [W8 B8]; [|lia].
    split; [unfold wf_header; simpl; tauto|].
    unfold encodeHeader. cbn [h_Type h_StrucLength h_Version h_Command
      h_MsgSeqNumber h_Control h_CompCode h_Reason h_ParameterCount].
    rewrite B0, B1, B2, B3, B4, B5, B6, B7, B8.
    change (Z.to_nat 0) with 0%nat. change (Z.to_nat 4) with 4%nat.
    change (Z.to_nat 8) with 8%nat. change (Z.to_nat 12) with 12%nat.
    change (Z.to_nat 16) with 16%nat. change (Z.to_nat 20) with 20%nat.
    change (Z.to_nat 24) with 24%nat. change (Z.to_nat 28) with 28%nat.
    change (Z.to_nat 32) with 32%nat.
    assert (forall k k' m,
              k' = (k + 4)%nat ->
              take 4 (drop k data) ++ take m (drop k' data)
              = take (4 + m) (drop k data)) as Hjoin.
    { intros k k' m ->. rewrite <- (drop_drop data 4 k).
      apply take_take_drop. }
    rewrite (Hjoin 28%nat 32%nat 4%nat eq_refl),
      (Hjoin 24%nat 28%nat _ eq_refl), (Hjoin 20%nat 24%nat _ eq_refl),
      (Hjoin 16%nat 20%nat _ eq_refl), (Hjoin 12%nat 16%nat _ eq_refl),
      (Hjoin 8%nat 12%nat _ eq_refl), (Hjoin 4%nat 8%nat _ eq_refl),
      (Hjoin 0%nat 4%nat _ eq_refl).
    reflexivity. }
  destruct (Hone data Hlen) as (h & Hh & Hwf & Henc).
  exists h. split; [exact Hh|]. split; [exact Hwf|]. split; [exact Henc|].
  rewrite <- Hh. rewrite <- (take_drop 36 data) at 2.
  symmetry. apply parseHeader_app.
  unfold len in *. rewrite length_take. lia.
Qed.

Lemma encodeHeader_parseHeader_witness :
  let data := replicate 36 xff ++ [x01; x02] in
  36 <= len data /\
  exists h,
    parseHeader data = Done (Some h, None) /\
    wf_header h /\
    encodeHeader h = take 36 data /\
    parseHeader (take 36 data) = Done (Some h, None).
Proof.
  intros data.
  assert (36 <= len data) as Hlen by (vm_compute; discriminate).
  exact (conj Hlen (encodeHeader_parseHeader data Hlen)).
Defined.

(** ** [cleanString]: what the result looks like *)

Lemma truncateAtNUL_hasNUL (s : string) : hasNUL (truncateAtNUL s) = false.
Proof.
  induction s as [|c s IH]; [reflexivity|]. cbn [truncateAtNUL].
  destruct (Z.eqb_spec (char_val c) 0) as [H0|H0]; [reflexivity|].
  cbn [hasNUL]. rewrite IH.
  destruct (Z.eqb_spec (char_val c) 0); [contradiction | reflexivity].
Qed.

Lemma truncateAtNUL_prefix (s : string) :
  exists rest, s = truncateAtNUL s +:+ rest.
Proof.
  induction s as [|c s [rest IH]]; [exists EmptyString; reflexivity|].
  cbn [truncateAtNUL]. destruct (char_val c =? 0).
  - exists (String c s). reflexivity.
  - exists rest. rewrite append_cons. f_equal. exact IH.
Qed.

Lemma truncateAtNUL_length (s : string) :
  (String.length (truncateAtNUL s) <= String.length s)%nat.
Proof.
  induction s as [|c s IH]; [reflexivity|]. cbn [truncateAtNUL].
  destruct (char_val c =? 0); cbn [String.length]; lia.
Qed.

(** X2. [cleanString] returns a prefix of its argument that holds no NUL
    byte; applying it twice changes nothing more, and a string without NUL
    comes back unchanged. *)
Theorem cleanString_result (s : string) :
  hasNUL (cleanString s) = false /\
  (exists rest, s = cleanString s +:+ rest) /\
  cleanString (cleanString s) = cleanString s /\
  (String.length (cleanString s) <= String.length s)%nat /\
  (hasNUL s = false <-> cleanString s = s).
Proof.
  rewrite !cleanString_truncateAtNUL.
  split; [apply truncateAtNUL_hasNUL|].
  split; [apply truncateAtNUL_prefix|].
  split; [apply truncateAtNUL_noNUL, truncateAtNUL_hasNUL|].
  split; [apply truncateAtNUL_length|].
  split; [apply truncateAtNUL_noNUL|].
  intros <-. apply truncateAtNUL_hasNUL.
Qed.

(** ** What [parseParameters] returns *)

Lemma string_of_list_byte_length (b : list byte) :
  String.length (String.string_of_list_byte b) = length b.
Proof.
  induction b as [|x b IH]; [reflexivity|].
  change (String.string_of_list_byte (x :: b))
    with (String (ascii_of_byte x) (String.string_of_list_byte b)).
  cbn [String.length length]. f_equal. exact IH.
Qed.

Lemma parseValue_fits (data : list byte) (offset tag ty L : Z) (v : Value) :
  0 <= offset -> 12 <= L <= 65536 -> offset + L <= len data ->
  parseValue data offset ty L = Done v ->
  valueFits (mkPCFParameter tag ty L v).
Proof.
  intros Ho HL Hfit. unfold parseValue, valueFits. cbn [p_Value p_Type p_Length].
  destruct (Z.eqb_spec ty MQCFT_INTEGER) as [->|_].
  { destruct (Z.leb_spec 16 L); [|intros [= <-]; exact I].
    destruct (readInt32_Done data (offset + 12)) as (x & -> & Hx); [lia..|].
    intros [= <-]. auto. }
  rewrite (int32_sub_small L HL).
  destruct (Z.eqb_spec ty MQCFT_STRING) as [->|_].
  { destruct (Z.ltb_spec 12 L); [|intros [= <-]; exact I].
    destruct (slice data (offset + 12) (offset + 12 + (L - 12)))
      as [b| |] eqn:Hb; try discriminate.
    intros [= <-]. apply slice_length in Hb.
    rewrite cleanString_truncateAtNUL.
    split; [reflexivity|]. split; [lia|].
    split; [apply truncateAtNUL_hasNUL|].
    pose proof (truncateAtNUL_length (String.string_of_list_byte b)) as Hle.
    rewrite string_of_list_byte_length in Hle. unfold len in Hb. lia. }
  destruct (Z.eqb_spec ty MQCFT_BYTE_STRING) as [->|_];
    [|intros [= <-]; exact I].
  destruct (Z.ltb_spec 12 L); [|intros [= <-]; exact I].
  destruct (slice data (offset + 12) (offset + 12 + (L - 12)))
    as [b| |] eqn:Hb; try discriminate.
  intros [= <-]. apply slice_length in Hb.
  split; [reflexivity|]. split; lia.
Qed.

Lemma extents_snoc (parameters : list PCFParameter) (param : PCFParameter) :
  extents (parameters ++ [param])
  = extents parameters + roundUp4 (p_Length param).
Proof.
  induction parameters as [|p ps IH]; cbn [extents app]; lia.
Qed.

Lemma extents_lower (parameters : list PCFParameter) :
  Forall (fun p => 12 <= p_Length p) parameters ->
  12 * len parameters <= extents parameters.
Proof.
  induction 1 as [|p ps Hp _ IH]; [reflexivity|].
  cbn [extents]. unfold len in *. cbn [length].
  destruct (roundUp4_spec (p_Length p)) as [_ Hr]. lia.
Qed.

(** The state of the loop: the cursor is where the padded parameters end,
    every parameter is within bounds and its value fits its type. *)
Lemma reaches_invariant (data : list byte) (offset : Z)
    (parameters : list PCFParameter) :
  reaches data offset parameters ->
  offset = extents parameters /\
  offset < len data + 4 /\
  (parameters <> [] -> 12 * len parameters <= len data) /\
  Forall (fun p => 12 <= p_Length p <= 65536 /\ is_int32 (p_Parameter p) /\
                   is_int32 (p_Type p) /\ valueFits p) parameters.
Proof.
  induction 1 as [|offset parameters param offset' Hreach IH Hlt Hbody].
  - split; [reflexivity|]. pose proof (len_nonneg data).
    split; [lia|]. split; [congruence | constructor].
  - destruct IH as (Hoff & _ & _ & Hall).
    destruct (reaches_cursor _ _ _ Hreach) as [Ho Hal].
    pose proof Hbody as Hinv.
    apply parseBody_Next_inv in Hinv
      as (H12 & Htag & Hty & _ & HL & Hfit & Hv & ->); [|exact Ho].
    rewrite align4_aligned by lia.
    destruct (roundUp4_spec (p_Length param)) as [_ Hr].
    split; [rewrite extents_snoc; lia|]. split; [lia|]. split.
    + intros _. rewrite len_app. change (len [param]) with 1.
      assert (12 * len parameters <= extents parameters) as Hlow.
      { apply extents_lower. eapply Forall_impl; [exact Hall|].
        intros p Hp. simpl in Hp. lia. }
      lia.
    + apply Forall_app. split; [exact Hall|]. constructor; [|constructor].
      split; [exact HL|].
      unfold declaredTag in Htag. unfold declaredType in Hty.
      destruct (readInt32_Done data offset) as (x & Hx & Hxr); [lia..|].
      destruct (readInt32_Done data (offset + 4)) as (y & Hy & Hyr); [lia..|].
      rewrite Hx in Htag. rewrite Hy in Hty.
      injection Htag as <-. injection Hty as <-.
      split; [exact Hxr|]. split; [exact Hyr|].
      destruct param as [tag ty L v]. cbn [p_Value p_Type p_Length] in *.
      apply (parseValue_fits data offset tag ty L v); assumption.
Qed.

Lemma parseLoop_reaches (fuel : nat) (data : list byte) (offset : Z)
    (parameters result : list PCFParameter) :
  reaches data offset parameters ->
  parseLoop fuel data offset parameters = Done result ->
  exists offset', reaches data offset' result.
Proof.
  revert offset parameters.
  induction fuel as [|fuel IH]; intros offset parameters Hr H; [discriminate|].
  cbn [parseLoop] in H.
  destruct (Z.ltb_spec offset (len data)) as [Hlt|Hge];
    [|injection H as <-; eauto].
  destruct (parseBody data offset) as [[|param offset']| |] eqn:Hbody;
    unfold mbind, outcome_bind in H; try discriminate.
  - injection H as <-. eauto.
  - apply (IH offset' (parameters ++ [param])); [|exact H].
    apply (reaches_next data offset parameters param offset' Hr Hlt Hbody).
Qed.

(** X3. Everything [parseParameters] returns is within bounds: a declared
    length between 12 and 65536, at most [len(data)/12] parameters whose
    padded extents end less than 4 bytes past the buffer, and a value that
    fits the type tag: an int32 only under [MQCFT_INTEGER] with length at
    least 16, a NUL-free string no longer than the payload only under
    [MQCFT_STRING], a byte slice of exactly the payload length only under
    [MQCFT_BYTE_STRING]. *)
Theorem parseParameters_result_bounds (data : list byte) (count : Z)
    (result : list PCFParameter) (e : option error) :
  parseParameters data count = Done (result, e) ->
  e = None /\
  12 * len result <= len data /\
  extents result < len data + 4 /\
  Forall (fun p => 12 <= p_Length p <= 65536 /\ is_int32 (p_Parameter p) /\
                   is_int32 (p_Type p) /\ valueFits p) result.
Proof.
  intros H. unfold parseParameters in H.
  destruct (parseLoop (S (length data)) data 0 []) as [r| |] eqn:Hloop;
    try discriminate.
  injection H as <- <-.
  destruct (parseLoop_reaches _ _ _ _ _ (reaches_start data) Hloop)
    as [offset' Hreach].
  destruct (reaches_invariant _ _ _ Hreach) as (Hoff & Hend & Hcount & Hall).
  split; [reflexivity|]. split; [|split; [lia | exact Hall]].
  destruct r as [|p r]; [|apply Hcount; discriminate].
  pose proof (len_nonneg data). change (len (@nil PCFParameter)) with 0. lia.
Qed.

Lemma parseParameters_result_bounds_witness :
  let data := createTestPCFParameter MQCA_Q_NAME MQCFT_STRING "TEST.QUEUE"
              ++ testIntegerParameter MQIA_CURRENT_Q_DEPTH 100 in
  exists result,
    parseParameters data 2 = Done (result, None) /\
    12 * len result <= len data /\
    extents result < len data + 4.
Proof.
  intros data.
  destruct (parseParameters data 2) as [[result e]| |] eqn:H;
    [|discriminate H..].
  destruct (parseParameters_result_bounds data 2 result e H)
    as (-> & Hcount & Hext & _).
  exists result. exact (conj eq_refl (conj Hcount Hext)).
Defined.

(** ** Integer and byte-string parameters *)

Lemma parseValue_integer (data : list byte) (offset L : Z) :
  parseValue data offset MQCFT_INTEGER L
  = if 16 <=? L then v ← readInt32 data (offset + 12); mret (VInt32 v)
    else Done VNil.
Proof. reflexivity. Qed.

Lemma parseValue_byte_string (data : list byte) (offset L : Z) :
  0 <= offset -> 12 <= L <= 65536 -> offset + L <= len data ->
  parseValue data offset MQCFT_BYTE_STRING L
  = if 12 <? L then
      Done (VBytes (take (Z.to_nat (L - 12))
                      (drop (Z.to_nat (offset + 12)) data)))
    else Done VNil.
Proof.
  intros Ho HL Hfit. unfold parseValue.
  change (MQCFT_BYTE_STRING =? MQCFT_INTEGER) with false.
  change (MQCFT_BYTE_STRING =? MQCFT_STRING) with false.
  change (MQCFT_BYTE_STRING =? MQCFT_BYTE_STRING) with true. cbv iota.
  destruct (Z.ltb_spec 12 L); [|reflexivity].
  rewrite (int32_sub_small L HL), slice_Done by lia.
  replace (offset + 12 + (L - 12) - (offset + 12)) with (L - 12) by lia.
  reflexivity.
Qed.

(** X4. Integer parameters: a parameter of type [MQCFT_INTEGER] with a
    declared length of at least 16 carries the int32 whose little-endian
    bytes are the four bytes after the sub-header (payload bytes after them
    are ignored); with a declared length of 12 to 15 it carries no value. *)
Theorem parseParameters_integer_value (data : list byte) (offset : Z)
    (parameters : list PCFParameter) (param : PCFParameter) (offset' : Z) :
  reaches data offset parameters ->
  parseBody data offset = Done (Next param offset') ->
  p_Type param = MQCFT_INTEGER ->
  (16 <= p_Length param ->
   exists val,
     p_Value param = VInt32 val /\ is_int32 val /\
     PutUint32 (uint32_of_int32 val)
     = take 4 (drop (Z.to_nat (offset + 12)) data)) /\
  (p_Length param < 16 -> p_Value param = VNil).
Proof.
  intros Hreach Hbody Hty.
  destruct (reaches_cursor _ _ _ Hreach) as [Ho _].
  apply parseBody_Next_inv in Hbody
    as (_ & _ & _ & _ & HL & Hfit & Hv & _); [|exact Ho].
  rewrite Hty, parseValue_integer in Hv. split.
  - intros H16. destruct (Z.leb_spec 16 (p_Length param)); [|lia].
    destruct (readInt32 data (offset + 12)) as [val| |] eqn:Hread;
      try discriminate.
    injection Hv as <-. exists val. split; [reflexivity|].
    apply readInt32_bytes; [lia | exact Hread].
  - intros H16. destruct (Z.leb_spec 16 (p_Length param)); [lia|].
    injection Hv as <-. reflexivity.
Qed.

Lemma parseParameters_integer_value_witness :
  let data := testSubHeader MQIA_CURRENT_Q_DEPTH MQCFT_INTEGER 20
              ++ PutUint32 (uint32_of_int32 (-7)) ++ [x01; x02; x03; x04] in
  let param := mkPCFParameter MQIA_CURRENT_Q_DEPTH MQCFT_INTEGER 20
                 (VInt32 (-7)) in
  parseBody data 0 = Done (Next param 20) /\
  exists val,
    p_Value param = VInt32 val /\ is_int32 val /\
    PutUint32 (uint32_of_int32 val)
    = take 4 (drop (Z.to_nat (0 + 12)) data).
Proof.
  intros data param.
  assert (parseBody data 0 = Done (Next param 20)) as Hbody by reflexivity.
  split; [exact Hbody|].
  apply (parseParameters_integer_value data 0 [] param 20
           (reaches_start data) Hbody eq_refl).
  simpl. lia.
Defined.

(** X5. Byte-string parameters: a parameter of type [MQCFT_BYTE_STRING]
    with a non-empty payload carries the payload bytes as they are (NUL
    bytes and padding included, nothing cut); with an empty payload it
    carries no value. *)
Theorem parseParameters_byte_string_value (data : list byte) (offset : Z)
    (parameters : list PCFParameter) (param : PCFParameter) (offset' : Z) :
  reaches data offset parameters ->
  parseBody data offset = Done (Next param offset') ->
  p_Type param = MQCFT_BYTE_STRING ->
  (12 < p_Length param ->
   exists b,
     p_Value param = VBytes b /\
     b = take (Z.to_nat (p_Length param - 12))
           (drop (Z.to_nat (offset + 12)) data) /\
     len b = p_Length param - 12) /\
  (p_Length param = 12 -> p_Value param = VNil).
Proof.
  intros Hreach Hbody Hty.
  destruct (reaches_cursor _ _ _ Hreach) as [Ho _].
  apply parseBody_Next_inv in Hbody
    as (_ & _ & _ & _ & HL & Hfit & Hv & _); [|exact Ho].
  rewrite Hty, parseValue_byte_string in Hv by lia. split.
  - intros H12. destruct (Z.ltb_spec 12 (p_Length param)); [|lia].
    injection Hv as <-. eexists. split; [reflexivity|].
    split; [reflexivity|].
    unfold len in *. rewrite length_take, length_drop. lia.
  - intros H12. destruct (Z.ltb_spec 12 (p_Length param)); [lia|].
    injection Hv as <-. reflexivity.
Qed.

Lemma parseParameters_byte_string_value_witness :
  let data := testSubHeader MQCA_Q_NAME MQCFT_BYTE_STRING 15
              ++ [x41; x00; x42; x00] in
  let param := mkPCFParameter MQCA_Q_NAME MQCFT_BYTE_STRING 15
                 (VBytes [x41; x00; x42]) in
  parseBody data 0 = Done (Next param 16) /\
  exists b,
    p_Value param = VBytes b /\
    b = take (Z.to_nat (15 - 12)) (drop (Z.to_nat (0 + 12)) data) /\
    len b = 15 - 12.
Proof.
  intros data param.
  assert (parseBody data 0 = Done (Next param 16)) as Hbody by reflexivity.
  split; [exact Hbody|].
  apply (parseParameters_byte_string_value data 0 [] param 16
           (reaches_start data) Hbody eq_refl).
  simpl. lia.
Defined.

(** ** Decoding a concatenation *)

Lemma slice_shift (pre data : list byte) (lo hi : Z) :
  0 <= lo ->
  slice (pre ++ data) (len pre + lo) (len pre + hi) = slice data lo hi.
Proof.
  intros Hlo. unfold slice. rewrite len_app.
  pose proof (len_nonneg pre) as Hpre.
  destruct (Z.leb_spec 0 lo); [|lia].
  destruct (Z.leb_spec 0 (len pre + lo)); [|lia].
  destruct (Z.leb_spec lo hi), (Z.leb_spec (len pre + lo) (len pre + hi));
    try lia; [|reflexivity].
  destruct (Z.leb_spec hi (len data)),
    (Z.leb_spec (len pre + hi) (len pre + len data)); try lia; [|reflexivity].
  simpl. f_equal.
  replace (len pre + hi - (len pre + lo)) with (hi - lo) by lia.
  replace (Z.to_nat (len pre + lo)) with (length pre + Z.to_nat lo)%nat
    by (unfold len; lia).
  rewrite drop_app_add. reflexivity.
Qed.

Lemma readInt32_shift (pre data : list byte) (lo : Z) :
  0 <= lo -> readInt32 (pre ++ data) (len pre + lo) = readInt32 data lo.
Proof.
  intros Hlo. unfold readInt32.
  replace (len pre + lo + 4) with (len pre + (lo + 4)) by lia.
  rewrite slice_shift by exact Hlo. reflexivity.
Qed.

Lemma parseValue_shift (pre data : list byte) (offset ty L : Z) :
  0 <= offset ->
  parseValue (pre ++ data) (len pre + offset) ty L
  = parseValue data offset ty L.
Proof.
  intros Ho. unfold parseValue.
  replace (len pre + offset + 12) with (len pre + (offset + 12)) by lia.
  rewrite readInt32_shift by lia.
  replace (len pre + (offset + 12) + int32_sub L 12)
    with (len pre + (offset + 12 + int32_sub L 12)) by lia.
  rewrite slice_shift by lia. reflexivity.
Qed.

Lemma parseValue_app_l (pre post : list byte) (offset ty L : Z) :
  12 <= L <= 65536 -> offset + L <= len pre ->
  parseValue (pre ++ post) offset ty L = parseValue pre offset ty L.
Proof.
  intros HL Hfit. unfold parseValue. rewrite (int32_sub_small L HL).
  destruct (ty =? MQCFT_INTEGER).
  { destruct (Z.leb_spec 16 L); [|reflexivity].
    rewrite readInt32_app_l by lia. reflexivity. }
  rewrite slice_app_l by lia. reflexivity.
Qed.

(** An iteration that decodes a parameter reads only the bytes of that
    parameter: bytes appended to the buffer do not change it. *)
Lemma parseBody_app_l (pre post : list byte) (offset : Z)
    (param : PCFParameter) (offset' : Z) :
  0 <= offset ->
  parseBody pre offset = Done (Next param offset') ->
  parseBody (pre ++ post) offset = Done (Next param offset').
Proof.
  intros Ho Hbody. pose proof Hbody as Hinv.
  apply parseBody_Next_inv in Hinv
    as (H12 & Htag & Hty & Hlen & HL & Hfit & Hv & ->); [|exact Ho].
  destruct param as [tag ty L v]. cbn [p_Parameter p_Type p_Length p_Value] in *.
  pose proof (len_nonneg post) as Hpost.
  destruct (parseBody_Next (pre ++ post) offset tag ty L) as (v' & Hv' & ->);
    try assumption; rewrite ?len_app; try lia.
  - unfold declaredTag in *. rewrite readInt32_app_l by lia. exact Htag.
  - unfold declaredType in *. rewrite readInt32_app_l by lia. exact Hty.
  - unfold declaredLength in *. rewrite readInt32_app_l by lia. exact Hlen.
  - rewrite parseValue_app_l in Hv' by lia. congruence.
Qed.

Lemma reaches_app_l (pre post : list byte) (offset : Z)
    (parameters : list PCFParameter) :
  reaches pre offset parameters -> reaches (pre ++ post) offset parameters.
Proof.
  induction 1 as [|offset parameters param offset' Hreach IH Hlt Hbody];
    [constructor|].
  destruct (reaches_cursor _ _ _ Hreach) as [Ho _].
  apply (reaches_next _ offset parameters param offset' IH).
  - rewrite len_app. pose proof (len_nonneg post). lia.
  - apply parseBody_app_l; assumption.
Qed.

Lemma roundUp4_shift (a x : Z) :
  a mod 4 = 0 -> roundUp4 (a + x) = a + roundUp4 x.
Proof. intros Ha. unfold roundUp4. Z.div_mod_to_equations. lia. Qed.

(** The loop does not look behind the cursor: in front of a 4-byte aligned
    prefix it behaves as on the rest of the buffer alone. *)
Lemma parseBody_shift (pre data : list byte) (offset : Z) :
  0 <= offset -> len pre mod 4 = 0 ->
  parseBody (pre ++ data) (len pre + offset)
  = match parseBody data offset with
    | Done (Next param offset') => Done (Next param (len pre + offset'))
    | r => r
    end.
Proof.
  intros Ho Hal. pose proof (len_nonneg pre) as Hpre.
  destruct (Z.ltb_spec (len data) (offset + 12)) as [Hs|Hs].
  { rewrite !parseBody_short by (rewrite ?len_app; lia). reflexivity. }
  destruct (declared_Done data offset Ho Hs) as (tag & ty & L & Ht & Hy & HL).
  assert (declaredTag (pre ++ data) (len pre + offset) = Done tag) as Ht'
    by (unfold declaredTag in *; rewrite readInt32_shift by lia; exact Ht).
  assert (declaredType (pre ++ data) (len pre + offset) = Done ty) as Hy'.
  { unfold declaredType in *.
    replace (len pre + offset + 4) with (len pre + (offset + 4)) by lia.
    rewrite readInt32_shift by lia. exact Hy. }
  assert (declaredLength (pre ++ data) (len pre + offset) = Done L) as HL'.
  { unfold declaredLength in *.
    replace (len pre + offset + 8) with (len pre + (offset + 8)) by lia.
    rewrite readInt32_shift by lia. exact HL. }
  assert (L < 12 \/ 65536 < L \/ len data < offset + L \/
          (12 <= L <= 65536 /\ offset + L <= len data)) as Hcase by lia.
  destruct Hcase as [Hbad|[Hbad|[Hbad|[Hrange Hfit]]]].
  1-3: rewrite (parseBody_Break data offset tag ty L),
         (parseBody_Break (pre ++ data) (len pre + offset) tag ty L);
       rewrite ?len_app; auto; try lia.
  destruct (parseBody_Next data offset tag ty L) as (v & Hv & ->);
    try assumption.
  destruct (parseBody_Next (pre ++ data) (len pre + offset) tag ty L)
    as (v' & Hv' & ->); try assumption; rewrite ?len_app; try lia.
  rewrite parseValue_shift in Hv' by lia.
  assert (v' = v) as -> by congruence.
  f_equal. f_equal.
  destruct (align4_spec (len pre + offset + L)) as [-> _]; [lia|].
  destruct (align4_spec (offset + L)) as [-> _]; [lia|].
  rewrite <- Z.add_assoc. apply roundUp4_shift. exact Hal.
Qed.

Lemma parseLoop_shift (fuel : nat) (pre data : list byte) (offset : Z)
    (parameters : list PCFParameter) :
  0 <= offset -> len pre mod 4 = 0 ->
  parseLoop fuel (pre ++ data) (len pre + offset) parameters
  = parseLoop fuel data offset parameters.
Proof.
  revert offset parameters.
  induction fuel as [|fuel IH]; intros offset parameters Ho Hal;
    [reflexivity|].
  cbn [parseLoop]. rewrite len_app.
  destruct (Z.ltb_spec offset (len data)),
    (Z.ltb_spec (len pre + offset) (len pre + len data)); try lia;
    [|reflexivity].
  rewrite parseBody_shift by assumption.
  destruct (parseBody_Done data offset Ho) as [[|param offset'] Hbody];
    rewrite Hbody; [reflexivity|].
  unfold mbind, outcome_bind. apply IH; [|exact Hal].
  apply parseBody_Next_inv in Hbody as (_ & _ & _ & _ & HL & _ & _ & ->);
    [|exact Ho].
  destruct (align4_spec (offset + p_Length param)); lia.
Qed.

Lemma parseLoop_acc (fuel : nat) (data : list byte) (offset : Z)
    (parameters result : list PCFParameter) :
  parseLoop fuel data offset [] = Done result ->
  parseLoop fuel data offset parameters = Done (parameters ++ result).
Proof.
  revert offset parameters result.
  assert (forall offset acc1 acc2 r,
            parseLoop fuel data offset acc1 = Done r ->
            exists r', r = acc1 ++ r' /\
                       parseLoop fuel data offset acc2 = Done (acc2 ++ r'))
    as Hgen.
  { induction fuel as [|fuel IH]; intros offset acc1 acc2 r H;
      [discriminate|].
    cbn [parseLoop] in H |- *.
    destruct (offset <? len data).
    - destruct (parseBody data offset) as [[|param offset']| |];
        unfold mbind, outcome_bind in H |- *; try discriminate.
      + injection H as <-. exists []. rewrite !app_nil_r. auto.
      + destruct (IH offset' (acc1 ++ [param]) (acc2 ++ [param]) r H)
          as (r' & -> & H').
        exists (param :: r'). rewrite H'.
        rewrite <- !app_assoc. auto.
    - injection H as <-. exists []. rewrite !app_nil_r. auto. }
  intros offset parameters result H.
  destruct (Hgen offset [] parameters result H) as (r' & -> & H').
  exact H'.
Qed.

(** X6. Decoding composes: when the parameters of a buffer [pre] end
    exactly at its end, the parameters of [pre ++ data] are those of [pre]
    followed by those of [data]. *)
Theorem parseParameters_app (pre data : list byte) (c1 c2 : Z)
    (ps1 ps2 : list PCFParameter) :
  reaches pre (len pre) ps1 ->
  parseParameters data c2 = Done (ps2, None) ->
  parseParameters (pre ++ data) c1 = Done (ps1 ++ ps2, None).
Proof.
  intros Hreach Hdata.
  destruct (reaches_cursor _ _ _ Hreach) as [_ Hal].
  apply parseParameters_returns.
  apply (reaches_returns _ _ _ _ (reaches_app_l pre data _ _ Hreach)).
  apply parseParameters_returns in Hdata as [fuel Hloop].
  exists fuel.
  rewrite <- (Z.add_0_r (len pre)), parseLoop_shift by (lia || exact Hal).
  apply parseLoop_acc. exact Hloop.
Qed.

Lemma parseParameters_app_witness :
  let pre := testIntegerParameter MQIA_OPEN_INPUT_COUNT 2 in
  let data := createTestPCFParameter MQCA_Q_NAME MQCFT_STRING "Q1" in
  let p1 := mkPCFParameter MQIA_OPEN_INPUT_COUNT MQCFT_INTEGER 16
              (VInt32 2) in
  let p2 := mkPCFParameter MQCA_Q_NAME MQCFT_STRING 16 (VString "Q1") in
  reaches pre (len pre) [p1] /\
  parseParameters data 1 = Done ([p2], None) /\
  parseParameters (pre ++ data) 2 = Done ([p1] ++ [p2], None).
Proof.
  intros pre data p1 p2.
  assert (reaches pre (len pre) [p1]) as Hreach.
  { apply (reaches_next pre 0 [] p1 16);
      [apply reaches_start | reflexivity | reflexivity]. }
  assert (parseParameters data 1 = Done ([p2], None)) as Hdata
    by reflexivity.
  exact (conj Hreach (conj Hdata
           (parseParameters_app pre data 2 1 [p1] [p2] Hreach Hdata))).
Defined.

(** ** Round trips of the buffers the tests build *)

Lemma returns_from_end (data : list byte) (offset : Z)
    (parameters : list PCFParameter) :
  len data <= offset -> returns_from data offset parameters parameters.
Proof.
  intros H. exists 1%nat. cbn [parseLoop].
  destruct (Z.ltb_spec offset (len data)); [lia | reflexivity].
Qed.

Lemma reaches_end (data : list byte) (count offset : Z)
    (parameters : list PCFParameter) :
  reaches data offset parameters -> len data <= offset ->
  parseParameters data count = Done (parameters, None).
Proof.
  intros Hreach Hend.
  apply parseParameters_returns, (reaches_returns _ _ _ _ Hreach).
  apply returns_from_end. exact Hend.
Qed.

(** X7. The integer parameter the tests assemble (tag, [MQCFT_INTEGER],
    length 16, value, all little-endian) decodes to exactly that tag and
    value, for every int32 tag and value, negative ones included. *)
Theorem testIntegerParameter_round_trip (tag value count : Z) :
  is_int32 tag -> is_int32 value ->
  reaches (testIntegerParameter tag value) 16
    [mkPCFParameter tag MQCFT_INTEGER 16 (VInt32 value)] /\
  parseParameters (testIntegerParameter tag value) count
  = Done ([mkPCFParameter tag MQCFT_INTEGER 16 (VInt32 value)], None).
Proof.
  intros Htag Hval.
  set (data := testIntegerParameter tag value).
  set (P := fun x => PutUint32 (uint32_of_int32 x)).
  assert (is_int32 16) as H16 by (unfold is_int32; lia).
  assert (is_int32 MQCFT_INTEGER) as H3
    by (unfold is_int32, MQCFT_INTEGER; lia).
  assert (readInt32 data 0 = Done tag) as Rtag
    by exact (readInt32_at [] (P MQCFT_INTEGER ++ P 16 ++ P value) tag 0
                Htag eq_refl).
  assert (readInt32 data (0 + 4) = Done MQCFT_INTEGER) as Rty
    by exact (readInt32_at (P tag) (P 16 ++ P value) MQCFT_INTEGER 4
                H3 eq_refl).
  assert (readInt32 data (0 + 8) = Done 16) as Rlen
    by exact (readInt32_at (P tag ++ P MQCFT_INTEGER) (P value) 16 8
                H16 eq_refl).
  assert (readInt32 data (0 + 12) = Done value) as Rval
    by exact (readInt32_at (P tag ++ P MQCFT_INTEGER ++ P 16) [] value 12
                Hval eq_refl).
  assert (parseBody data 0
          = Done (Next (mkPCFParameter tag MQCFT_INTEGER 16 (VInt32 value))
                    16)) as Hbody.
  { destruct (parseBody_Next data 0 tag MQCFT_INTEGER 16)
      as (v & Hv & ->); try assumption; try reflexivity;
      try (vm_compute; discriminate); try lia.
    rewrite parseValue_integer in Hv. change (16 <=? 16) with true in Hv.
    cbv iota in Hv. rewrite Rval in Hv. injection Hv as <-. reflexivity. }
  assert (reaches data 16
            [mkPCFParameter tag MQCFT_INTEGER 16 (VInt32 value)]) as Hreach.
  { apply (reaches_next data 0 [] _ 16 (reaches_start data));
      [reflexivity | exact Hbody]. }
  split; [exact Hreach|].
  apply (reaches_end data count 16); [exact Hreach | reflexivity].
Qed.

Lemma testIntegerParameter_round_trip_witness :
  is_int32 (-1) /\ is_int32 (-2147483648) /\
  parseParameters (testIntegerParameter (-1) (-2147483648)) 1
  = Done ([mkPCFParameter (-1) MQCFT_INTEGER 16 (VInt32 (-2147483648))],
          None).
Proof.
  assert (is_int32 (-1)) as H1 by (unfold is_int32; lia).
  assert (is_int32 (-2147483648)) as H2 by (unfold is_int32; lia).
  destruct (testIntegerParameter_round_trip (-1) (-2147483648) 1 H1 H2)
    as [_ H].
  exact (conj H1 (conj H2 H)).
Defined.

Lemma list_byte_of_string_length (s : string) :
  length (String.list_byte_of_string s) = String.length s.
Proof.
  induction s as [|c s IH]; [reflexivity|].
  change (String.list_byte_of_string (String c s))
    with (byte_of_ascii c :: String.list_byte_of_string s).
  cbn [length String.length]. f_equal. exact IH.
Qed.

Lemma string_of_list_byte_app (a b : list byte) :
  String.string_of_list_byte (a ++ b)
  = String.string_of_list_byte a +:+ String.string_of_list_byte b.
Proof.
  induction a as [|x a IH]; [reflexivity|].
  change (String.string_of_list_byte ((x :: a) ++ b))
    with (String (ascii_of_byte x) (String.string_of_list_byte (a ++ b))).
  change (String.string_of_list_byte (x :: a))
    with (String (ascii_of_byte x) (String.string_of_list_byte a)).
  rewrite append_cons. f_equal. exact IH.
Qed.

Lemma truncateAtNUL_padding (s : string) (k : nat) :
  hasNUL s = false ->
  truncateAtNUL (s +:+ String.string_of_list_byte (replicate k x00)) = s.
Proof.
  intros Hs. destruct k as [|k].
  - change (String.string_of_list_byte (replicate 0 x00)) with EmptyString.
    rewrite append_empty_r. apply truncateAtNUL_noNUL. exact Hs.
  - change (String.string_of_list_byte (replicate (S k) x00))
      with (String (ascii_of_byte x00)
              (String.string_of_list_byte (replicate k x00))).
    apply truncateAtNUL_first_NUL; [exact Hs | reflexivity].
Qed.

(** X8. [createTestPCFParameter] round trip: the buffer built for a
    non-empty, NUL-free text value of at most 65521 bytes decodes to one
    parameter with the tag given, type [MQCFT_STRING], the padded length,
    and the text itself: the zero padding is cut and nothing else. *)
Theorem createTestPCFParameter_round_trip (tag count : Z) (value : string) :
  is_int32 tag ->
  hasNUL value = false ->
  0 < Z.of_nat (String.length value) <= 65521 ->
  let paramLen := roundUp4 (12 + Z.of_nat (String.length value)) in
  let param := mkPCFParameter tag MQCFT_STRING paramLen (VString value) in
  len (createTestPCFParameter tag MQCFT_STRING value) = paramLen /\
  reaches (createTestPCFParameter tag MQCFT_STRING value) paramLen [param] /\
  parseParameters (createTestPCFParameter tag MQCFT_STRING value) count
  = Done ([param], None).
Proof.
  intros Htag Hnul Hn paramLen param.
  set (n := Z.of_nat (String.length value)) in *.
  destruct (align4_spec (12 + n)) as [Hal Hbound]; [lia|].
  fold paramLen in Hal.
  destruct (roundUp4_spec (12 + n)) as [Hmod _]. fold paramLen in Hmod.
  set (data := createTestPCFParameter tag MQCFT_STRING value).
  set (P := fun x => PutUint32 (uint32_of_int32 x)).
  set (payload := String.list_byte_of_string value
                  ++ replicate (Z.to_nat (paramLen - 12 - n)) x00).
  assert (data = P tag ++ P MQCFT_STRING ++ P paramLen ++ payload) as Hdata.
  { unfold data, createTestPCFParameter, payload, P. fold n.
    rewrite Hal. reflexivity. }
  assert (len payload = paramLen - 12) as Hpay.
  { unfold payload, len.
    rewrite length_app, list_byte_of_string_length, length_replicate.
    unfold n in *. lia. }
  assert (len data = paramLen) as Hlen.
  { rewrite Hdata, !len_app, Hpay. unfold P, PutUint32, len. simpl. lia. }
  assert (is_int32 paramLen) as HpL by (unfold is_int32; lia).
  assert (is_int32 MQCFT_STRING) as H4
    by (unfold is_int32, MQCFT_STRING; lia).
  assert (readInt32 data 0 = Done tag) as Rtag.
  { rewrite Hdata.
    exact (readInt32_at [] (P MQCFT_STRING ++ P paramLen ++ payload) tag 0
             Htag eq_refl). }
  assert (readInt32 data (0 + 4) = Done MQCFT_STRING) as Rty.
  { rewrite Hdata.
    exact (readInt32_at (P tag) (P paramLen ++ payload) MQCFT_STRING 4
             H4 eq_refl). }
  assert (readInt32 data (0 + 8) = Done paramLen) as Rlen.
  { rewrite Hdata.
    exact (readInt32_at (P tag ++ P MQCFT_STRING) payload paramLen 8
             HpL eq_refl). }
  assert (parseBody data 0 = Done (Next param paramLen)) as Hbody.
  { assert (take (Z.to_nat (paramLen - 12)) (drop (Z.to_nat (0 + 12)) data)
            = payload) as Hdrop.
    { rewrite Hdata. change (Z.to_nat (0 + 12)) with 12%nat.
      change (drop 12 (P tag ++ P MQCFT_STRING ++ P paramLen ++ payload))
        with payload.
      apply take_ge. unfold len in Hpay. lia. }
    assert (truncateAtNUL (String.string_of_list_byte payload) = value)
      as Htrunc.
    { unfold payload. rewrite string_of_list_byte_app.
      rewrite String.string_of_list_byte_of_string.
      apply truncateAtNUL_padding. exact Hnul. }
    assert (align4 (0 + paramLen) = paramLen) as Hnext.
    { destruct (align4_spec (0 + paramLen)) as [-> _]; [lia|].
      unfold roundUp4. Z.div_mod_to_equations. lia. }
    destruct (parseBody_Next data 0 tag MQCFT_STRING paramLen)
      as (v & Hv & ->); try assumption; try lia.
    rewrite parseValue_string in Hv by lia.
    destruct (Z.ltb_spec 12 paramLen); [|lia].
    rewrite Hdrop, Htrunc in Hv. rewrite Hnext.
    injection Hv as <-. reflexivity. }
  assert (reaches data paramLen [param]) as Hreach
    by (apply (reaches_next data 0 [] _ _ (reaches_start data));
        [lia | exact Hbody]).
  split; [exact Hlen|]. split; [exact Hreach|].
  apply (reaches_end data count paramLen); [exact Hreach | lia].
Qed.

Lemma createTestPCFParameter_round_trip_witness :
  is_int32 MQCA_Q_NAME /\
  hasNUL " TEST.QUEUE " = false /\
  parseParameters
    (createTestPCFParameter MQCA_Q_NAME MQCFT_STRING " TEST.QUEUE ") 1
  = Done ([mkPCFParameter MQCA_Q_NAME MQCFT_STRING 24
             (VString " TEST.QUEUE ")], None).
Proof.
  assert (is_int32 MQCA_Q_NAME) as H1
    by (unfold is_int32, MQCA_Q_NAME; lia).
  assert (hasNUL " TEST.QUEUE " = false) as H2 by reflexivity.
  destruct (createTestPCFParameter_round_trip MQCA_Q_NAME 1 " TEST.QUEUE "
              H1 H2) as (_ & _ & H); [simpl; lia|].
  exact (conj H1 (conj H2 H)).
Defined.

(** ** The builders: every field is the last value under its tag *)

Section FoldFields.

Context {S : Type} (body : S -> PCFParameter -> S).

Lemma fold_lastInt32 (proj : S -> Z) (tag : Z) :
  (forall s p, proj (body s p) = int32At tag p (proj s)) ->
  forall parameters s0,
    proj (fold_left body parameters s0)
    = lastInt32 tag parameters (proj s0).
Proof.
  intros Hstep parameters.
  induction parameters as [|p ps IH]; intros s0; [reflexivity|].
  cbn [fold_left lastInt32]. rewrite IH, Hstep. reflexivity.
Qed.

Lemma fold_lastString (proj : S -> string) (tag : Z) :
  (forall s p, proj (body s p) = stringAt tag p (proj s)) ->
  forall parameters s0,
    proj (fold_left body parameters s0)
    = lastString tag parameters (proj s0).
Proof.
  intros Hstep parameters.
  induction parameters as [|p ps IH]; intros s0; [reflexivity|].
  cbn [fold_left lastString]. rewrite IH, Hstep. reflexivity.
Qed.

Lemma fold_unchanged {A : Type} (proj : S -> A) :
  (forall s p, proj (body s p) = proj s) ->
  forall parameters s0, proj (fold_left body parameters s0) = proj s0.
Proof.
  intros Hstep parameters.
  induction parameters as [|p ps IH]; intros s0; [reflexivity|].
  cbn [fold_left]. rewrite IH, Hstep. reflexivity.
Qed.

End FoldFields.

Ltac field_step :=
  let s := fresh "s" in
  let p := fresh "p" in
  intros s p; destruct s;
  unfold parseQueueStats_body, parseChannelStats_body, parseMQIStats_body,
    parseOperationCounts_body, parseConnectionInfo_body, int32At, stringAt;
  destruct (p_Value p); cbn; try reflexivity;
  unfold MQIA_CURRENT_Q_DEPTH, MQIA_HIGH_Q_DEPTH, MQIA_OPEN_INPUT_COUNT,
    MQIA_OPEN_OUTPUT_COUNT, MQIA_MSG_ENQ_COUNT, MQIA_MSG_DEQ_COUNT,
    MQCA_Q_NAME, MQIACH_MSGS, MQIACH_BYTES, MQIACH_BATCHES,
    MQCA_CHANNEL_NAME, MQCA_CONNECTION_NAME, MQCA_APPL_NAME, MQIAMO_OPENS,
    MQIAMO_CLOSES, MQIAMO_PUTS, MQIAMO_GETS, MQIAMO_COMMITS,
    MQIAMO_BACKOUTS;
  repeat match goal with
  | |- context [p_Parameter p =? ?y] =>
      destruct (Z.eqb_spec (p_Parameter p) y); try lia
  end; reflexivity.

(** X9. Queue statistics, the remaining fields: the queue name is the text
    of the last parameter that carries a string under the queue-name tag,
    and the two depths and the enqueue and dequeue counts are the values of
    the last parameters that carry an int32 under their tags; parameters
    with other tags, or with a value of the other kind, leave a field as it
    is (the empty name and 0 when nothing sets it). *)
Theorem parseQueueStats_fields (parameters : list PCFParameter) :
  let stats := parseQueueStats parameters in
  qs_QueueName stats = lastString MQCA_Q_NAME parameters EmptyString /\
  qs_CurrentDepth stats = lastInt32 MQIA_CURRENT_Q_DEPTH parameters 0 /\
  qs_HighDepth stats = lastInt32 MQIA_HIGH_Q_DEPTH parameters 0 /\
  qs_EnqueueCount stats = lastInt32 MQIA_MSG_ENQ_COUNT parameters 0 /\
  qs_DequeueCount stats = lastInt32 MQIA_MSG_DEQ_COUNT parameters 0.
Proof.
  unfold parseQueueStats. cbv zeta.
  split; [apply (fold_lastString _ qs_QueueName); field_step|].
  split; [apply (fold_lastInt32 _ qs_CurrentDepth); field_step|].
  split; [apply (fold_lastInt32 _ qs_HighDepth); field_step|].
  split; [apply (fold_lastInt32 _ qs_EnqueueCount); field_step|].
  apply (fold_lastInt32 _ qs_DequeueCount); field_step.
Qed.

(** X10. Channel statistics: the channel and connection names are the last
    strings under their tags, and the message, byte and batch counts the
    last int32 values under theirs ([Bytes] is that int32 widened, never
    more than 32 bits of data). *)
Theorem parseChannelStats_fields (parameters : list PCFParameter) :
  let stats := parseChannelStats parameters in
  cs_ChannelName stats
  = lastString MQCA_CHANNEL_NAME parameters EmptyString /\
  cs_ConnectionName stats
  = lastString MQCA_CONNECTION_NAME parameters EmptyString /\
  cs_Messages stats = lastInt32 MQIACH_MSGS parameters 0 /\
  cs_Bytes stats = lastInt32 MQIACH_BYTES parameters 0 /\
  cs_Batches stats = lastInt32 MQIACH_BATCHES parameters 0.
Proof.
  unfold parseChannelStats. cbv zeta.
  split; [apply (fold_lastString _ cs_ChannelName); field_step|].
  split; [apply (fold_lastString _ cs_ConnectionName); field_step|].
  split; [apply (fold_lastInt32 _ cs_Messages); field_step|].
  split; [apply (fold_lastInt32 _ cs_Bytes); field_step|].
  apply (fold_lastInt32 _ cs_Batches); field_step.
Qed.

Lemma parseMQIStats_int32 (parameters : list PCFParameter) :
  let stats := parseMQIStats parameters in
  ms_Opens stats = lastInt32 MQIAMO_OPENS parameters 0 /\
  ms_Closes stats = lastInt32 MQIAMO_CLOSES parameters 0 /\
  ms_Puts stats = lastInt32 MQIAMO_PUTS parameters 0 /\
  ms_Gets stats = lastInt32 MQIAMO_GETS parameters 0 /\
  ms_Commits stats = lastInt32 MQIAMO_COMMITS parameters 0 /\
  ms_Backouts stats = lastInt32 MQIAMO_BACKOUTS parameters 0.
Proof.
  unfold parseMQIStats. cbv zeta.
  split; [apply (fold_lastInt32 _ ms_Opens); field_step|].
  split; [apply (fold_lastInt32 _ ms_Closes); field_step|].
  split; [apply (fold_lastInt32 _ ms_Puts); field_step|].
  split; [apply (fold_lastInt32 _ ms_Gets); field_step|].
  split; [apply (fold_lastInt32 _ ms_Commits); field_step|].
  apply (fold_lastInt32 _ ms_Backouts); field_step.
Qed.

(** X11. MQI statistics: the application name is the last string under its
    tag and each of the six counters the last int32 under its own tag. *)
Theorem parseMQIStats_fields (parameters : list PCFParameter) :
  let stats := parseMQIStats parameters in
  ms_ApplicationName stats
  = lastString MQCA_APPL_NAME parameters EmptyString /\
  ms_Opens stats = lastInt32 MQIAMO_OPENS parameters 0 /\
  ms_Closes stats = lastInt32 MQIAMO_CLOSES parameters 0 /\
  ms_Puts stats = lastInt32 MQIAMO_PUTS parameters 0 /\
  ms_Gets stats = lastInt32 MQIAMO_GETS parameters 0 /\
  ms_Commits stats = lastInt32 MQIAMO_COMMITS parameters 0 /\
  ms_Backouts stats = lastInt32 MQIAMO_BACKOUTS parameters 0.
Proof.
  cbv zeta. split; [|exact (parseMQIStats_int32 parameters)].
  unfold parseMQIStats.
  apply (fold_lastString _ ms_ApplicationName); field_step.
Qed.

Lemma parseOperationCounts_int32 (parameters : list PCFParameter) :
  let ops := parseOperationCounts parameters in
  oc_Opens ops = lastInt32 MQIAMO_OPENS parameters 0 /\
  oc_Closes ops = lastInt32 MQIAMO_CLOSES parameters 0 /\
  oc_Puts ops = lastInt32 MQIAMO_PUTS parameters 0 /\
  oc_Gets ops = lastInt32 MQIAMO_GETS parameters 0 /\
  oc_Commits ops = lastInt32 MQIAMO_COMMITS parameters 0 /\
  oc_Backouts ops = lastInt32 MQIAMO_BACKOUTS parameters 0.
Proof.
  unfold parseOperationCounts. cbv zeta.
  split; [apply (fold_lastInt32 _ oc_Opens); field_step|].
  split; [apply (fold_lastInt32 _ oc_Closes); field_step|].
  split; [apply (fold_lastInt32 _ oc_Puts); field_step|].
  split; [apply (fold_lastInt32 _ oc_Gets); field_step|].
  split; [apply (fold_lastInt32 _ oc_Commits); field_step|].
  apply (fold_lastInt32 _ oc_Backouts); field_step.
Qed.

(** X12. Operation counts of accounting data: [Browses] is 0 for every
    parameter list (no tag feeds it), and the other six counters are the
    ones [parseMQIStats] computes from the same parameters. *)
Theorem parseOperationCounts_fields (parameters : list PCFParameter) :
  let ops := parseOperationCounts parameters in
  let stats := parseMQIStats parameters in
  oc_Browses ops = 0 /\
  oc_Opens ops = ms_Opens stats /\
  oc_Closes ops = ms_Closes stats /\
  oc_Puts ops = ms_Puts stats /\
  oc_Gets ops = ms_Gets stats /\
  oc_Commits ops = ms_Commits stats /\
  oc_Backouts ops = ms_Backouts stats.
Proof.
  cbv zeta.
  destruct (parseOperationCounts_int32 parameters)
    as (-> & -> & -> & -> & -> & ->).
  destruct (parseMQIStats_int32 parameters)
    as (-> & -> & -> & -> & -> & ->).
  split; [|repeat split; reflexivity].
  unfold parseOperationCounts.
  apply (fold_unchanged _ oc_Browses). field_step.
Qed.

(** ** The raw-parameter map *)

Lemma paramKey_inj (t1 t2 : Z) : paramKey t1 = paramKey t2 -> t1 = t2.
Proof.
  unfold paramKey. cbv [String.append]. intros [= H].
  apply (inj pretty). exact H.
Qed.

(** X13. The raw-parameter map, by lookup: under the key of a tag the map
    holds the value (nil included) of the last parameter with that tag, it
    has no entry for a tag that no parameter carries, and it has at most one
    entry per parameter. *)
Theorem convertParameters_lookup (parameters : list PCFParameter) (tag : Z) :
  convertParameters parameters !! paramKey tag
  = lastValue tag parameters None /\
  ((forall param, param ∈ parameters -> p_Parameter param <> tag) ->
   convertParameters parameters !! paramKey tag = None) /\
  (size (convertParameters parameters) <= length parameters)%nat.
Proof.
  unfold convertParameters.
  assert (forall ps (m : gmap string Value),
            fold_left (fun result param =>
                         <[paramKey (p_Parameter param) := p_Value param]>
                           result) ps m !! paramKey tag
            = lastValue tag ps (m !! paramKey tag)) as Hlookup.
  { induction ps as [|p ps IH]; intros m; [reflexivity|].
    cbn [fold_left lastValue]. rewrite IH. f_equal.
    destruct (Z.eqb_spec (p_Parameter p) tag) as [->|Hne].
    - apply lookup_insert_eq.
    - apply lookup_insert_ne. intros H. apply paramKey_inj in H.
      contradiction. }
  assert (forall ps (m : gmap string Value),
            (size (fold_left (fun result param =>
                         <[paramKey (p_Parameter param) := p_Value param]>
                           result) ps m) <= size m + length ps)%nat)
    as Hsize.
  { induction ps as [|p ps IH]; intros m; cbn [fold_left length]; [lia|].
    etrans; [apply IH|].
    pose proof (map_size_insert (paramKey (p_Parameter p)) (p_Value p) m)
      as Hins.
    rewrite Hins.
    destruct (m !! paramKey (p_Parameter p)); unfold id; lia. }
  split; [rewrite Hlookup, lookup_empty; reflexivity|]. split.
  - intros Hnone. rewrite Hlookup, lookup_empty.
    induction parameters as [|p ps IH]; [reflexivity|].
    cbn [lastValue].
    destruct (Z.eqb_spec (p_Parameter p) tag) as [Heq|_].
    + exfalso. apply (Hnone p); [left | exact Heq].
    + apply IH. intros q Hq. apply Hnone. right. exact Hq.
  - specialize (Hsize parameters ∅). rewrite map_size_empty in Hsize.
    exact Hsize.
Qed.

Lemma convertParameters_lookup_witness :
  let parameters :=
    [mkPCFParameter MQIA_CURRENT_Q_DEPTH MQCFT_INTEGER 16 (VInt32 5);
     mkPCFParameter MQCA_Q_NAME MQCFT_STRING 16 (VString "Q1");
     mkPCFParameter MQIA_CURRENT_Q_DEPTH 7 12 VNil] in
  convertParameters parameters !! paramKey MQIA_CURRENT_Q_DEPTH = Some VNil /\
  convertParameters parameters !! paramKey MQIA_HIGH_Q_DEPTH = None.
Proof.
  intros parameters.
  destruct (convertParameters_lookup parameters MQIA_CURRENT_Q_DEPTH)
    as [H1 _].
  destruct (convertParameters_lookup parameters MQIA_HIGH_Q_DEPTH)
    as [_ [H2 _]].
  split; [exact H1|]. apply H2.
  intros param Hin.
  repeat (apply elem_of_cons in Hin as [->|Hin]; [vm_compute; discriminate|]).
  apply elem_of_nil in Hin. contradiction.
Defined.

(** ** Records: names, timestamps and sub-records *)

Section RecordProperties.

Context {Time : Type}.
Variable time_zero : Time.
Variable time_Now : Time.
Variable time_Parse : string -> string -> option Time.

Local Abbreviation ParseMessage :=
  (ParseMessage Time time_zero time_Now time_Parse).
Local Abbreviation parseStatistics :=
  (parseStatistics Time time_zero time_Now time_Parse).
Local Abbreviation parseAccounting :=
  (parseAccounting Time time_zero time_Now time_Parse).
Local Abbreviation parseMQTimestamp :=
  (parseMQTimestamp Time time_zero time_Parse).
Local Abbreviation commonFields_body :=
  (commonFields_body Time time_zero time_Parse).
Local Abbreviation commandTime := (commandTime Time time_zero time_Parse).
Local Abbreviation parseConnectionInfo :=
  (parseConnectionInfo Time time_zero).

Lemma parseConnectionInfo_application (parameters : list PCFParameter) :
  ci_ApplicationName Time (parseConnectionInfo parameters)
  = lastString MQCA_APPL_NAME parameters EmptyString.
Proof.
  unfold parseConnectionInfo.
  apply (fold_lastString _ (ci_ApplicationName Time)); field_step.
Qed.

(** X14. Connection information of accounting data: the three names are
    the last strings under the channel-name, connection-name and
    application-name tags, and the connect and disconnect times are the
    zero time for every parameter list (nothing sets them). *)
Theorem parseConnectionInfo_fields (parameters : list PCFParameter) :
  let info := parseConnectionInfo parameters in
  ci_ChannelName Time info
  = lastString MQCA_CHANNEL_NAME parameters EmptyString /\
  ci_ConnectionName Time info
  = lastString MQCA_CONNECTION_NAME parameters EmptyString /\
  ci_ApplicationName Time info
  = lastString MQCA_APPL_NAME parameters EmptyString /\
  ci_ConnectTime Time info = time_zero /\
  ci_DisconnectTime Time info = time_zero.
Proof.
  unfold parseConnectionInfo. cbv zeta.
  split; [apply (fold_lastString _ (ci_ChannelName Time)); field_step|].
  split; [apply (fold_lastString _ (ci_ConnectionName Time)); field_step|].
  split; [apply (fold_lastString _ (ci_ApplicationName Time)); field_step|].
  split; [apply (fold_unchanged _ (ci_ConnectTime Time)); field_step|].
  apply (fold_unchanged _ (ci_DisconnectTime Time)); field_step.
Qed.

Lemma parseMQTimestamp_range_spec (fs : list string) (timestamp : string) :
  match parseMQTimestamp_range Time time_zero time_Parse fs timestamp with
  | (t, None) =>
      exists pre format post,
        fs = pre ++ format :: post /\
        Forall (fun f => time_Parse f timestamp = None) pre /\
        time_Parse format timestamp = Some t
  | (t, Some _) =>
      t = time_zero /\ Forall (fun f => time_Parse f timestamp = None) fs
  end.
Proof.
  induction fs as [|f fs IH]; cbn [parseMQTimestamp_range].
  - split; [reflexivity | constructor].
  - destruct (time_Parse f timestamp) as [t|] eqn:Hf.
    + exists [], f, fs. split; [reflexivity|]. split; [constructor | exact Hf].
    + destruct (parseMQTimestamp_range Time time_zero time_Parse fs timestamp)
        as [t [e|]].
      * destruct IH as [-> Hall]. split; [reflexivity|].
        constructor; assumption.
      * destruct IH as (pre & format & post & -> & Hpre & Hok).
        exists (f :: pre), format, post. split; [reflexivity|].
        split; [constructor; assumption | exact Hok].
Qed.

(** X15. [parseMQTimestamp] tries the five layouts in their order and
    returns the instant of the first one that [time.Parse] accepts, with a
    nil error; when none accepts the text it returns the zero time and an
    error. *)
Theorem parseMQTimestamp_first_layout (timestamp : string) :
  length formats = 5%nat /\
  match parseMQTimestamp timestamp with
  | (t, None) =>
      exists pre format post,
        formats = pre ++ format :: post /\
        Forall (fun f => time_Parse f timestamp = None) pre /\
        time_Parse format timestamp = Some t
  | (t, Some _) =>
      t = time_zero /\
      Forall (fun f => time_Parse f timestamp = None) formats
  end.
Proof.
  split; [reflexivity|].
  exact (parseMQTimestamp_range_spec formats timestamp).
Qed.

Lemma commonFields_fold (parameters : list PCFParameter) (qmgr : string)
    (ts : Time) :
  (fold_left commonFields_body parameters (qmgr, ts)).1
  = lastString MQCA_Q_MGR_NAME parameters qmgr /\
  ((forall param, param ∈ parameters -> commandTime param = None) ->
   (fold_left commonFields_body parameters (qmgr, ts)).2 = ts) /\
  (forall pre param post t,
     parameters = pre ++ param :: post ->
     commandTime param = Some t ->
     (forall q, q ∈ post -> commandTime q = None) ->
     (fold_left commonFields_body parameters (qmgr, ts)).2 = t).
Proof.
  assert (forall p q t0,
            (commonFields_body (q, t0) p).1 = stringAt MQCA_Q_MGR_NAME p q /\
            (commonFields_body (q, t0) p).2
            = match commandTime p with Some t => t | None => t0 end)
    as Hstep.
  { intros p q t0.
    unfold commonFields_body, stringAt, commandTime.
    unfold MQCA_Q_MGR_NAME, MQCACF_COMMAND_TIME.
    destruct (Z.eqb_spec (p_Parameter p) 2002) as [E1|E1];
      destruct (Z.eqb_spec (p_Parameter p) 3603) as [E2|E2]; try lia.
    - destruct (p_Value p); auto.
    - destruct (p_Value p) as [| |str|]; auto.
      destruct (parseMQTimestamp str) as [t [e|]]; auto.
    - destruct (p_Value p); auto. }
  assert (forall ps q t0,
            (forall p, p ∈ ps -> commandTime p = None) ->
            (fold_left commonFields_body ps (q, t0)).2 = t0) as Hnone.
  { induction ps as [|p ps IH]; intros q t0 Hall; [reflexivity|].
    cbn [fold_left].
    destruct (commonFields_body (q, t0) p) as [q' t'] eqn:Hb.
    destruct (Hstep p q t0) as [_ H2]. rewrite Hb in H2. cbn [snd] in H2.
    rewrite (Hall p) in H2 by left. subst t'.
    apply IH. intros r Hr. apply Hall. right. exact Hr. }
  split; [|split].
  - revert qmgr ts.
    induction parameters as [|p ps IH]; intros qmgr ts; [reflexivity|].
    cbn [fold_left lastString].
    destruct (commonFields_body (qmgr, ts) p) as [q' t'] eqn:Hb.
    destruct (Hstep p qmgr ts) as [H1 _]. rewrite Hb in H1. cbn [fst] in H1.
    subst q'. apply IH.
  - apply Hnone.
  - intros pre param post t -> Hparam Hpost.
    rewrite fold_left_app. cbn [fold_left].
    destruct (fold_left commonFields_body pre (qmgr, ts)) as [q1 t1].
    destruct (commonFields_body (q1, t1) param) as [q2 t2] eqn:Hb.
    destruct (Hstep param q1 t1) as [_ H2]. rewrite Hb, Hparam in H2.
    cbn [snd] in H2. subst t2. apply Hnone. exact Hpost.
Qed.

Lemma parseStatistics_record (header : PCFHeader)
    (parameters : list PCFParameter) :
  parseStatistics header parameters
  = (mkStatisticsData Time "statistics"
       (fold_left commonFields_body parameters (EmptyString, time_Now)).1
       (fold_left commonFields_body parameters (EmptyString, time_Now)).2
       (convertParameters parameters)
       (if h_Command header =? MQCMD_STATISTICS_Q
        then Some (parseQueueStats parameters) else None)
       (if h_Command header =? MQCMD_STATISTICS_CHANNEL
        then Some (parseChannelStats parameters) else None)
       (if h_Command header =? MQCMD_STATISTICS_MQI
        then Some (parseMQIStats parameters) else None),
     None).
Proof.
  unfold parseStatistics.
  destruct (fold_left _ parameters _) as [qmgr ts]. cbn [fst snd].
  unfold MQCMD_STATISTICS_Q, MQCMD_STATISTICS_CHANNEL, MQCMD_STATISTICS_MQI.
  destruct (Z.eqb_spec (h_Command header) 113),
    (Z.eqb_spec (h_Command header) 114),
    (Z.eqb_spec (h_Command header) 112); try lia; reflexivity.
Qed.

Lemma parseAccounting_record (header : PCFHeader)
    (parameters : list PCFParameter) :
  parseAccounting header parameters
  = (mkAccountingData Time "accounting"
       (fold_left commonFields_body parameters (EmptyString, time_Now)).1
       (fold_left commonFields_body parameters (EmptyString, time_Now)).2
       (convertParameters parameters)
       (Some (parseConnectionInfo parameters))
       (Some (parseOperationCounts parameters)),
     None).
Proof.
  unfold parseAccounting.
  destruct (fold_left _ parameters _) as [qmgr ts]. reflexivity.
Qed.

(** X16. Statistics commands: for the queue, channel and MQI statistics
    command codes [ParseMessage] returns a [StatisticsData] whose [Type] is
    "statistics" whatever [msgType] is, whose queue-manager name is the last
    string under the queue-manager tag, whose map is that of the decoded
    parameters, and which holds exactly the one sub-record of its command. *)
Theorem ParseMessage_statistics_command (data : list byte)
    (msgType : string) (header : PCFHeader) :
  36 <= len data ->
  parseHeader data = Done (Some header, None) ->
  h_Command header = MQCMD_STATISTICS_Q \/
  h_Command header = MQCMD_STATISTICS_CHANNEL \/
  h_Command header = MQCMD_STATISTICS_MQI ->
  exists parameters stats,
    parseParameters (drop 36 data) (h_ParameterCount header)
    = Done (parameters, None) /\
    ParseMessage data msgType = Done (MStatistics stats, None) /\
    sd_Type Time stats = "statistics" /\
    sd_QueueManager Time stats
    = lastString MQCA_Q_MGR_NAME parameters EmptyString /\
    sd_Parameters Time stats = convertParameters parameters /\
    sd_QueueStats Time stats
    = (if h_Command header =? MQCMD_STATISTICS_Q
       then Some (parseQueueStats parameters) else None) /\
    sd_ChannelStats Time stats
    = (if h_Command header =? MQCMD_STATISTICS_CHANNEL
       then Some (parseChannelStats parameters) else None) /\
    sd_MQIStats Time stats
    = (if h_Command header =? MQCMD_STATISTICS_MQI
       then Some (parseMQIStats parameters) else None).
Proof.
  intros Hlen Hh Hcmd.
  destruct (ParseMessage_dispatch time_zero time_Now time_Parse
              data msgType Hlen)
    as (header' & parameters & Hh' & Hp & Heq).
  assert (header' = header) as -> by congruence.
  cbv zeta in Heq.
  assert (((h_Command header =? MQCMD_STATISTICS_Q)
           || (h_Command header =? MQCMD_STATISTICS_CHANNEL)
           || (h_Command header =? MQCMD_STATISTICS_MQI)) = true) as E.
  { rewrite !orb_true_iff, !Z.eqb_eq. tauto. }
  rewrite E, parseStatistics_record in Heq. cbn [fst snd] in Heq.
  eexists parameters, _. split; [exact Hp|]. split; [exact Heq|].
  cbn [sd_Type sd_QueueManager sd_Parameters sd_QueueStats sd_ChannelStats
       sd_MQIStats].
  split; [reflexivity|].
  split; [apply (commonFields_fold parameters EmptyString time_Now)|].
  repeat split; reflexivity.
Qed.

(** X17. Accounting commands: for the queue and MQI accounting command
    codes [ParseMessage] returns an [AccountingData] whose [Type] is
    "accounting" whatever [msgType] is, with the queue-manager name, the
    map, and both the connection information and the operation counts of
    the decoded parameters (neither is nil). *)
Theorem ParseMessage_accounting_command (data : list byte)
    (msgType : string) (header : PCFHeader) :
  36 <= len data ->
  parseHeader data = Done (Some header, None) ->
  h_Command header = MQCMD_ACCOUNTING_Q \/
  h_Command header = MQCMD_ACCOUNTING_MQI ->
  exists parameters acct,
    parseParameters (drop 36 data) (h_ParameterCount header)
    = Done (parameters, None) /\
    ParseMessage data msgType = Done (MAccounting acct, None) /\
    ad_Type Time acct = "accounting" /\
    ad_QueueManager Time acct
    = lastString MQCA_Q_MGR_NAME parameters EmptyString /\
    ad_Parameters Time acct = convertParameters parameters /\
    ad_ConnectionInfo Time acct = Some (parseConnectionInfo parameters) /\
    ad_Operations Time acct = Some (parseOperationCounts parameters).
Proof.
  intros Hlen Hh Hcmd.
  destruct (ParseMessage_dispatch time_zero time_Now time_Parse
              data msgType Hlen)
    as (header' & parameters & Hh' & Hp & Heq).
  assert (header' = header) as -> by congruence.
  cbv zeta in Heq.
  assert (((h_Command header =? MQCMD_STATISTICS_Q)
           || (h_Command header =? MQCMD_STATISTICS_CHANNEL)
           || (h_Command header =? MQCMD_STATISTICS_MQI)) = false) as E1.
  { rewrite !orb_false_iff, !Z.eqb_neq.
    unfold MQCMD_STATISTICS_Q, MQCMD_STATISTICS_CHANNEL,
      MQCMD_STATISTICS_MQI, MQCMD_ACCOUNTING_Q, MQCMD_ACCOUNTING_MQI in *.
    lia. }
  assert (((h_Command header =? MQCMD_ACCOUNTING_Q)
           || (h_Command header =? MQCMD_ACCOUNTING_MQI)) = true) as E2.
  { rewrite !orb_true_iff, !Z.eqb_eq. tauto. }
  rewrite E1, E2, parseAccounting_record in Heq. cbn [fst snd] in Heq.
  eexists parameters, _. split; [exact Hp|]. split; [exact Heq|].
  cbn [ad_Type ad_QueueManager ad_Parameters ad_ConnectionInfo
       ad_Operations].
  split; [reflexivity|].
  split; [apply (commonFields_fold parameters EmptyString time_Now)|].
  repeat split; reflexivity.
Qed.

End RecordProperties.

(** X18. The timestamp of a record.  Each builder reads the clock itself;
    [nowS] is the reading of [parseStatistics] and [nowA] that of
    [parseAccounting].  When no parameter has the command-time tag with a
    text that parses, the record of each builder carries that builder's own
    clock reading; otherwise both carry the instant of the last such
    parameter, whatever the clock says (a later command time that does not
    parse does not undo an earlier one that does). *)
Theorem record_timestamp {Time : Type} (time_zero : Time)
    (time_Parse : string -> string -> option Time) (nowS nowA : Time)
    (header : PCFHeader) (parameters : list PCFParameter) :
  let stats :=
    (parseStatistics Time time_zero nowS time_Parse header parameters).1 in
  let acct :=
    (parseAccounting Time time_zero nowA time_Parse header parameters).1 in
  ((forall param,
      param ∈ parameters ->
      commandTime Time time_zero time_Parse param = None) ->
   sd_Timestamp Time stats = nowS /\ ad_Timestamp Time acct = nowA) /\
  (forall pre param post t,
     parameters = pre ++ param :: post ->
     commandTime Time time_zero time_Parse param = Some t ->
     (forall q, q ∈ post -> commandTime Time time_zero time_Parse q = None) ->
     sd_Timestamp Time stats = t /\ ad_Timestamp Time acct = t).
Proof.
  cbv zeta. rewrite parseStatistics_record, parseAccounting_record.
  cbn [fst sd_Timestamp ad_Timestamp].
  destruct (commonFields_fold time_zero time_Parse parameters EmptyString
              nowS) as (_ & HnoneS & HlastS).
  destruct (commonFields_fold time_zero time_Parse parameters EmptyString
              nowA) as (_ & HnoneA & HlastA).
  split.
  - intros Hnone. split; [apply HnoneS | apply HnoneA]; exact Hnone.
  - intros pre param post t Heq Ht Hpost.
    split; [apply (HlastS pre param post t) | apply (HlastA pre param post t)];
      assumption.
Qed.

(** ** The OpenTelemetry path: what is recorded, and when *)

Section CollectorProperties.

Context {Time : Type}.
Variable time_zero : Time.
Variable time_Now : Time.
Variable time_Parse : string -> string -> option Time.
Variable configQueueManager : string.

Local Abbreviation processStatsMessageForOTel :=
  (processStatsMessageForOTel Time time_zero time_Now time_Parse
     configQueueManager).
Local Abbreviation processAccountingMessageForOTel :=
  (processAccountingMessageForOTel Time time_zero time_Now time_Parse
     configQueueManager).
Local Abbreviation defaultQueueManager :=
  (defaultQueueManager configQueueManager).

Lemma ParseMessage_short (data : list byte) (msgType : string) :
  len data < 36 ->
  ParseMessage Time time_zero time_Now time_Parse data msgType
  = Done (MNil,
          Some (Errorf "message too short to be a valid PCF message")).
Proof.
  intros H. unfold ParseMessage.
  destruct (Z.ltb_spec (len data) 36); [reflexivity | lia].
Qed.

(** X19. [processStatsMessageForOTel], case by case: a message shorter
    than 36 bytes gives the wrapped parse error; an accounting command gives
    the error "invalid statistics data type"; a queue or channel statistics
    command records one call, an MQI statistics command six (opens, closes,
    puts, gets, commits, backouts, in this order), all from the decoded
    parameters; any other command records nothing and is no error. *)
Theorem processStatsMessageForOTel_cases (msgData : list byte) :
  (len msgData < 36 ->
   processStatsMessageForOTel msgData
   = Done ([],
           Some (Wrapf "failed to parse statistics message"
                   (Errorf "message too short to be a valid PCF message"))))
  /\
  (36 <= len msgData ->
   exists header parameters,
     parseHeader msgData = Done (Some header, None) /\
     parseParameters (drop 36 msgData) (h_ParameterCount header)
     = Done (parameters, None) /\
     let command := h_Command header in
     let qmgr :=
       defaultQueueManager
         (lastString MQCA_Q_MGR_NAME parameters EmptyString) in
     let q := parseQueueStats parameters in
     let c := parseChannelStats parameters in
     let m := parseMQIStats parameters in
     let app := ms_ApplicationName m in
     processStatsMessageForOTel msgData
     = Done
         (if (command =? MQCMD_ACCOUNTING_Q)
             || (command =? MQCMD_ACCOUNTING_MQI) then
            ([], Some (Errorf "invalid statistics data type"))
          else if command =? MQCMD_STATISTICS_Q then
            ([RecordQueueMetrics qmgr (qs_QueueName q) (qs_CurrentDepth q)
                (qs_EnqueueCount q) (qs_DequeueCount q)], None)
          else if command =? MQCMD_STATISTICS_CHANNEL then
            ([RecordChannelMetrics qmgr (cs_ChannelName c)
                (cs_ConnectionName c) (cs_Messages c) (cs_Bytes c)], None)
          else if command =? MQCMD_STATISTICS_MQI then
            ([RecordMQIMetrics qmgr app "opens" (ms_Opens m);
              RecordMQIMetrics qmgr app "closes" (ms_Closes m);
              RecordMQIMetrics qmgr app "puts" (ms_Puts m);
              RecordMQIMetrics qmgr app "gets" (ms_Gets m);
              RecordMQIMetrics qmgr app "commits" (ms_Commits m);
              RecordMQIMetrics qmgr app "backouts" (ms_Backouts m)], None)
          else ([], None))).
Proof.
  split.
  - intros Hshort. unfold processStatsMessageForOTel.
    rewrite ParseMessage_short by exact Hshort. reflexivity.
  - intros Hlen.
    destruct (ParseMessage_dispatch time_zero time_Now time_Parse
                msgData "statistics" Hlen)
      as (header & parameters & Hh & Hp & Heq).
    exists header, parameters. split; [exact Hh|]. split; [exact Hp|].
    cbv zeta in Heq |- *. unfold processStatsMessageForOTel.
    rewrite Heq, parseStatistics_record, parseAccounting_record.
    destruct (commonFields_fold time_zero time_Parse parameters EmptyString
                time_Now) as [Hq _].
    unfold MQCMD_STATISTICS_Q, MQCMD_STATISTICS_CHANNEL,
      MQCMD_STATISTICS_MQI, MQCMD_ACCOUNTING_Q, MQCMD_ACCOUNTING_MQI.
    destruct (Z.eqb_spec (h_Command header) 113),
      (Z.eqb_spec (h_Command header) 114),
      (Z.eqb_spec (h_Command header) 112),
      (Z.eqb_spec (h_Command header) 139),
      (Z.eqb_spec (h_Command header) 138); try lia;
      cbn; rewrite ?Hq; reflexivity.
Qed.

(** X20. [processAccountingMessageForOTel], case by case: a message
    shorter than 36 bytes gives the wrapped parse error; an accounting
    command records the six MQI operation counts of the decoded parameters
    under the application name; every other command, a statistics command
    or an unrecognised one alike, gives the error "invalid accounting data
    type" and records nothing. *)
Theorem processAccountingMessageForOTel_cases (msgData : list byte) :
  (len msgData < 36 ->
   processAccountingMessageForOTel msgData
   = Done ([],
           Some (Wrapf "failed to parse accounting message"
                   (Errorf "message too short to be a valid PCF message"))))
  /\
  (36 <= len msgData ->
   exists header parameters,
     parseHeader msgData = Done (Some header, None) /\
     parseParameters (drop 36 msgData) (h_ParameterCount header)
     = Done (parameters, None) /\
     let command := h_Command header in
     let qmgr :=
       defaultQueueManager
         (lastString MQCA_Q_MGR_NAME parameters EmptyString) in
     let app := lastString MQCA_APPL_NAME parameters EmptyString in
     let ops := parseOperationCounts parameters in
     processAccountingMessageForOTel msgData
     = Done
         (if (command =? MQCMD_ACCOUNTING_Q)
             || (command =? MQCMD_ACCOUNTING_MQI) then
            ([RecordMQIMetrics qmgr app "opens" (oc_Opens ops);
              RecordMQIMetrics qmgr app "closes" (oc_Closes ops);
              RecordMQIMetrics qmgr app "puts" (oc_Puts ops);
              RecordMQIMetrics qmgr app "gets" (oc_Gets ops);
              RecordMQIMetrics qmgr app "commits" (oc_Commits ops);
              RecordMQIMetrics qmgr app "backouts" (oc_Backouts ops)], None)
          else ([], Some (Errorf "invalid accounting data type")))).
Proof.
  split.
  - intros Hshort. unfold processAccountingMessageForOTel.
    rewrite ParseMessage_short by exact Hshort. reflexivity.
  - intros Hlen.
    destruct (ParseMessage_dispatch time_zero time_Now time_Parse
                msgData "accounting" Hlen)
      as (header & parameters & Hh & Hp & Heq).
    exists header, parameters. split; [exact Hh|]. split; [exact Hp|].
    cbv zeta in Heq |- *. unfold processAccountingMessageForOTel.
    rewrite Heq, parseStatistics_record, parseAccounting_record.
    destruct (commonFields_fold time_zero time_Parse parameters EmptyString
                time_Now) as [Hq _].
    pose proof (parseConnectionInfo_application time_zero parameters)
      as Happ.
    unfold MQCMD_STATISTICS_Q, MQCMD_STATISTICS_CHANNEL,
      MQCMD_STATISTICS_MQI, MQCMD_ACCOUNTING_Q, MQCMD_ACCOUNTING_MQI.
    destruct (Z.eqb_spec (h_Command header) 113),
      (Z.eqb_spec (h_Command header) 114),
      (Z.eqb_spec (h_Command header) 112),
      (Z.eqb_spec (h_Command header) 139),
      (Z.eqb_spec (h_Command header) 138); try lia;
      cbn; rewrite ?Hq, ?Happ; reflexivity.
Qed.

Lemma defaultQueueManager_nonempty (qmgr : string) :
  configQueueManager <> EmptyString ->
  defaultQueueManager qmgr <> EmptyString.
Proof.
  intros Hcfg. unfold defaultQueueManager.
  destruct (decide (qmgr = EmptyString)); assumption.
Qed.

(** X21. No metric without a queue manager: when the configured queue
    manager name is not empty, every call recorded by either processor
    carries a non-empty queue-manager label (the name in the message, or the
    configured one when the message has none), and a call that returns an
    error records nothing. *)
Theorem otel_calls_queue_manager (msgData : list byte)
    (calls : list OTelCall) (e : option error) :
  configQueueManager <> EmptyString ->
  processStatsMessageForOTel msgData = Done (calls, e) \/
  processAccountingMessageForOTel msgData = Done (calls, e) ->
  Forall (fun call => callQueueManager call <> EmptyString) calls /\
  (is_Some e -> calls = []).
Proof.
  intros Hcfg [H|H].
  - unfold processStatsMessageForOTel in H.
    destruct (ParseMessage Time time_zero time_Now time_Parse msgData
                "statistics") as [[data err]| |]; try discriminate H.
    unfold mbind, outcome_bind in H.
    destruct err as [err|]; [injection H as <- <-; split; eauto|].
    destruct data as [|stats|acct];
      try (injection H as <- <-; split; eauto; fail).
    injection H as <- <-. split; [|intros [? [=]]].
    pose proof (defaultQueueManager_nonempty
                  (sd_QueueManager Time stats) Hcfg) as Hq.
    repeat (apply Forall_app; split).
    + destruct (sd_QueueStats Time stats); repeat constructor; exact Hq.
    + destruct (sd_ChannelStats Time stats); repeat constructor; exact Hq.
    + destruct (sd_MQIStats Time stats); repeat constructor; exact Hq.
  - unfold processAccountingMessageForOTel in H.
    destruct (ParseMessage Time time_zero time_Now time_Parse msgData
                "accounting") as [[data err]| |]; try discriminate H.
    unfold mbind, outcome_bind in H.
    destruct err as [err|]; [injection H as <- <-; split; eauto|].
    destruct data as [|stats|acct];
      try (injection H as <- <-; split; eauto; fail).
    injection H as <- <-. split; [|intros [? [=]]].
    pose proof (defaultQueueManager_nonempty
                  (ad_QueueManager Time acct) Hcfg) as Hq.
    destruct (ad_Operations Time acct); repeat constructor; exact Hq.
Qed.

End CollectorProperties.

(** ** The Prometheus path: readers, writers and accounting counts *)

Section PrometheusProperties.

Context {Time : Type}.
Variable time_zero : Time.
Variable time_Now : Time.
Variable time_Parse : string -> string -> option Time.
Variable configQueueManager : string.

Local Abbreviation processStatisticsMessage :=
  (processStatisticsMessage Time time_zero time_Now time_Parse
     configQueueManager).
Local Abbreviation processAccountingMessage :=
  (processAccountingMessage Time time_zero time_Now time_Parse
     configQueueManager).
Local Abbreviation defaultQueueManager :=
  (defaultQueueManager configQueueManager).

Lemma gauge_labels_two (g : Gauge) (a b : string) :
  length (variableLabels g) = 2%nat ->
  validateLabelValues g [a; b] = ValidString a && ValidString b.
Proof.
  intros Hg. unfold validateLabelValues. rewrite Hg.
  cbn [length Nat.eqb forallb andb]. rewrite andb_true_r. reflexivity.
Qed.

(** X22. Queue statistics reach the gauges, or none does: for a
    queue-statistics message whose queue-manager label (the message's name,
    else the configured one) and queue name are both valid UTF-8,
    [processStatisticsMessage] sets exactly eight gauges under these two
    labels and returns; the input and output gauges get the last open-input
    and open-output counts of the message, and the readers and writers
    gauges get 1 exactly when that count is positive, else 0.  When one of
    the two labels is not valid UTF-8 the first [WithLabelValues] panics and
    no gauge is set. *)
Theorem processStatisticsMessage_queue (msgData : list byte)
    (header : PCFHeader) :
  36 <= len msgData ->
  parseHeader msgData = Done (Some header, None) ->
  h_Command header = MQCMD_STATISTICS_Q ->
  exists parameters,
    parseParameters (drop 36 msgData) (h_ParameterCount header)
    = Done (parameters, None) /\
    let q := parseQueueStats parameters in
    let qmgr :=
      defaultQueueManager
        (lastString MQCA_Q_MGR_NAME parameters EmptyString) in
    let labels := [qmgr; qs_QueueName q] in
    let inputCount := lastInt32 MQIA_OPEN_INPUT_COUNT parameters 0 in
    let outputCount := lastInt32 MQIA_OPEN_OUTPUT_COUNT parameters 0 in
    processStatisticsMessage msgData
    = if ValidString qmgr && ValidString (qs_QueueName q) then
        ([GaugeSet queueDepthGauge labels (qs_CurrentDepth q);
          GaugeSet queueHighDepthGauge labels (qs_HighDepth q);
          GaugeSet queueEnqueueGauge labels (qs_EnqueueCount q);
          GaugeSet queueDequeueGauge labels (qs_DequeueCount q);
          GaugeSet queueInputCountGauge labels inputCount;
          GaugeSet queueOutputCountGauge labels outputCount;
          GaugeSet queueReadersGauge labels
            (if 0 <? inputCount then 1 else 0);
          GaugeSet queueWritersGauge labels
            (if 0 <? outputCount then 1 else 0)],
         Done tt)
      else ([], Panic).
Proof.
  intros Hlen Hh Hcmd.
  destruct (ParseMessage_dispatch time_zero time_Now time_Parse
              msgData "statistics" Hlen)
    as (header' & parameters & Hh' & Hp & Heq).
  assert (header' = header) as -> by congruence.
  exists parameters. split; [exact Hp|].
  cbv zeta in Heq |- *. unfold processStatisticsMessage.
  rewrite Heq, parseStatistics_record, Hcmd.
  destruct (commonFields_fold time_zero time_Parse parameters EmptyString
              time_Now) as [Hq _].
  destruct (parseQueueStats_fold parameters QueueStatistics_zero)
    as (Hin & Hout & Hrd & Hwr).
  specialize (Hrd eq_refl). specialize (Hwr eq_refl).
  change (fold_left parseQueueStats_body parameters QueueStatistics_zero)
    with (parseQueueStats parameters) in Hin, Hout, Hrd, Hwr.
  change (qs_InputCount QueueStatistics_zero) with 0 in Hin.
  change (qs_OutputCount QueueStatistics_zero) with 0 in Hout.
  change (MQCMD_STATISTICS_Q =? MQCMD_STATISTICS_Q) with true.
  change (MQCMD_STATISTICS_Q =? MQCMD_STATISTICS_CHANNEL) with false.
  change (MQCMD_STATISTICS_Q =? MQCMD_STATISTICS_MQI) with false.
  cbn [orb fst snd sd_QueueManager sd_QueueStats sd_ChannelStats
       sd_MQIStats].
  rewrite Hq, Hrd, Hwr, Hin, Hout.
  unfold gaugeSet. rewrite !gauge_labels_two by reflexivity.
  destruct (ValidString _ && ValidString _).
  - destruct (0 <? lastInt32 MQIA_OPEN_INPUT_COUNT parameters 0),
      (0 <? lastInt32 MQIA_OPEN_OUTPUT_COUNT parameters 0); reflexivity.
  - destruct (0 <? lastInt32 MQIA_OPEN_INPUT_COUNT parameters 0),
      (0 <? lastInt32 MQIA_OPEN_OUTPUT_COUNT parameters 0); reflexivity.
Qed.

(** X23. Accounting counts are added, not set: for an accounting command
    whose queue-manager label and application name are both valid UTF-8,
    [processAccountingMessage] adds the six operation counts of the message
    to the MQI gauges under these two labels and returns; when one of the
    two is not valid UTF-8 the first [WithLabelValues] panics and no gauge
    is touched.  For a short message and for every other command it returns
    and touches no gauge. *)
Theorem processAccountingMessage_cases (msgData : list byte) :
  (len msgData < 36 -> processAccountingMessage msgData = ([], Done tt)) /\
  (36 <= len msgData ->
   exists header parameters,
     parseHeader msgData = Done (Some header, None) /\
     parseParameters (drop 36 msgData) (h_ParameterCount header)
     = Done (parameters, None) /\
     let command := h_Command header in
     let qmgr :=
       defaultQueueManager
         (lastString MQCA_Q_MGR_NAME parameters EmptyString) in
     let appName := lastString MQCA_APPL_NAME parameters EmptyString in
     let labels := [qmgr; appName] in
     let ops := parseOperationCounts parameters in
     processAccountingMessage msgData
     = if (command =? MQCMD_ACCOUNTING_Q)
          || (command =? MQCMD_ACCOUNTING_MQI) then
         if ValidString qmgr && ValidString appName then
           ([GaugeAdd mqiOpensGauge labels (oc_Opens ops);
             GaugeAdd mqiClosesGauge labels (oc_Closes ops);
             GaugeAdd mqiPutsGauge labels (oc_Puts ops);
             GaugeAdd mqiGetsGauge labels (oc_Gets ops);
             GaugeAdd mqiCommitsGauge labels (oc_Commits ops);
             GaugeAdd mqiBackoutsGauge labels (oc_Backouts ops)],
            Done tt)
         else ([], Panic)
       else ([], Done tt)).
Proof.
  split.
  - intros Hshort. unfold processAccountingMessage.
    rewrite (ParseMessage_short time_zero time_Now time_Parse)
      by exact Hshort.
    reflexivity.
  - intros Hlen.
    destruct (ParseMessage_dispatch time_zero time_Now time_Parse
                msgData "accounting" Hlen)
      as (header & parameters & Hh & Hp & Heq).
    exists header, parameters. split; [exact Hh|]. split; [exact Hp|].
    cbv zeta in Heq |- *. unfold processAccountingMessage.
    rewrite Heq, parseStatistics_record, parseAccounting_record.
    destruct (commonFields_fold time_zero time_Parse parameters EmptyString
                time_Now) as [Hq _].
    pose proof (parseConnectionInfo_application time_zero parameters)
      as Happ.
    unfold MQCMD_STATISTICS_Q, MQCMD_STATISTICS_CHANNEL,
      MQCMD_STATISTICS_MQI, MQCMD_ACCOUNTING_Q, MQCMD_ACCOUNTING_MQI.
    destruct (Z.eqb_spec (h_Command header) 113),
      (Z.eqb_spec (h_Command header) 114),
      (Z.eqb_spec (h_Command header) 112),
      (Z.eqb_spec (h_Command header) 139),
      (Z.eqb_spec (h_Command header) 138); try lia;
      cbn [orb fst snd ad_QueueManager ad_Operations ad_ConnectionInfo];
      try reflexivity;
      rewrite Hq, Happ; unfold gaugeAdd;
      rewrite !gauge_labels_two by reflexivity;
      destruct (ValidString _ && ValidString _); reflexivity.
Qed.

End PrometheusProperties.

(** ** The complete messages of the test suite *)

Lemma ParseMessage_statistics_command_witness :
  let data := createCompleteStatsMessage in
  let header := mkPCFHeader MQCFT_STATISTICS 36 1 MQCMD_STATISTICS_Q 1 0 0 0
                  3 in
  36 <= len data /\
  parseHeader data = Done (Some header, None) /\
  exists parameters stats,
    parseParameters (drop 36 data) 3 = Done (parameters, None) /\
    ParseMessage Z 0 1700000000 (fun _ _ => None) data
      "invalid_type_that_should_fail"
    = Done (MStatistics stats, None) /\
    sd_Type Z stats = "statistics" /\
    sd_QueueManager Z stats
    = lastString MQCA_Q_MGR_NAME parameters EmptyString.
Proof.
  intros data header.
  assert (36 <= len data) as Hlen by (vm_compute; discriminate).
  assert (parseHeader data = Done (Some header, None)) as Hh by reflexivity.
  refine (conj Hlen (conj Hh _)).
  destruct (ParseMessage_statistics_command 0 1700000000 (fun _ _ => None)
              data "invalid_type_that_should_fail" header Hlen Hh
              (or_introl eq_refl))
    as (parameters & stats & Hp & Heq & Hty & Hq & _).
  exists parameters, stats. exact (conj Hp (conj Heq (conj Hty Hq))).
Defined.

Lemma ParseMessage_accounting_command_witness :
  let data := createCompleteAccountingMessage in
  let header := mkPCFHeader MQCFT_ACCOUNTING 36 1 MQCMD_ACCOUNTING_Q 1 0 0 0
                  2 in
  36 <= len data /\
  parseHeader data = Done (Some header, None) /\
  exists parameters acct,
    parseParameters (drop 36 data) 2 = Done (parameters, None) /\
    ParseMessage Z 0 1700000000 (fun _ _ => None) data "statistics"
    = Done (MAccounting acct, None) /\
    ad_Type Z acct = "accounting" /\
    ad_Operations Z acct = Some (parseOperationCounts parameters).
Proof.
  intros data header.
  assert (36 <= len data) as Hlen by (vm_compute; discriminate).
  assert (parseHeader data = Done (Some header, None)) as Hh by reflexivity.
  refine (conj Hlen (conj Hh _)).
  destruct (ParseMessage_accounting_command 0 1700000000 (fun _ _ => None)
              data "statistics" header Hlen Hh (or_introl eq_refl))
    as (parameters & acct & Hp & Heq & Hty & _ & _ & _ & Hops).
  exists parameters, acct. exact (conj Hp (conj Heq (conj Hty Hops))).
Defined.

Lemma otel_calls_queue_manager_witness :
  let calls := [RecordQueueMetrics "TESTQM" "TEST.QUEUE" 100 0 0] in
  "QM1" <> EmptyString /\
  processStatsMessageForOTel Z 0 1700000000 (fun _ _ => None) "QM1"
    createCompleteStatsMessage = Done (calls, None) /\
  Forall (fun call => callQueueManager call <> EmptyString) calls.
Proof.
  intros calls.
  assert ("QM1" <> EmptyString) as Hcfg by discriminate.
  assert (processStatsMessageForOTel Z 0 1700000000 (fun _ _ => None) "QM1"
            createCompleteStatsMessage = Done (calls, None)) as Hrun
    by (vm_compute; reflexivity).
  refine (conj Hcfg (conj Hrun _)).
  exact (proj1 (otel_calls_queue_manager 0 1700000000 (fun _ _ => None)
                  "QM1" createCompleteStatsMessage calls None Hcfg
                  (or_introl Hrun))).
Defined.

Lemma processStatisticsMessage_queue_witness :
  let data :=
    createTestPCFHeader MQCFT_STATISTICS MQCMD_STATISTICS_Q 2
    ++ testIntegerParameter MQIA_OPEN_INPUT_COUNT 3
    ++ testIntegerParameter MQIA_OPEN_OUTPUT_COUNT 0 in
  let header := mkPCFHeader MQCFT_STATISTICS 36 1 MQCMD_STATISTICS_Q 1 0 0 0
                  2 in
  36 <= len data /\
  parseHeader data = Done (Some header, None) /\
  processStatisticsMessage Z 0 1700000000 (fun _ _ => None) "QM1" data
  = ([GaugeSet queueDepthGauge ["QM1"; EmptyString] 0;
      GaugeSet queueHighDepthGauge ["QM1"; EmptyString] 0;
      GaugeSet queueEnqueueGauge ["QM1"; EmptyString] 0;
      GaugeSet queueDequeueGauge ["QM1"; EmptyString] 0;
      GaugeSet queueInputCountGauge ["QM1"; EmptyString] 3;
      GaugeSet queueOutputCountGauge ["QM1"; EmptyString] 0;
      GaugeSet queueReadersGauge ["QM1"; EmptyString] 1;
      GaugeSet queueWritersGauge ["QM1"; EmptyString] 0],
     Done tt).
Proof.
  intros data header.
  assert (36 <= len data) as Hlen by (vm_compute; discriminate).
  assert (parseHeader data = Done (Some header, None)) as Hh by reflexivity.
  refine (conj Hlen (conj Hh _)).
  destruct (processStatisticsMessage_queue 0 1700000000 (fun _ _ => None)
              "QM1" data header Hlen Hh eq_refl)
    as (parameters & Hp & Heq).
  assert (parseParameters (drop 36 data) (h_ParameterCount header)
          = Done ([mkPCFParameter MQIA_OPEN_INPUT_COUNT MQCFT_INTEGER 16
                     (VInt32 3);
                   mkPCFParameter MQIA_OPEN_OUTPUT_COUNT MQCFT_INTEGER 16
                     (VInt32 0)], None)) as Hp' by reflexivity.
  rewrite Hp' in Hp. injection Hp as <-.
  exact Heq.
Defined.

(** A queue name that is not UTF-8 (the single byte 0xFF) passes
    [cleanString] and makes [processStatisticsMessage] panic before any gauge
    is set. *)
Example processStatisticsMessage_invalid_name :
  let name := String (ascii_of_byte xff) EmptyString in
  let data :=
    createTestPCFHeader MQCFT_STATISTICS MQCMD_STATISTICS_Q 1
    ++ createTestPCFParameter MQCA_Q_NAME MQCFT_STRING name in
  cleanString name = name /\
  ValidString name = false /\
  processStatisticsMessage Z 0 1700000000 (fun _ _ => None) "QM1" data
  = ([], Panic).
Proof. repeat split; vm_compute; reflexivity. Qed.

(** [TestPCFParser_ParseMessage_Statistics] *)
Example ParseMessage_complete_stats :
  exists stats,
    ParseMessage Z 0 1700000000 (fun _ _ => None)
      createCompleteStatsMessage "statistics"
    = Done (MStatistics stats, None) /\
    sd_Type Z stats = "statistics" /\
    sd_QueueManager Z stats = "TESTQM" /\
    sd_QueueStats Z stats
    = Some (mkQueueStatistics "TEST.QUEUE" 100 0 0 0 0 0 false false).
Proof. eexists. split; [vm_compute; reflexivity|]. repeat split. Qed.

(** ** What the header contributes, and a header in the other byte order *)

Section HeaderProperties.

Context {Time : Type}.
Variable time_zero : Time.
Variable time_Now : Time.
Variable time_Parse : string -> string -> option Time.

Local Abbreviation ParseMessage :=
  (ParseMessage Time time_zero time_Now time_Parse).

(** X24. Of the header only the command code matters: two messages of at
    least 36 bytes with the same command code and the same bytes after the
    header give the same result, whatever their structure type, length,
    version, sequence number, control, completion code, reason and
    parameter count say. *)
Theorem ParseMessage_header_fields (data1 data2 : list byte)
    (msgType : string) (h1 h2 : PCFHeader) :
  36 <= len data1 -> 36 <= len data2 ->
  parseHeader data1 = Done (Some h1, None) ->
  parseHeader data2 = Done (Some h2, None) ->
  h_Command h1 = h_Command h2 ->
  drop 36 data1 = drop 36 data2 ->
  ParseMessage data1 msgType = ParseMessage data2 msgType.
Proof.
  intros L1 L2 H1 H2 Hcmd Hbody.
  destruct (ParseMessage_dispatch time_zero time_Now time_Parse
              data1 msgType L1) as (h1' & ps1 & H1' & P1 & ->).
  destruct (ParseMessage_dispatch time_zero time_Now time_Parse
              data2 msgType L2) as (h2' & ps2 & H2' & P2 & ->).
  assert (h1' = h1) as -> by congruence.
  assert (h2' = h2) as -> by congruence.
  assert (ps1 = ps2) as ->.
  { rewrite Hbody in P1. unfold parseParameters in P1, P2.
    rewrite P1 in P2. congruence. }
  cbv zeta. rewrite !parseStatistics_record, !parseAccounting_record, Hcmd.
  reflexivity.
Qed.

End HeaderProperties.

Lemma ParseMessage_header_fields_witness :
  let body := testIntegerParameter MQIA_OPEN_INPUT_COUNT 2 in
  let h1 := mkPCFHeader MQCFT_STATISTICS 36 1 MQCMD_STATISTICS_Q 1 0 0 0 1 in
  let h2 := mkPCFHeader 0 (-5) 9 MQCMD_STATISTICS_Q 77 1 2 2033 0 in
  parseHeader (encodeHeader h1 ++ body) = Done (Some h1, None) /\
  parseHeader (encodeHeader h2 ++ body) = Done (Some h2, None) /\
  ParseMessage Z 0 1700000000 (fun _ _ => None) (encodeHeader h1 ++ body)
    "statistics"
  = ParseMessage Z 0 1700000000 (fun _ _ => None) (encodeHeader h2 ++ body)
      "statistics".
Proof.
  intros body h1 h2.
  assert (parseHeader (encodeHeader h1 ++ body) = Done (Some h1, None))
    as H1 by reflexivity.
  assert (parseHeader (encodeHeader h2 ++ body) = Done (Some h2, None))
    as H2 by reflexivity.
  refine (conj H1 (conj H2 _)).
  apply (ParseMessage_header_fields 0 1700000000 (fun _ _ => None)
           (encodeHeader h1 ++ body) (encodeHeader h2 ++ body) "statistics"
           h1 h2); try assumption; try reflexivity;
    vm_compute; discriminate.
Defined.

Lemma Uint32_PutUint32BE_small (x : Z) (rest : list byte) :
  0 <= x < 256 -> Uint32 (PutUint32BE x ++ rest) = Done (x * 2 ^ 24).
Proof.
  intros Hx. unfold PutUint32BE.
  assert (forall k, 8 <= k -> Z.shiftr x k = 0) as Hhigh.
  { intros k Hk. apply Z.shiftr_eq_0; [lia|].
    destruct (Z.eq_dec x 0) as [->|Hx0]; [simpl; lia|].
    apply Z.log2_lt_pow2; [lia|].
    assert (2 ^ 8 <= 2 ^ k) by (apply Z.pow_le_mono_r; lia). lia. }
  rewrite !Hhigh by lia. cbn [app Uint32].
  change (byte_val (byte_of 0)) with 0.
  change (Z.shiftl 0 8) with 0. change (Z.shiftl 0 16) with 0.
  rewrite !Z.lor_0_l, byte_val_of, Z.mod_small by lia.
  rewrite Z.shiftl_mul_pow2 by lia. reflexivity.
Qed.

Lemma Uint32_PutUint32BE (u : Z) (rest : list byte) :
  Uint32 (PutUint32BE u ++ rest) = Done (ReverseBytes32 u).
Proof.
  unfold PutUint32BE, ReverseBytes32. cbn [app Uint32].
  rewrite !byte_val_of. reflexivity.
Qed.

Lemma ReverseBytes32_small (x : Z) :
  0 <= x < 256 -> ReverseBytes32 x = x * 2 ^ 24.
Proof.
  intros Hx.
  pose proof (Uint32_PutUint32BE x []) as H1.
  rewrite Uint32_PutUint32BE_small in H1 by exact Hx.
  injection H1 as H1. symmetry. exact H1.
Qed.

Lemma readInt32_PutUint32BE (u : Z) (pre post : list byte) (k : Z) :
  len pre = k ->
  readInt32 (pre ++ PutUint32BE u ++ post) k
  = Done (int32_of_uint32 (ReverseBytes32 u)).
Proof.
  intros <-. unfold readInt32.
  rewrite slice_Done; [| apply len_nonneg | lia |].
  2:{ rewrite !len_app. unfold PutUint32BE, len. simpl. lia. }
  replace (Z.to_nat (len pre)) with (length pre) by (unfold len; lia).
  rewrite drop_app_length.
  replace (len pre + 4 - len pre) with 4 by lia.
  change (Z.to_nat 4) with 4%nat.
  change (take 4 (PutUint32BE u ++ post)) with (PutUint32BE u ++ []).
  unfold mbind, outcome_bind.
  rewrite Uint32_PutUint32BE. reflexivity.
Qed.

(** X25. A header written big-endian (as [createTestPCFHeader] of the
    second copy of the parser tests writes it) is read back with the bytes
    of every field reversed, so the structure length 36 reads as 603979776
    and the version 1 as 16777216.  A type, command code or parameter count
    in 0..255 (the structure types 20 and 21 and all five known command
    codes 112, 113, 114, 138 and 139 are) reads as itself times 2^24 wrapped
    to [int32]: times 2^24 below 128, and a negative number from 128 on.
    Hence, when the command code written is in 0..255, the command code
    read is not one of the five known codes. *)
Theorem parseHeader_big_endian (msgType command paramCount : Z)
    (rest : list byte) :
  let read x := int32_of_uint32 (ReverseBytes32 (uint32_of_int32 x)) in
  parseHeader (createTestPCFHeaderBE msgType command paramCount ++ rest)
  = Done (Some (mkPCFHeader (read msgType) 603979776 16777216
                  (read command) 16777216 0 0 0 (read paramCount)),
          None) /\
  (forall x, 0 <= x < 128 -> read x = x * 2 ^ 24) /\
  (forall x, 128 <= x < 256 -> read x = x * 2 ^ 24 - 2 ^ 32) /\
  (0 <= command < 256 -> knownCommand (read command) = false).
Proof.
  cbv zeta.
  assert (forall x, 0 <= x < 256 ->
            int32_of_uint32 (ReverseBytes32 (uint32_of_int32 x))
            = int32_of_uint32 (x * 2 ^ 24)) as Hsmall.
  { intros x Hx. unfold uint32_of_int32.
    rewrite Z.mod_small by lia. rewrite ReverseBytes32_small by exact Hx.
    reflexivity. }
  split; [|split; [|split]].
  - unfold parseHeader.
    assert ((len (createTestPCFHeaderBE msgType command paramCount ++ rest)
             <? 36) = false) as ->.
    { apply Z.ltb_ge. rewrite len_app. pose proof (len_nonneg rest).
      change (len (createTestPCFHeaderBE msgType command paramCount))
        with 36. lia. }
    unfold createTestPCFHeaderBE.
    set (m := uint32_of_int32 msgType).
    set (c := uint32_of_int32 command).
    set (n := uint32_of_int32 paramCount).
    set (B := PutUint32BE).
    set (data := (B m ++ _) ++ rest).
    assert (readInt32 data 0 = Done (int32_of_uint32 (ReverseBytes32 m)))
      as ->
      by exact (readInt32_PutUint32BE m [] (B 36 ++ B 1 ++ B c ++ B 1 ++ B 0
                  ++ B 0 ++ B 0 ++ B n ++ rest) 0 eq_refl).
    assert (readInt32 data 4 = Done (int32_of_uint32 (ReverseBytes32 36)))
      as ->
      by exact (readInt32_PutUint32BE 36 (B m) (B 1 ++ B c ++ B 1 ++ B 0
                  ++ B 0 ++ B 0 ++ B n ++ rest) 4 eq_refl).
    assert (readInt32 data 8 = Done (int32_of_uint32 (ReverseBytes32 1)))
      as ->
      by exact (readInt32_PutUint32BE 1 (B m ++ B 36) (B c ++ B 1 ++ B 0
                  ++ B 0 ++ B 0 ++ B n ++ rest) 8 eq_refl).
    assert (readInt32 data 12 = Done (int32_of_uint32 (ReverseBytes32 c)))
      as ->
      by exact (readInt32_PutUint32BE c (B m ++ B 36 ++ B 1) (B 1 ++ B 0
                  ++ B 0 ++ B 0 ++ B n ++ rest) 12 eq_refl).
    assert (readInt32 data 16 = Done (int32_of_uint32 (ReverseBytes32 1)))
      as ->
      by exact (readInt32_PutUint32BE 1 (B m ++ B 36 ++ B 1 ++ B c) (B 0
                  ++ B 0 ++ B 0 ++ B n ++ rest) 16 eq_refl).
    assert (readInt32 data 20 = Done (int32_of_uint32 (ReverseBytes32 0)))
      as ->
      by exact (readInt32_PutUint32BE 0 (B m ++ B 36 ++ B 1 ++ B c ++ B 1)
                  (B 0 ++ B 0 ++ B n ++ rest) 20 eq_refl).
    assert (readInt32 data 24 = Done (int32_of_uint32 (ReverseBytes32 0)))
      as ->
      by exact (readInt32_PutUint32BE 0 (B m ++ B 36 ++ B 1 ++ B c ++ B 1
                  ++ B 0) (B 0 ++ B n ++ rest) 24 eq_refl).
    assert (readInt32 data 28 = Done (int32_of_uint32 (ReverseBytes32 0)))
      as ->
      by exact (readInt32_PutUint32BE 0 (B m ++ B 36 ++ B 1 ++ B c ++ B 1
                  ++ B 0 ++ B 0) (B n ++ rest) 28 eq_refl).
    assert (readInt32 data 32 = Done (int32_of_uint32 (ReverseBytes32 n)))
      as ->
      by exact (readInt32_PutUint32BE n (B m ++ B 36 ++ B 1 ++ B c
                  ++ B 1 ++ B 0 ++ B 0 ++ B 0) rest 32 eq_refl).
    reflexivity.
  - intros x Hx. rewrite Hsmall by lia. unfold int32_of_uint32.
    destruct (Z.ltb_spec (x * 2 ^ 24) (2 ^ 31)); [reflexivity | lia].
  - intros x Hx. rewrite Hsmall by lia. unfold int32_of_uint32.
    destruct (Z.ltb_spec (x * 2 ^ 24) (2 ^ 31)); [lia | reflexivity].
  - intros Hc. rewrite Hsmall by exact Hc.
    unfold knownCommand, int32_of_uint32, MQCMD_STATISTICS_Q,
      MQCMD_STATISTICS_CHANNEL, MQCMD_STATISTICS_MQI, MQCMD_ACCOUNTING_Q,
      MQCMD_ACCOUNTING_MQI.
    rewrite !orb_false_iff, !Z.eqb_neq.
    destruct (Z.ltb_spec (command * 2 ^ 24) (2 ^ 31)); lia.
Qed.

Lemma parseHeader_big_endian_witness :
  let read x := int32_of_uint32 (ReverseBytes32 (uint32_of_int32 x)) in
  0 <= MQCMD_ACCOUNTING_Q < 256 /\
  parseHeader (createTestPCFHeaderBE MQCFT_ACCOUNTING MQCMD_ACCOUNTING_Q 2
               ++ [])
  = Done (Some (mkPCFHeader 352321536 603979776 16777216 (-1962934272)
                  16777216 0 0 0 33554432),
          None) /\
  read MQCMD_ACCOUNTING_Q = MQCMD_ACCOUNTING_Q * 2 ^ 24 - 2 ^ 32 /\
  knownCommand (read MQCMD_ACCOUNTING_Q) = false.
Proof.
  intros read.
  assert (0 <= MQCMD_ACCOUNTING_Q < 256) as Hc
    by (unfold MQCMD_ACCOUNTING_Q; lia).
  assert (128 <= MQCMD_ACCOUNTING_Q < 256) as Hc'
    by (unfold MQCMD_ACCOUNTING_Q; lia).
  destruct (parseHeader_big_endian MQCFT_ACCOUNTING MQCMD_ACCOUNTING_Q 2 [])
    as (Hread & _ & Hhigh & Hknown).
  exact (conj Hc (conj Hread (conj (Hhigh _ Hc') (Hknown Hc)))).
Defined.
